(** * google-sheets: a verification model of [src/google-sheets.js]

    The development has three layers.

    - [JSNum]: the fragment of JavaScript numbers and strings that the
      worksheet-id / grid-id codec uses ([parseInt], [Number.prototype.toString],
      [ToInt32], bitwise xor), followed by the codec itself.
    - [JS]: a small heap model of JavaScript values.
    - [Widget]: the [google-sheets] element, one definition per source
      function, over the [JS] heap, in a state monad with exceptions.

    The properties of the program and their proofs follow the model.  *)

From Stdlib Require Import ZArith Lia String Ascii List Bool.
From stdpp Require Import base option list strings gmap.

Local Open Scope Z_scope.
#[local] Set Warnings "-register-all".


(** ** JavaScript numbers and numerals *)

Module JSNum.

(** A JavaScript number as far as this program needs it: an integer or NaN.
    Integers are exact in JavaScript up to 2^53; the statements below that
    depend on exactness carry a bound well inside that range.  The number
    [-0] is identified with [0] (they are indistinguishable to [ToInt32]
    and to [toString]). *)
Inductive jsnum :=
| NaN
| Num (z : Z).

#[global] Instance jsnum_eq_dec : EqDecision jsnum.
Proof. solve_decision. Defined.

(** [ToInt32]: NaN goes to 0, an integer wraps around modulo 2^32 into
    [-2^31, 2^31). *)
Definition ToInt32 (x : jsnum) : Z :=
  match x with
  | NaN => 0
  | Num z => (z + 2^31) mod 2^32 - 2^31
  end.

(** The operator [a ^ b]. *)
Definition js_xor (a b : jsnum) : Z := Z.lxor (ToInt32 a) (ToInt32 b).

(** Strings are sequences of code units; a Rocq [string] holds the code units
    U+0000 to U+00FF. *)
Definition code (c : ascii) : Z := Z.of_N (N_of_ascii c).

(** White space that [parseInt] skips (the code units of [StrWhiteSpaceChar]
    below U+0100): TAB, LF, VT, FF, CR, SP and NBSP. *)
Definition is_white (c : ascii) : bool :=
  let n := code c in
  ((9 <=? n) && (n <=? 13)) || (n =? 32) || (n =? 160).

Fixpoint skip_white (s : string) : string :=
  match s with
  | String c s' => if is_white c then skip_white s' else s
  | EmptyString => s
  end.

(** The value of a character as a digit: 0-9, then a-z or A-Z for 10-35. *)
Definition digit_value (c : ascii) : option Z :=
  let n := code c in
  if (48 <=? n) && (n <=? 57) then Some (n - 48)
  else if (97 <=? n) && (n <=? 122) then Some (n - 87)
  else if (65 <=? n) && (n <=? 90) then Some (n - 55)
  else None.

(** The digits of the longest prefix of [s] made of radix-[r] digits. *)
Fixpoint digit_prefix (r : Z) (s : string) : list Z :=
  match s with
  | String c s' =>
      match digit_value c with
      | Some d => if d <? r then d :: digit_prefix r s' else []
      | None => []
      end
  | EmptyString => []
  end.

(** The integer that a sequence of digits denotes, most significant first. *)
Definition digit_step (r : Z) (acc d : Z) : Z := acc * r + d.
Definition digits_value (r : Z) (ds : list Z) : Z :=
  fold_left (digit_step r) ds 0.

Definition strip_sign (s : string) : Z * string :=
  match s with
  | String "-" s' => (-1, s')
  | String "+" s' => (1, s')
  | _ => (1, s)
  end.

Definition strip_0x (s : string) : option string :=
  match s with
  | String "0" (String "x" s') => Some s'
  | String "0" (String "X" s') => Some s'
  | _ => None
  end.

(** [parseInt(s, radix)], following the steps of the language definition.
    [radix] is the argument after [ToInt32]; a missing radix is 0. *)
Definition parseInt (s : string) (radix : Z) : jsnum :=
  let '(sign, s1) := strip_sign (skip_white s) in
  if (radix =? 0) || (radix =? 16) then
    let '(r, s2) :=
      match strip_0x s1 with
      | Some s2 => (16, s2)
      | None => (if radix =? 0 then 10 else 16, s1)
      end in
    match digit_prefix r s2 with
    | [] => NaN
    | ds => Num (sign * digits_value r ds)
    end
  else if (radix <? 2) || (36 <? radix) then NaN
  else
    match digit_prefix radix s1 with
    | [] => NaN
    | ds => Num (sign * digits_value radix ds)
    end.

(** The character of a digit, lower case as [toString] prints it. *)
Definition digit_char (d : Z) : ascii :=
  ascii_of_N (Z.to_N (if d <? 10 then 48 + d else 87 + d)).

(** The digits of [n >= 0] in radix [r], most significant first.  The
    recursion divides by [r]; [fuel] bounds the number of digits. *)
Fixpoint digits_of (fuel : nat) (r n : Z) (acc : list Z) : list Z :=
  match fuel with
  | O => acc
  | S fuel' =>
      let acc' := n mod r :: acc in
      if n / r =? 0 then acc' else digits_of fuel' r (n / r) acc'
  end.

(** A number of radix-[r] digits that suffices for [n]: its bit length. *)
Definition digits_fuel (n : Z) : nat := S (Z.to_nat (Z.log2 n)).

Definition string_of_digits (ds : list Z) : string :=
  fold_right (fun d s => String (digit_char d) s) EmptyString ds.

Definition numeral (r n : Z) : string :=
  string_of_digits (digits_of (digits_fuel n) r n []).

(** [x.toString(radix)] for an integer or NaN ([String(x)] is radix 10). *)
Definition js_toString (x : jsnum) (radix : Z) : string :=
  match x with
  | NaN => "NaN"
  | Num z => if z <? 0 then String "-" (numeral radix (- z)) else numeral radix z
  end.

(** *** The codec of the source *)

(** [function wid_to_gid_(wid) { return parseInt(String(wid), 36) ^ 31578; }] *)
Definition wid_to_gid_ (wid : string) : Z :=
  js_xor (parseInt wid 36) (Num 31578).

(** [function gid_to_wid_(gid) { return parseInt((gid ^ 31578)).toString(36); }] *)
Definition gid_to_wid_ (gid : Z) : string :=
  js_toString (parseInt (js_toString (Num (js_xor (Num gid) (Num 31578))) 10) 0) 36.

(** A canonical worksheet id: a non-empty string of the characters 0-9 and
    a-z that does not start with 0 unless it is "0" itself. *)
Definition is_lower_digit (c : ascii) : bool :=
  let n := code c in
  ((48 <=? n) && (n <=? 57)) || ((97 <=? n) && (n <=? 122)).

Fixpoint all_lower_digits (s : string) : bool :=
  match s with
  | String c s' => is_lower_digit c && all_lower_digits s'
  | EmptyString => true
  end.

Definition canonical_wid (s : string) : bool :=
  match s with
  | EmptyString => false
  | String "0" EmptyString => true
  | String "0" _ => false
  | _ => all_lower_digits s
  end.

(** The value of a canonical worksheet id as a base-36 numeral. *)
Definition wid_value (s : string) : Z := digits_value 36 (digit_prefix 36 s).

End JSNum.


(** ** JavaScript values on a heap *)

Module JS.

Abbreviation loc := nat.

(** Primitive values and references to heap objects.  Numbers that occur in
    data are integers. *)
Inductive jsval :=
| VUndef
| VNull
| VBool (b : bool)
| VNum (n : Z)
| VStr (s : string)
| VRef (l : loc).

#[global] Instance jsval_eq_dec : EqDecision jsval.
Proof. solve_decision. Defined.

(** What a heap object is: a plain object, an array with its elements, or
    the [Date] built by [new Date(arg)].  Date parsing belongs to the
    platform; the model keeps the constructor's argument. *)
Inductive objkind :=
| KObject
| KArray (elems : list jsval)
| KDate (arg : jsval).

(** Every object carries named properties; an array's elements are apart. *)
Record jsobj := { kind : objkind; props : gmap string jsval }.

Definition plain (ps : gmap string jsval) : jsobj := {| kind := KObject; props := ps |}.
Definition array (vs : list jsval) : jsobj := {| kind := KArray vs; props := ∅ |}.
Definition date (arg : jsval) : jsobj := {| kind := KDate arg; props := ∅ |}.

(** The heap: location [l] is the [l]-th allocated object; nothing is ever
    freed. *)
Abbreviation heap := (list jsobj).

(** Truthiness, as [if], [!] and [&&] test it. *)
Definition truthy (v : jsval) : bool :=
  match v with
  | VUndef | VNull => false
  | VBool b => b
  | VNum n => negb (n =? 0)
  | VStr s => negb (bool_decide (s = ""%string))
  | VRef _ => true
  end.

(** [v.name] for the property names this program reads (none of them is an
    array index or [length]).  [None] is the TypeError of reading a property
    of [undefined] or [null].  Properties that primitives inherit from their
    prototypes are not values of the model: such a read yields [undefined]
    (of the names read here a string inherits one, [link]; what is stated of
    a value whose [link] is read is stated of objects). *)
Definition js_get (h : heap) (v : jsval) (name : string) : option jsval :=
  match v with
  | VUndef | VNull => None
  | VRef l =>
      match h !! l with
      | Some o => Some (default VUndef (props o !! name))
      | None => Some VUndef
      end
  | _ => Some VUndef
  end.

(** [v[i]] for a natural number [i]. *)
Definition js_index (h : heap) (v : jsval) (i : nat) : option jsval :=
  match v with
  | VUndef | VNull => None
  | VRef l =>
      match h !! l with
      | Some o =>
          match kind o with
          | KArray elems => Some (default VUndef (elems !! i))
          | _ => Some (default VUndef (props o !! JSNum.numeral 10 (Z.of_nat i)))
          end
      | None => Some VUndef
      end
  | VStr s =>
      Some (match String.get i s with
            | Some c => VStr (String c EmptyString)
            | None => VUndef
            end)
  | _ => Some VUndef
  end.

(** A number of indices after which a scan [v[0], v[1], ...] that stops at the
    first falsy element has stopped. *)
Definition index_bound (h : heap) (v : jsval) : nat :=
  match v with
  | VRef l =>
      match h !! l with
      | Some o =>
          match kind o with
          | KArray elems => length elems
          | _ => size (props o)
          end
      | None => 0
      end
  | VStr s => String.length s
  | _ => 0
  end.

(** The object at [l] with its property [name] set to [x]. *)
Definition heap_put (h : heap) (l : loc) (name : string) (x : jsval) : heap :=
  match h !! l with
  | Some o => <[l := {| kind := kind o; props := <[name := x]> (props o) |}]> h
  | None => h
  end.

(** The assignment [v.name = x], for names that are not array indices.
    [None] is a TypeError: strict-mode code cannot create a property on a
    primitive. *)
Definition js_put (h : heap) (v : jsval) (name : string) (x : jsval) : option heap :=
  match v with
  | VRef l => Some (heap_put h l name x)
  | _ => None
  end.

Definition js_alloc (h : heap) (o : jsobj) : jsval * heap :=
  (VRef (length h), h ++ [o]).

(** [s.split('/')] and [s.indexOf(k) != -1] on strings. *)
Fixpoint split_slash (s : string) : list string :=
  match s with
  | EmptyString => [EmptyString]
  | String c s' =>
      if bool_decide (c = "/"%char) then EmptyString :: split_slash s'
      else match split_slash s' with
           | seg :: segs => String c seg :: segs
           | [] => [String c EmptyString]
           end
  end.

Fixpoint contains (needle hay : string) : bool :=
  String.prefix needle hay ||
  match hay with
  | EmptyString => false
  | String _ hay' => contains needle hay'
  end.

(** Parsed JSON, the body of a response, and its allocation on the heap (what
    [handle-as="json"] leaves in [lastResponse]).  A repeated key keeps its
    last value. *)
Inductive json :=
| JNull
| JBool (b : bool)
| JNum (n : Z)
| JStr (s : string)
| JArr (items : list json)
| JObj (members : list (string * json)).

Fixpoint alloc_json (j : json) (h : heap) {struct j} : jsval * heap :=
  match j with
  | JNull => (VNull, h)
  | JBool b => (VBool b, h)
  | JNum n => (VNum n, h)
  | JStr s => (VStr s, h)
  | JArr items =>
      let '(vs, h') :=
        (fix go (items : list json) (h : heap) : list jsval * heap :=
           match items with
           | [] => ([], h)
           | j :: items' =>
               let '(v, h1) := alloc_json j h in
               let '(vs, h2) := go items' h1 in
               (v :: vs, h2)
           end) items h in
      js_alloc h' (array vs)
  | JObj members =>
      let '(ps, h') :=
        (fix go (members : list (string * json)) (ps : gmap string jsval) (h : heap)
           : gmap string jsval * heap :=
           match members with
           | [] => (ps, h)
           | (k, j) :: members' =>
               let '(v, h1) := alloc_json j h in
               go members' (<[k := v]> ps) h1
           end) members ∅ h in
      js_alloc h' (plain ps)
  end.

End JS.

(** ** The google-sheets element *)

Module Widget.
Import JS.

(** [var SCOPE_ = 'https://spreadsheets.google.com/feeds';] *)
Definition SCOPE_ : string := "https://spreadsheets.google.com/feeds".

(** The four [iron-ajax] children of the template, [this.$.<id>]. *)
Inductive ajax_id := publicajax | listsheetsajax | worksheetajax | cellrowsajax.

#[global] Instance ajax_id_eq_dec : EqDecision ajax_id.
Proof. solve_decision. Defined.

(** What the element writes on an [iron-ajax]: its [url] and [headers]. *)
Record ajax := { url : string; headers : list (string * string) }.

(** A request as [generateRequest()] sends it.  The template leaves the method
    at the default of [iron-ajax], GET, and sets [params] to [{"alt": "json"}]
    on all four. *)
Record request := {
  req_ajax : ajax_id;
  req_method : string;
  req_url : string;
  req_params : list (string * string);
  req_headers : list (string * string)
}.

(** What can be observed of an element from outside, in order of time:
    sign-in successes it received, requests it sent, responses handed to it,
    and the [google-sheet-data] events it fired with [this.fire] (with
    [detail.type] and [detail.data]).  The property-change events that
    Polymer fires on its own for the properties declared [notify: true] are
    not recorded. *)
Inductive obs :=
| SignedIn (access_token : string)
| Requested (r : request)
| Delivered (a : ajax_id)
| Fired (type : string) (detail_type : string) (data : jsval).

(** The properties of one element, [this]. *)
Record element := {
  clientId : string;
  key : string;
  tabId : Z;
  published : bool;
  sheet : jsval;
  tab : jsval;
  rows : jsval;
  spreadsheets : jsval;
  _worksheetId : option string;
  publicajax_ : ajax;
  listsheetsajax_ : ajax;
  worksheetajax_ : ajax;
  cellrowsajax_ : ajax
}.

(** The state a handler runs in: the heap and [rowDataCache_], which all
    elements of the page share, the element itself, and its trace. *)
Record state := {
  heap : JS.heap;
  rowDataCache_ : gmap string jsval;
  this : element;
  log : list obs
}.

Definition set_heap (h : JS.heap) (s : state) : state :=
  {| heap := h; rowDataCache_ := rowDataCache_ s; this := this s; log := log s |}.
Definition set_cache (c : gmap string jsval) (s : state) : state :=
  {| heap := heap s; rowDataCache_ := c; this := this s; log := log s |}.
Definition set_this (e : element) (s : state) : state :=
  {| heap := heap s; rowDataCache_ := rowDataCache_ s; this := e; log := log s |}.
Definition add_log (o : obs) (s : state) : state :=
  {| heap := heap s; rowDataCache_ := rowDataCache_ s; this := this s; log := log s ++ [o] |}.

Definition with_key (k : string) (e : element) : element :=
  {| clientId := clientId e; key := k; tabId := tabId e; published := published e;
     sheet := sheet e; tab := tab e; rows := rows e; spreadsheets := spreadsheets e;
     _worksheetId := _worksheetId e; publicajax_ := publicajax_ e;
     listsheetsajax_ := listsheetsajax_ e; worksheetajax_ := worksheetajax_ e;
     cellrowsajax_ := cellrowsajax_ e |}.
Definition with_tabId (n : Z) (e : element) : element :=
  {| clientId := clientId e; key := key e; tabId := n; published := published e;
     sheet := sheet e; tab := tab e; rows := rows e; spreadsheets := spreadsheets e;
     _worksheetId := _worksheetId e; publicajax_ := publicajax_ e;
     listsheetsajax_ := listsheetsajax_ e; worksheetajax_ := worksheetajax_ e;
     cellrowsajax_ := cellrowsajax_ e |}.
Definition with_published (b : bool) (e : element) : element :=
  {| clientId := clientId e; key := key e; tabId := tabId e; published := b;
     sheet := sheet e; tab := tab e; rows := rows e; spreadsheets := spreadsheets e;
     _worksheetId := _worksheetId e; publicajax_ := publicajax_ e;
     listsheetsajax_ := listsheetsajax_ e; worksheetajax_ := worksheetajax_ e;
     cellrowsajax_ := cellrowsajax_ e |}.
Definition with_clientId (c : string) (e : element) : element :=
  {| clientId := c; key := key e; tabId := tabId e; published := published e;
     sheet := sheet e; tab := tab e; rows := rows e; spreadsheets := spreadsheets e;
     _worksheetId := _worksheetId e; publicajax_ := publicajax_ e;
     listsheetsajax_ := listsheetsajax_ e; worksheetajax_ := worksheetajax_ e;
     cellrowsajax_ := cellrowsajax_ e |}.
Definition with_sheet (v : jsval) (e : element) : element :=
  {| clientId := clientId e; key := key e; tabId := tabId e; published := published e;
     sheet := v; tab := tab e; rows := rows e; spreadsheets := spreadsheets e;
     _worksheetId := _worksheetId e; publicajax_ := publicajax_ e;
     listsheetsajax_ := listsheetsajax_ e; worksheetajax_ := worksheetajax_ e;
     cellrowsajax_ := cellrowsajax_ e |}.
Definition with_tab (v : jsval) (e : element) : element :=
  {| clientId := clientId e; key := key e; tabId := tabId e; published := published e;
     sheet := sheet e; tab := v; rows := rows e; spreadsheets := spreadsheets e;
     _worksheetId := _worksheetId e; publicajax_ := publicajax_ e;
     listsheetsajax_ := listsheetsajax_ e; worksheetajax_ := worksheetajax_ e;
     cellrowsajax_ := cellrowsajax_ e |}.
Definition with_rows (v : jsval) (e : element) : element :=
  {| clientId := clientId e; key := key e; tabId := tabId e; published := published e;
     sheet := sheet e; tab := tab e; rows := v; spreadsheets := spreadsheets e;
     _worksheetId := _worksheetId e; publicajax_ := publicajax_ e;
     listsheetsajax_ := listsheetsajax_ e; worksheetajax_ := worksheetajax_ e;
     cellrowsajax_ := cellrowsajax_ e |}.
Definition with_spreadsheets (v : jsval) (e : element) : element :=
  {| clientId := clientId e; key := key e; tabId := tabId e; published := published e;
     sheet := sheet e; tab := tab e; rows := rows e; spreadsheets := v;
     _worksheetId := _worksheetId e; publicajax_ := publicajax_ e;
     listsheetsajax_ := listsheetsajax_ e; worksheetajax_ := worksheetajax_ e;
     cellrowsajax_ := cellrowsajax_ e |}.
Definition with_worksheetId (w : option string) (e : element) : element :=
  {| clientId := clientId e; key := key e; tabId := tabId e; published := published e;
     sheet := sheet e; tab := tab e; rows := rows e; spreadsheets := spreadsheets e;
     _worksheetId := w; publicajax_ := publicajax_ e;
     listsheetsajax_ := listsheetsajax_ e; worksheetajax_ := worksheetajax_ e;
     cellrowsajax_ := cellrowsajax_ e |}.

Definition get_ajax (a : ajax_id) (e : element) : ajax :=
  match a with
  | publicajax => publicajax_ e
  | listsheetsajax => listsheetsajax_ e
  | worksheetajax => worksheetajax_ e
  | cellrowsajax => cellrowsajax_ e
  end.

Definition with_ajax (a : ajax_id) (x : ajax) (e : element) : element :=
  {| clientId := clientId e; key := key e; tabId := tabId e; published := published e;
     sheet := sheet e; tab := tab e; rows := rows e; spreadsheets := spreadsheets e;
     _worksheetId := _worksheetId e;
     publicajax_ := if decide (a = publicajax) then x else publicajax_ e;
     listsheetsajax_ := if decide (a = listsheetsajax) then x else listsheetsajax_ e;
     worksheetajax_ := if decide (a = worksheetajax) then x else worksheetajax_ e;
     cellrowsajax_ := if decide (a = cellrowsajax) then x else cellrowsajax_ e |}.

(** *** Exceptions and the monad of handlers *)

Inductive jserror :=
| TypeError
| Error (message : string).

(** A handler returns or throws; either way it leaves a state behind, since an
    exception undoes nothing. *)
Inductive result (A : Type) :=
| Ok (a : A) (s : state)
| Throw (e : jserror) (s : state).
Arguments Ok {A} a s.
Arguments Throw {A} e s.

Definition M (A : Type) : Type := state -> result A.

Definition ret {A} (a : A) : M A := fun s => Ok a s.
Definition bind {A B} (m : M A) (k : A -> M B) : M B := fun s =>
  match m s with
  | Ok a s' => k a s'
  | Throw e s' => Throw e s'
  end.

Declare Scope js_scope.
Delimit Scope js_scope with js.
Notation "x <- m ;; k" := (bind m (fun x => k))
  (at level 100, m at next level, right associativity) : js_scope.
Notation "m ;; k" := (bind m (fun _ => k))
  (at level 100, right associativity) : js_scope.
Local Open Scope js_scope.

(** The state a computation leaves behind. *)
Definition final {A} (r : result A) : state :=
  match r with
  | Ok _ s => s
  | Throw _ s => s
  end.

Definition throw {A} (e : jserror) : M A := fun s => Throw e s.
Definition gets {A} (f : state -> A) : M A := fun s => Ok (f s) s.
Definition modify (f : state -> state) : M unit := fun s => Ok tt (f s).
Definition this_ {A} (f : element -> A) : M A := gets (fun s => f (this s)).
Definition update_this (f : element -> element) : M unit :=
  modify (fun s => set_this (f (this s)) s).
Definition lift_option {A} (f : state -> option A) : M A := fun s =>
  match f s with
  | Some a => Ok a s
  | None => Throw TypeError s
  end.

(** [v.name], [v[i]] and [v.name = x]. *)
Definition get_prop (v : jsval) (name : string) : M jsval :=
  lift_option (fun s => js_get (heap s) v name).
Definition index (v : jsval) (i : nat) : M jsval :=
  lift_option (fun s => js_index (heap s) v i).
Definition put_prop (v : jsval) (name : string) (x : jsval) : M unit :=
  h <- lift_option (fun s => js_put (heap s) v name x) ;;
  modify (set_heap h).

Definition new (o : jsobj) : M jsval := fun s =>
  let '(v, h) := js_alloc (heap s) o in Ok v (set_heap h s).
Definition new_object (ps : list (string * jsval)) : M jsval :=
  new (plain (list_to_map ps)).

(** [this.<prop>.a.b] *)
Definition path2 (prop : element -> jsval) (a b : string) : M jsval :=
  root <- this_ prop ;;
  x <- get_prop root a ;;
  get_prop x b.

(** *** The Polymer calls of the source *)

(** [this.set('<prop>.<name>', v)]: Polymer walks the path from [this] and
    gives up silently when the object on the way is falsy; otherwise it
    assigns.  A change below a property does not run that property's
    observer. *)
Definition polymer_set (prop : element -> jsval) (name : string) (v : jsval) : M unit :=
  root <- this_ prop ;;
  if truthy root then put_prop root name v else ret tt.

(** [this.fire('google-sheet-data', {type: t, data: d})] *)
Definition fire (type detail_type : string) (data : jsval) : M unit :=
  modify (add_log (Fired type detail_type data)).

(** [this.$.<a>.url = u], [this.$.<a>.headers = h], [this.$.<a>.generateRequest()] *)
Definition set_url (a : ajax_id) (u : string) : M unit :=
  update_this (fun e => with_ajax a {| url := u; headers := headers (get_ajax a e) |} e).
Definition set_headers (a : ajax_id) (h : list (string * string)) : M unit :=
  update_this (fun e => with_ajax a {| url := url (get_ajax a e); headers := h |} e).
Definition generateRequest (a : ajax_id) : M unit :=
  x <- this_ (get_ajax a) ;;
  modify (add_log (Requested {| req_ajax := a; req_method := "GET"; req_url := url x;
                                req_params := [("alt", "json")]%string;
                                req_headers := headers x |})).

(** The setters of the read-only properties without an observer. *)
Definition _setRows (v : jsval) : M unit := update_this (with_rows v).
Definition _setSpreadsheets (v : jsval) : M unit := update_this (with_spreadsheets v).

(** An event as a response handler receives it: the [response] event of an
    [iron-ajax], or the [null] that [_getCellRows] passes. *)
Inductive jsevent :=
| EvNull
| EvResponse (lastResponse : jsval).

(** [e.stopPropagation()] and [e.target.lastResponse] *)
Definition stopPropagation (e : jsevent) : M unit :=
  match e with
  | EvNull => throw TypeError
  | EvResponse _ => ret tt
  end.
Definition target_lastResponse (e : jsevent) : M jsval :=
  match e with
  | EvNull => throw TypeError
  | EvResponse r => ret r
  end.

(** *** The functions of the source *)

(** String conversion of [this._worksheetId] in a concatenation. *)
Definition wid_string (w : option string) : string :=
  match w with
  | Some s => s
  | None => "null"
  end.

Definition wid_truthy (w : option string) : bool :=
  match w with
  | Some s => negb (bool_decide (s = ""%string))
  | None => false
  end.

Definition tab_string (n : Z) : string := JSNum.js_toString (JSNum.Num n) 10.

(** [function generateCacheKey_() { return this._worksheetId + '_'+ this.tabId; }] *)
Definition cache_key (w : option string) (t : Z) : string :=
  wid_string w +:+ "_" +:+ tab_string t.
Definition generateCacheKey_ : M string :=
  this_ (fun e => cache_key (_worksheetId e) (tabId e)).

(** [function getLink_(rel, links)]: the scan of [links[0], links[1], ...]
    until a falsy element. *)
Fixpoint getLink_loop (fuel : nat) (rel : string) (links : jsval) (i : nat) : M jsval :=
  match fuel with
  | O => ret VNull
  | S fuel' =>
      link <- index links i ;;
      if truthy link then
        r <- get_prop link "rel" ;;
        if bool_decide (r = VStr rel) then ret link
        else getLink_loop fuel' rel links (S i)
      else ret VNull
  end.
Definition getLink_ (rel : string) (links : jsval) : M jsval :=
  n <- gets (fun s => index_bound (heap s) links) ;;
  getLink_loop (S n) rel links 0.

(** [_computeGoogleDocsUrl: function(key)] *)
Definition _computeGoogleDocsUrl (key : string) : string :=
  let url := "https://docs.google.com/spreadsheet/"%string in
  if bool_decide (key = ""%string) then url else url +:+ "ccc?key=" +:+ key.

(** [_keyChanged] *)
Definition _keyChanged : M unit :=
  p <- this_ published ;;
  if p then
    k <- this_ key ;;
    t <- this_ tabId ;;
    set_url publicajax (SCOPE_ +:+ "/list/" +:+ k +:+ "/" +:+ tab_string t +:+ "/public/values") ;;
    generateRequest publicajax
  else ret tt.

(** The callback of [author.map(...)]:
    [function(a) { return {email: a.email.$t, name: a.name.$t}; }] *)
Definition author_pair (a : jsval) : M jsval :=
  email <- get_prop a "email" ;;
  e <- get_prop email "$t" ;;
  name <- get_prop a "name" ;;
  n <- get_prop name "$t" ;;
  new_object [("email", e); ("name", n)]%string.

Fixpoint map_M (f : jsval -> M jsval) (l : list jsval) : M (list jsval) :=
  match l with
  | [] => ret []
  | x :: l' =>
      y <- f x ;;
      ys <- map_M f l' ;;
      ret (y :: ys)
  end.

(** [v.map(f)]: a new array when [v] is an array; anything else has no
    callable [map]. *)
Definition js_map (f : jsval -> M jsval) (v : jsval) : M jsval :=
  o <- gets (fun s => match v with VRef l => heap s !! l | _ => None end) ;;
  match kind <$> o with
  | Some (KArray elems) =>
      vs <- map_M f elems ;;
      new (array vs)
  | _ => throw TypeError
  end.

(** [this.<prop>.author && this.<prop>.author.map(...)] *)
Definition authors_of (prop : element -> jsval) : M jsval :=
  root <- this_ prop ;;
  author <- get_prop root "author" ;;
  if truthy author then
    root <- this_ prop ;;
    author <- get_prop root "author" ;;
    js_map author_pair author
  else ret author.

(** [_getCellRows] is defined with the response handler it calls. *)

(** [_getWorksheet] *)
Definition _getWorksheet : M unit :=
  w <- this_ _worksheetId ;;
  if negb (wid_truthy w) then throw (Error "workesheetId was not given.")
  else
    t <- this_ tabId ;;
    set_url worksheetajax
      (SCOPE_ +:+ "/worksheets/" +:+ wid_string w +:+ "/private/full/" +:+ tab_string t) ;;
    generateRequest worksheetajax.

(** [_sheetChanged] *)
Definition _sheetChanged : M unit :=
  root <- this_ sheet ;;
  title <- get_prop root "title" ;;
  if negb (truthy title) then ret tt
  else
    authors <- authors_of sheet ;;
    t <- path2 sheet "title" "$t" ;;
    polymer_set sheet "title" t ;;
    u <- path2 sheet "updated" "$t" ;;
    d <- new (date u) ;;
    polymer_set sheet "updated" d ;;
    polymer_set sheet "authors" authors ;;
    id <- path2 sheet "id" "$t" ;;
    match id with
    | VStr s => update_this (with_worksheetId (Some (List.last (split_slash s) EmptyString)))
    | _ => throw TypeError
    end ;;
    _getWorksheet.

(** [_tabChanged] *)
Definition _tabChanged : M unit :=
  root <- this_ tab ;;
  title <- get_prop root "title" ;;
  if negb (truthy title) then ret tt
  else
    target <- this_ tab ;;
    authors <- authors_of tab ;;
    put_prop target "authors" authors ;;
    t <- path2 tab "title" "$t" ;;
    polymer_set tab "title" t ;;
    u <- path2 tab "updated" "$t" ;;
    d <- new (date u) ;;
    polymer_set tab "updated" d ;;
    polymer_set tab "authors" authors ;;
    data <- this_ tab ;;
    fire "google-sheet-data" "tab" data.

(** [this._setSheet(v)] and [this._setTab(v)]: Polymer assigns a read-only
    property and, when the value is not identical to the old one, runs the
    observer at once. *)
Definition _setSheet (v : jsval) : M unit :=
  old <- this_ sheet ;;
  if bool_decide (old = v) then ret tt
  else update_this (with_sheet v) ;; _sheetChanged.
Definition _setTab (v : jsval) : M unit :=
  old <- this_ tab ;;
  if bool_decide (old = v) then ret tt
  else update_this (with_tab v) ;; _tabChanged.

(** The caching step of [_onCellRows]:
    [var key = generateCacheKey_.call(this);
     if (!(key in rowDataCache_)) { rowDataCache_[key] = {response: {feed: feed}}; }]
    ([key in rowDataCache_] looks at inherited properties too, but no name of
    [Object.prototype] ends in an underscore and a number, as every key does.) *)
Definition cache_feed (feed : jsval) : M unit :=
  k <- generateCacheKey_ ;;
  cache <- gets rowDataCache_ ;;
  if bool_decide (is_Some (cache !! k)) then ret tt
  else
    inner <- new_object [("feed", feed)]%string ;;
    entry <- new_object [("response", inner)]%string ;;
    modify (fun s => set_cache (<[k := entry]> (rowDataCache_ s)) s).

(** The rest of [_onCellRows], from [this._setRows(feed.entry)] on. *)
Definition publish_rows (feed : jsval) : M unit :=
  entries <- get_prop feed "entry" ;;
  _setRows entries ;;
  author <- get_prop feed "author" ;;
  authors <- (if truthy author then
               author <- get_prop feed "author" ;;
               js_map author_pair author
             else ret author) ;;
  polymer_set rows "authors" authors ;;
  p <- this_ published ;;
  (if p then _setTab feed else ret tt) ;;
  data <- this_ rows ;;
  fire "google-sheet-data" "rows" data.

(** [_onCellRows] *)
Definition _onCellRows (e : jsevent) : M unit :=
  stopPropagation e ;;
  response <- target_lastResponse e ;;
  feed <- get_prop response "feed" ;;
  cache_feed feed ;;
  publish_rows feed.

(** [_getCellRows] *)
Definition _getCellRows : M unit :=
  k <- generateCacheKey_ ;;
  cache <- gets rowDataCache_ ;;
  if bool_decide (is_Some (cache !! k)) then
    _onCellRows EvNull
  else
    w <- this_ _worksheetId ;;
    t <- this_ tabId ;;
    set_url cellrowsajax
      (SCOPE_ +:+ "/list/" +:+ wid_string w +:+ "/" +:+ tab_string t +:+ "/private/full") ;;
    generateRequest cellrowsajax.

(** [_tabIdChanged] and [_configUpdate] *)
Definition _tabIdChanged : M unit :=
  w <- this_ _worksheetId ;;
  if wid_truthy w then _getCellRows
  else
    p <- this_ published ;;
    if p then _keyChanged else ret tt.

Definition _configUpdate : M unit := _tabIdChanged.

(** [_listSpreadsheets] *)
Definition _listSpreadsheets : M unit :=
  set_url listsheetsajax (SCOPE_ +:+ "/spreadsheets/private/full") ;;
  generateRequest listsheetsajax.

(** [_onSignInSuccess]; [access_token] is that of the response of
    [gapi.auth2]. *)
Definition _onSignInSuccess (access_token : string) : M unit :=
  let headers := [("Authorization", "Bearer " +:+ access_token)]%string in
  set_headers listsheetsajax headers ;;
  set_headers worksheetajax headers ;;
  set_headers cellrowsajax headers ;;
  _listSpreadsheets.

(** [_onSignInFail] only writes to the console. *)
Definition _onSignInFail : M unit := ret tt.

(** [href.indexOf(key) != -1]: a substring test on a string, a membership
    test on an array; nothing else has [indexOf]. *)
Definition indexOf_found (href : jsval) (k : string) : M bool :=
  match href with
  | VStr s => ret (contains k s)
  | VRef l =>
      o <- gets (fun s => heap s !! l) ;;
      match kind <$> o with
      | Some (KArray elems) => ret (bool_decide (VStr k ∈ elems))
      | _ => throw TypeError
      end
  | _ => throw TypeError
  end.

(** The loop of [_onSpreadsheetList]. *)
Fixpoint find_sheet (fuel : nat) (feed : jsval) (i : nat) : M unit :=
  match fuel with
  | O => ret tt
  | S fuel' =>
      entries <- get_prop feed "entry" ;;
      entry <- index entries i ;;
      if truthy entry then
        links <- get_prop entry "link" ;;
        altLink <- getLink_ "alternate" links ;;
        found <- (if truthy altLink then
                   href <- get_prop altLink "href" ;;
                   k <- this_ key ;;
                   indexOf_found href k
                 else ret false) ;;
        if found then _setSheet entry
        else find_sheet fuel' feed (S i)
      else ret tt
  end.

(** [_onSpreadsheetList] *)
Definition _onSpreadsheetList (e : jsevent) : M unit :=
  stopPropagation e ;;
  response <- target_lastResponse e ;;
  feed <- get_prop response "feed" ;;
  entries <- get_prop feed "entry" ;;
  _setSpreadsheets entries ;;
  data <- this_ spreadsheets ;;
  fire "google-sheet-data" "spreadsheets" data ;;
  k <- this_ key ;;
  if bool_decide (k = ""%string) then ret tt
  else
    n <- gets (fun s => index_bound (heap s) entries) ;;
    find_sheet (S n) feed 0.

(** [_onWorksheet] *)
Definition _onWorksheet (e : jsevent) : M unit :=
  stopPropagation e ;;
  response <- target_lastResponse e ;;
  entry <- get_prop response "entry" ;;
  _setTab entry ;;
  _getCellRows.

(** *** The element in its environment *)

(** What the page, the sign-in element and the network do to an element.  A
    property event stands for Polymer having assigned the property and
    running its observer; Polymer runs an observer only when the value
    assigned differs from the old one, so what a statement says a property
    event does is said of an event that changes the value.  A response event
    is the [response] event of the latest request of an [iron-ajax], whose
    [lastResponse] is the body just parsed. *)
Inductive event :=
| KeyChanged (k : string)
| TabIdChanged (n : Z)
| PublishedChanged (b : bool)
| ClientIdChanged (c : string)
| SignInSuccess (access_token : string)
| SignInFail
| Response (a : ajax_id) (body : json).

(** The [on-response] handler that the template binds to each [iron-ajax]. *)
Definition on_response (a : ajax_id) : jsevent -> M unit :=
  match a with
  | publicajax => _onCellRows
  | listsheetsajax => _onSpreadsheetList
  | worksheetajax => _onWorksheet
  | cellrowsajax => _onCellRows
  end.

Definition dispatch (ev : event) : M unit :=
  match ev with
  | KeyChanged k => update_this (with_key k) ;; _keyChanged
  | TabIdChanged n => update_this (with_tabId n) ;; _configUpdate
  | PublishedChanged b => update_this (with_published b) ;; _configUpdate
  | ClientIdChanged c => update_this (with_clientId c) ;; _configUpdate
  | SignInSuccess token => modify (add_log (SignedIn token)) ;; _onSignInSuccess token
  | SignInFail => _onSignInFail
  | Response a body =>
      modify (add_log (Delivered a)) ;;
      r <- (fun s => let '(v, h) := alloc_json body (heap s) in Ok v (set_heap h s)) ;;
      on_response a (EvResponse r)
  end.

(** A response can only be delivered for a request that is still open. *)
Definition is_request_on (a : ajax_id) (o : obs) : bool :=
  match o with
  | Requested r => bool_decide (req_ajax r = a)
  | _ => false
  end.
Definition is_response_on (a : ajax_id) (o : obs) : bool :=
  match o with
  | Delivered b => bool_decide (b = a)
  | _ => false
  end.
Definition requests_on (a : ajax_id) (l : list obs) : nat :=
  length (List.filter (is_request_on a) l).
Definition responses_on (a : ajax_id) (l : list obs) : nat :=
  length (List.filter (is_response_on a) l).

Definition enabled (ev : event) (s : state) : bool :=
  match ev with
  | Response a _ => bool_decide (responses_on a (log s) < requests_on a (log s))%nat
  | _ => true
  end.

(** One step of the event loop: the handler runs to its end or to an
    exception; the state it leaves is where the next event starts. *)
Definition step (ev : event) (s : state) : option state :=
  if enabled ev s then Some (final (dispatch ev s)) else None.

Fixpoint run (evs : list event) (s : state) : option state :=
  match evs with
  | [] => Some s
  | ev :: evs' =>
      match step ev s with
      | Some s' => run evs' s'
      | None => None
      end
  end.

(** A new element, as the [properties] block and [_worksheetId: null] set it
    up, with the [sheet], [tab], [rows] and [spreadsheets] objects that
    their [value] functions built at [l_sheet] ... in the heap. *)
Definition new_element (sheet tab rows spreadsheets : jsval) : element :=
  {| clientId := ""; key := ""; tabId := 1; published := false;
     sheet := sheet; tab := tab; rows := rows; spreadsheets := spreadsheets;
     _worksheetId := None;
     publicajax_ := {| url := ""; headers := [] |};
     listsheetsajax_ := {| url := ""; headers := [] |};
     worksheetajax_ := {| url := ""; headers := [] |};
     cellrowsajax_ := {| url := ""; headers := [] |} |}.

End Widget.

(** * Properties of the widget *)

Import JSNum JS Widget.
Local Open Scope js_scope.

(** ** Notions that the statements use *)

(** [inv J m]: the state that [m] leaves, whether it returns or throws,
    satisfies [J] when the state it started in did. *)
Definition inv {A} (J : state -> Prop) (m : M A) : Prop :=
  forall s, J s -> J (final (m s)).

(** Worksheet ids are alphanumeric. *)
Definition is_alnum (c : ascii) : bool :=
  let n := code c in
  ((48 <=? n) && (n <=? 57)) || ((97 <=? n) && (n <=? 122)) || ((65 <=? n) && (n <=? 90)).

Fixpoint alphanumeric (s : string) : bool :=
  match s with
  | String c s' => is_alnum c && alphanumeric s'
  | EmptyString => true
  end.

(** The entry that the caching step stores for [feed]: [{response: {feed: feed}}]. *)
Definition cache_entry_at (h : JS.heap) (e feed : jsval) : Prop :=
  exists l l', e = VRef l /\
    h !! l = Some (plain {["response"%string := VRef l']}) /\
    h !! l' = Some (plain {["feed"%string := feed]}).

(** The entry as the claim has it: [{feed: feed}]. *)
Definition feed_entry_at (h : JS.heap) (e feed : jsval) : Prop :=
  exists l, e = VRef l /\ h !! l = Some (plain {["feed"%string := feed]}).

(** The four requests of the widget. *)
Definition public_request (k : string) (t : Z) (hs : list (string * string)) : request :=
  {| req_ajax := publicajax; req_method := "GET";
     req_url := SCOPE_ +:+ "/list/" +:+ k +:+ "/" +:+ tab_string t +:+ "/public/values";
     req_params := [("alt", "json")]%string; req_headers := hs |}.

Definition rows_request (w : option string) (t : Z) (hs : list (string * string)) : request :=
  {| req_ajax := cellrowsajax; req_method := "GET";
     req_url := SCOPE_ +:+ "/list/" +:+ wid_string w +:+ "/" +:+ tab_string t +:+ "/private/full";
     req_params := [("alt", "json")]%string; req_headers := hs |}.

Definition worksheet_request (w : option string) (t : Z) (hs : list (string * string)) : request :=
  {| req_ajax := worksheetajax; req_method := "GET";
     req_url := SCOPE_ +:+ "/worksheets/" +:+ wid_string w +:+ "/private/full/" +:+ tab_string t;
     req_params := [("alt", "json")]%string; req_headers := hs |}.

Definition list_request (tok : string) : request :=
  {| req_ajax := listsheetsajax; req_method := "GET";
     req_url := SCOPE_ +:+ "/spreadsheets/private/full";
     req_params := [("alt", "json")]%string;
     req_headers := [("Authorization", "Bearer " +:+ tok)]%string |}.

(** ** Sample data *)

Local Open Scope string_scope.

Definition wrapped (s : string) : json := JObj [("$t", JStr s)].
Definition sample_author : json :=
  JObj [("name", wrapped "Ann"); ("email", wrapped "ann@example.org")].
Definition sample_entry : json :=
  JObj [("title", wrapped "Budget"); ("updated", wrapped "2015-03-01T10:00:00Z");
        ("author", JArr [sample_author]);
        ("id", wrapped "https://spreadsheets.google.com/feeds/spreadsheets/private/full/KEY1");
        ("link", JArr [JObj [("rel", JStr "self"); ("href", JStr "https://example.org/self")];
                       JObj [("rel", JStr "alternate");
                             ("href", JStr "https://docs.google.com/spreadsheets/d/KEY1/edit")]])].
Definition sample_list : json := JObj [("feed", JObj [("entry", JArr [sample_entry])])].
Definition sample_worksheet : json :=
  JObj [("entry", JObj [("title", wrapped "Sheet1"); ("updated", wrapped "2015-03-02T10:00:00Z");
                        ("author", JArr [sample_author])])].
Definition sample_rows : json :=
  JObj [("feed", JObj [("title", wrapped "Sheet1"); ("updated", wrapped "2015-03-02T10:00:00Z");
                       ("entry", JArr [JObj [("gsx$a", wrapped "1")]]);
                       ("author", JArr [sample_author])])].

(** A page with one new element: [{}] for [sheet] and [tab], [[]] for [rows]
    and [spreadsheets], an empty cache. *)
Definition fresh_state : state :=
  {| heap := [plain ∅; plain ∅; array []; array []];
     rowDataCache_ := ∅;
     this := new_element (VRef 0%nat) (VRef 1%nat) (VRef 2%nat) (VRef 3%nat);
     log := [] |}.

(** The private flow up to the first row feed. *)
Definition private_scenario : list event :=
  [KeyChanged "KEY1"; SignInSuccess "tok"; Response listsheetsajax sample_list;
   Response worksheetajax sample_worksheet; Response cellrowsajax sample_rows].

Definition rows_events (l : list obs) : nat :=
  length (List.filter (fun o => match o with
                                | Fired _ t _ => bool_decide (t = "rows")
                                | _ => false
                                end) l).

Local Close Scope string_scope.

(** ** The order of the private flow *)

(** A request is in order after the trace [before] when: it is not a public request; a list request comes right
    after a sign-in success and is the request of that sign-in; a worksheet
    request comes after the response to a list request; a row request comes
    after a worksheet request.  A response is in order when a request on its
    [iron-ajax] precedes it. *)
Definition request_in_order (before : list obs) (r : request) : Prop :=
  match req_ajax r with
  | publicajax => False
  | listsheetsajax => exists tok, last before = Some (SignedIn tok) /\ r = list_request tok
  | worksheetajax => Delivered listsheetsajax ∈ before
  | cellrowsajax => exists r', Requested r' ∈ before /\ req_ajax r' = worksheetajax
  end.

Definition in_order (before : list obs) (o : obs) : Prop :=
  match o with
  | Requested r => request_in_order before r
  | Delivered a => exists r, Requested r ∈ before /\ req_ajax r = a
  | _ => True
  end.

Definition sequenced (l : list obs) : Prop :=
  forall n o, l !! n = Some o -> in_order (take n l) o.

(** What may be appended anywhere later: everything but a list request. *)
Definition movable (o : obs) : Prop :=
  match o with
  | Requested r => req_ajax r <> listsheetsajax
  | _ => True
  end.

(** The trace grew from [l0] by observations in [A]. *)
Definition emits (l0 : list obs) (A : obs -> Prop) (s : state) : Prop :=
  exists ext, log s = l0 ++ ext /\ Forall A ext.

Definition is_fired (o : obs) : Prop :=
  match o with Fired _ _ _ => True | _ => False end.
Definition fired_or_request (a : ajax_id) (o : obs) : Prop :=
  match o with
  | Fired _ _ _ => True
  | Requested r => req_ajax r = a
  | _ => False
  end.

Definition worksheet_requested (s : state) : Prop :=
  wid_truthy (_worksheetId (this s)) = true ->
  exists r, Requested r ∈ log s /\ req_ajax r = worksheetajax.

(** ** Shapes of data on the heap *)

(** [v] is an object that has the property [name], with value [x]. *)
Definition has_field (h : JS.heap) (v : jsval) (name : string) (x : jsval) : Prop :=
  exists l o, v = VRef l /\ h !! l = Some o /\ props o !! name = Some x.

(** [v.name] is a wrapper [{$t: x}]. *)
Definition wrapped_field (h : JS.heap) (v : jsval) (name : string) (x : jsval) : Prop :=
  exists m, has_field h v name m /\ has_field h m "$t" x.

(** An author of a feed, with wrapped [email] and [name]. *)
Definition author_entry (h : JS.heap) (a : jsval) (p : jsval * jsval) : Prop :=
  wrapped_field h a "email" p.1 /\ wrapped_field h a "name" p.2.

(** [v] is an array of authors, in the order of [ps]. *)
Definition author_list (h : JS.heap) (v : jsval) (ps : list (jsval * jsval)) : Prop :=
  exists l o elems, v = VRef l /\ h !! l = Some o /\ kind o = KArray elems /\
    Forall2 (author_entry h) elems ps.

(** [v] is the object [{email: e, name: n}]. *)
Definition pair_object (h : JS.heap) (v : jsval) (p : jsval * jsval) : Prop :=
  exists l, v = VRef l /\
    h !! l = Some (plain (<["email"%string := p.1]> (<["name"%string := p.2]> ∅))).

(** [v] is an array of such objects, in the order of [ps]. *)
Definition pair_list (h : JS.heap) (v : jsval) (ps : list (jsval * jsval)) : Prop :=
  exists l elems, v = VRef l /\ h !! l = Some (array elems) /\
    Forall2 (pair_object h) elems ps.

(** [v] is the [Date] built from [u]. *)
Definition date_of (h : JS.heap) (v u : jsval) : Prop :=
  exists l, v = VRef l /\ h !! l = Some (date u).

(** [h'] extends [h] and differs from it on old objects at most at [l0]. *)
Definition frame (l0 : loc) (h h' : JS.heap) : Prop :=
  forall l o, l <> l0 -> h !! l = Some o -> h' !! l = Some o.

(** [pair_list], with every object of it at a location from [n] on. *)
Definition pair_object_above (n : nat) (h : JS.heap) (v : jsval) (p : jsval * jsval) : Prop :=
  exists l, v = VRef l /\ (n <= l)%nat /\
    h !! l = Some (plain (<["email"%string := p.1]> (<["name"%string := p.2]> ∅))).
Definition pair_list_above (n : nat) (h : JS.heap) (v : jsval) (ps : list (jsval * jsval)) : Prop :=
  exists l elems, v = VRef l /\ (n <= l)%nat /\ h !! l = Some (array elems) /\
    Forall2 (pair_object_above n h) elems ps.

(** What [_sheetChanged] does after the projection. *)
Definition resolve_worksheet : M unit :=
  id <- path2 sheet "id" "$t" ;;
  match id with
  | VStr s => update_this (with_worksheetId (Some (List.last (split_slash s) EmptyString)))
  | _ => throw TypeError
  end ;;
  _getWorksheet.

(** A well-formed tab: wrapped title and timestamp, a list of authors. *)
Definition tab_data (h : JS.heap) (v : jsval) (t u : jsval) (ps : list (jsval * jsval)) : Prop :=
  wrapped_field h v "title" t /\ wrapped_field h v "updated" u /\
  exists av, has_field h v "author" av /\ author_list h av ps.

(** The same after projection. *)
Definition projected (h : JS.heap) (v : jsval) (t u : jsval) (ps : list (jsval * jsval)) : Prop :=
  has_field h v "title" t /\
  (exists d, has_field h v "updated" d /\ date_of h d u) /\
  (exists va, has_field h v "authors" va /\ pair_list h va ps).

(** A state in which [sheet] is the entry of the sample list feed. *)
Definition sample_sheet_state : state :=
  let vh := alloc_json sample_entry (heap fresh_state) in
  set_this (with_sheet vh.1 (this fresh_state)) (set_heap vh.2 fresh_state).

(** [getLink_('alternate', entry.link)] finds a link whose [href] contains
    the key [k]; or it finds none, or one whose [href] does not. *)
Definition links_to (s : state) (entry : jsval) (k : string) : Prop :=
  exists links alt href,
    has_field (heap s) entry "link" links /\
    getLink_ "alternate" links s = Ok alt s /\
    has_field (heap s) alt "href" (VStr href) /\ contains k href = true.

Definition links_elsewhere (s : state) (entry : jsval) (k : string) : Prop :=
  exists links alt,
    has_field (heap s) entry "link" links /\
    getLink_ "alternate" links s = Ok alt s /\
    (truthy alt = false \/
     exists href, has_field (heap s) alt "href" (VStr href) /\ contains k href = false).

(** A computation that only reads the heap. *)
Definition reads_heap {A} (m : M A) : Prop :=
  forall s s', heap s = heap s' ->
    match m s with
    | Ok v s1 => s1 = s /\ m s' = Ok v s'
    | Throw e s1 => s1 = s /\ m s' = Throw e s'
    end.

(** ** States of the sample run *)

Local Open Scope string_scope.

(** States of the sample run, each with the body of the response that is about
    to be handled on the heap. *)
Definition await (evs : list event) (a : ajax_id) (body : json) (s0 : state) : state :=
  let s := default s0 (run evs s0) in
  set_heap (alloc_json body (heap s)).2 (add_log (Delivered a) s).

Definition list_state : state := Eval vm_compute in
  await [KeyChanged "KEY1"; SignInSuccess "tok"] listsheetsajax sample_list fresh_state.
Definition worksheet_state : state := Eval vm_compute in
  await [KeyChanged "KEY1"; SignInSuccess "tok"; Response listsheetsajax sample_list]
    worksheetajax sample_worksheet fresh_state.
Definition public_state : state := Eval vm_compute in
  await [KeyChanged "KEY1"] publicajax sample_rows
    (set_this (with_published true (this fresh_state)) fresh_state).

Definition sample_authors : list (jsval * jsval) := [(VStr "ann@example.org", VStr "Ann")].

Local Close Scope string_scope.

(** ** Notions and sample states of the further properties *)


(** Lower case of the letters A-Z, as [String.prototype.toLowerCase] has it on
    them. *)
Definition lower_char (c : ascii) : ascii :=
  let n := code c in
  if (65 <=? n) && (n <=? 90) then ascii_of_N (Z.to_N (n + 32)) else c.

Fixpoint lower (s : string) : string :=
  match s with
  | String c s' => String (lower_char c) (lower s')
  | EmptyString => EmptyString
  end.


(** The state in which [_onSpreadsheetList] starts its scan: the list is
    published and the event fired. *)
Definition list_published (entries : jsval) (s : state) : state :=
  add_log (Fired "google-sheet-data" "spreadsheets" entries)
    (set_this (with_spreadsheets entries (this s)) s).

Local Open Scope string_scope.

(** Sample states with a list response about to be handled: without a key,
    with a key that no entry links to, and with responses that lack the
    feed, the entries, or the links of an entry. *)
Definition listmode_state : state := Eval vm_compute in
  await [SignInSuccess "tok"] listsheetsajax sample_list fresh_state.
Definition otherkey_state : state := Eval vm_compute in
  await [KeyChanged "OTHER"; SignInSuccess "tok"] listsheetsajax sample_list fresh_state.
Definition nofeed_state : state := Eval vm_compute in
  await [KeyChanged "KEY1"; SignInSuccess "tok"] listsheetsajax (JObj []) fresh_state.
Definition noentry_state : state := Eval vm_compute in
  await [KeyChanged "KEY1"; SignInSuccess "tok"] listsheetsajax
    (JObj [("feed", JObj [])]) fresh_state.
Definition nolink_state : state := Eval vm_compute in
  await [KeyChanged "KEY1"; SignInSuccess "tok"] listsheetsajax
    (JObj [("feed", JObj [("entry", JArr [JObj []])])]) fresh_state.

(** The sample run with the row feed about to be handled. *)
Definition rows_state : state := Eval vm_compute in
  await [KeyChanged "KEY1"; SignInSuccess "tok"; Response listsheetsajax sample_list;
         Response worksheetajax sample_worksheet]
    cellrowsajax sample_rows fresh_state.
(** The same with a row response that has no feed, and with the feed of an
    empty sheet. *)
Definition norows_state : state := Eval vm_compute in
  await [KeyChanged "KEY1"; SignInSuccess "tok"; Response listsheetsajax sample_list;
         Response worksheetajax sample_worksheet]
    cellrowsajax (JObj []) fresh_state.
Definition emptyrows_state : state := Eval vm_compute in
  await [KeyChanged "KEY1"; SignInSuccess "tok"; Response listsheetsajax sample_list;
         Response worksheetajax sample_worksheet]
    cellrowsajax (JObj [("feed", JObj [])]) fresh_state.
(** The sample run with a worksheet response that has no entry, and one whose
    entry has no title. *)
Definition noworksheet_state : state := Eval vm_compute in
  await [KeyChanged "KEY1"; SignInSuccess "tok"; Response listsheetsajax sample_list]
    worksheetajax (JObj []) fresh_state.
Definition notitle_state : state := Eval vm_compute in
  await [KeyChanged "KEY1"; SignInSuccess "tok"; Response listsheetsajax sample_list]
    worksheetajax (JObj [("entry", JObj [])]) fresh_state.

Local Close Scope string_scope.


(** A string without a slash. *)
Fixpoint no_slash (s : string) : bool :=
  match s with
  | String c s' => negb (bool_decide (c = "/"%char)) && no_slash s'
  | EmptyString => true
  end.

Local Open Scope string_scope.

(** A state whose sheet has a feed id that ends in a slash. *)
Definition slash_sheet_state : state :=
  let vh := alloc_json
              (JObj [("title", wrapped "Budget"); ("updated", wrapped "2015-03-01T10:00:00Z");
                     ("author", JArr [sample_author]);
                     ("id", wrapped "https://example.org/feeds/")])
              (heap fresh_state) in
  set_this (with_sheet vh.1 (this fresh_state)) (set_heap vh.2 fresh_state).
(** The sample run after the worksheet was resolved and the rows of tab 1
    were fetched. *)
Definition resolved_state : state := Eval vm_compute in
  default fresh_state (run private_scenario fresh_state).

Local Close Scope string_scope.


(** The header that [_onSignInSuccess] builds from an access token. *)
Definition bearer (tok : string) : list (string * string) :=
  [("Authorization", "Bearer " +:+ tok)]%string.

Definition is_signin (ev : event) : bool :=
  match ev with
  | SignInSuccess _ => true
  | _ => false
  end.

(** A request carries the headers [pub] when it is sent on [publicajax] and
    the headers [priv] when it is sent on one of the other three. *)
Definition carries (pub priv : list (string * string)) (o : obs) : Prop :=
  match o with
  | Requested r => req_headers r = if decide (req_ajax r = publicajax) then pub else priv
  | _ => True
  end.

(** The headers that the four [iron-ajax] elements hold. *)
Definition headers_are (pub priv : list (string * string)) (s : state) : Prop :=
  forall a, headers (get_ajax a (this s)) = if decide (a = publicajax) then pub else priv.


(** The order of the private requests in a trace that may hold public
    requests too: a public request may come at any time; everything else is
    in order as in the private flow. *)
Definition private_order (before : list obs) (o : obs) : Prop :=
  match o with
  | Requested r => req_ajax r = publicajax \/ request_in_order before r
  | _ => in_order before o
  end.

Definition ordered (l : list obs) : Prop :=
  forall n o, l !! n = Some o -> private_order (take n l) o.

Local Open Scope string_scope.

(** A run in which the element is published after the private flow has
    resolved the worksheet, fetches the public feed, and then changes tab. *)
Definition published_run : list event :=
  [KeyChanged "KEY1"; SignInSuccess "tok"; Response listsheetsajax sample_list;
   PublishedChanged true; KeyChanged "KEY2"; Response publicajax sample_rows;
   Response worksheetajax sample_worksheet; TabIdChanged 2].
Definition published_run_state : state := Eval vm_compute in
  default fresh_state (run published_run fresh_state).

(** A state whose sheet has a title and an author but no timestamp. *)
Definition undated_sheet_state : state :=
  let vh := alloc_json (JObj [("title", wrapped "Budget"); ("author", JArr [sample_author])])
              (heap fresh_state) in
  set_this (with_sheet vh.1 (this fresh_state)) (set_heap vh.2 fresh_state).
(** A state whose tab has a title and a timestamp but no author. *)
Definition anonymous_tab_state : state :=
  let vh := alloc_json (JObj [("title", wrapped "Sheet1");
                              ("updated", wrapped "2015-03-02T10:00:00Z")])
              (heap fresh_state) in
  set_this (with_tab vh.1 (this fresh_state)) (set_heap vh.2 fresh_state).

Local Close Scope string_scope.


(** The number of requests in a trace. *)
Definition is_request (o : obs) : bool :=
  match o with
  | Requested _ => true
  | _ => false
  end.

Definition sent (l : list obs) : nat := length (List.filter is_request l).

(** The trace grew from [l0], by at most [c] requests. *)
Definition sent_since (l0 : list obs) (c : nat) (s : state) : Prop :=
  exists ext, log s = l0 ++ ext /\ (sent ext <= c)%nat.

(** The request that [generateRequest] sends on an [iron-ajax] of an element
    whose url is up to date with its key, tab id and worksheet id. *)
Definition url_of (a : ajax_id) (e : element) : string :=
  match a with
  | publicajax =>
      SCOPE_ +:+ "/list/" +:+ key e +:+ "/" +:+ tab_string (tabId e) +:+ "/public/values"
  | listsheetsajax => SCOPE_ +:+ "/spreadsheets/private/full"
  | worksheetajax =>
      SCOPE_ +:+ "/worksheets/" +:+ wid_string (_worksheetId e) +:+ "/private/full/" +:+
      tab_string (tabId e)
  | cellrowsajax =>
      SCOPE_ +:+ "/list/" +:+ wid_string (_worksheetId e) +:+ "/" +:+ tab_string (tabId e) +:+
      "/private/full"
  end.

Definition request_of (a : ajax_id) (e : element) : request :=
  {| req_ajax := a; req_method := "GET"; req_url := url_of a e;
     req_params := [("alt", "json")]%string; req_headers := headers (get_ajax a e) |}.

(** The trace grew from [l0], by at most one request, which is the one of
    the element as it is now. *)
Definition sent_current (l0 : list obs) (s : state) : Prop :=
  exists ext, log s = l0 ++ ext /\ (sent ext <= 1)%nat /\
    forall r, Requested r ∈ ext -> r = request_of (req_ajax r) (this s).

(** [m] takes a state in [P] to a state in [Q], whether it returns or
    throws. *)
Definition hoare {A} (P Q : state -> Prop) (m : M A) : Prop :=
  forall s, P s -> Q (final (m s)).


(** A value that is not a reference to one of the first [n] objects. *)
Definition fresh (n : nat) (v : jsval) : Prop :=
  match v with
  | VRef l => (n <= l)%nat
  | _ => True
  end.

(** An object that holds no reference to one of the first [n] objects. *)
Definition closed_obj (n : nat) (o : jsobj) : Prop :=
  (forall name v, props o !! name = Some v -> fresh n v) /\
  match kind o with
  | KObject => True
  | KArray elems => Forall (fresh n) elems
  | KDate arg => fresh n arg
  end.

(** [h'] has the objects of [h] as they are, but for those in [W]. *)
Definition frame_on (W : loc -> Prop) (h h' : JS.heap) : Prop :=
  forall l o, ~ W l -> h !! l = Some o -> h' !! l = Some o.

(** The two loops of [alloc_json], by name. *)
Definition alloc_items : list json -> JS.heap -> list jsval * JS.heap :=
  fix go (items : list json) (h : JS.heap) : list jsval * JS.heap :=
    match items with
    | [] => ([], h)
    | j :: items' =>
        let '(v, h1) := alloc_json j h in
        let '(vs, h2) := go items' h1 in
        (v :: vs, h2)
    end.

Definition alloc_members
    : list (string * json) -> gmap string jsval -> JS.heap -> gmap string jsval * JS.heap :=
  fix go (members : list (string * json)) (ps : gmap string jsval) (h : JS.heap)
      : gmap string jsval * JS.heap :=
    match members with
    | [] => (ps, h)
    | (k, j) :: members' =>
        let '(v, h1) := alloc_json j h in
        go members' (<[k := v]> ps) h1
    end.

(** The events of the network, as opposed to those of the page. *)
Definition is_response (ev : event) : bool :=
  match ev with
  | Response _ _ => true
  | _ => false
  end.

(** The objects of a response that its handler may write: the entries of the
    list, the entry of the worksheet, the row feed and the array of its
    entries. *)
Definition written (a : ajax_id) (h : JS.heap) (r : jsval) (l : loc) : Prop :=
  match a with
  | listsheetsajax =>
      exists feed entries j, js_get h r "feed" = Some feed /\
        js_get h feed "entry" = Some entries /\ js_index h entries j = Some (VRef l)
  | worksheetajax => js_get h r "entry" = Some (VRef l)
  | _ =>
      exists feed, js_get h r "feed" = Some feed /\
        (feed = VRef l \/ js_get h feed "entry" = Some (VRef l))
  end.


(** The element once Polymer has assigned the property that an event of the
    page changes. *)
Definition assigned (ev : event) (e : element) : element :=
  match ev with
  | KeyChanged k => with_key k e
  | TabIdChanged n => with_tabId n e
  | PublishedChanged b => with_published b e
  | ClientIdChanged c => with_clientId c e
  | _ => e
  end.

(** An event of the page changes the value of its property; the outcome of
    a sign-in changes none. *)
Definition changes (ev : event) (e : element) : bool :=
  match ev with
  | KeyChanged k => negb (bool_decide (k = key e))
  | TabIdChanged n => negb (bool_decide (n = tabId e))
  | PublishedChanged b => negb (bool_decide (b = published e))
  | ClientIdChanged c => negb (bool_decide (c = clientId e))
  | _ => true
  end.

(** The events that run [_configUpdate]. *)
Definition is_config (ev : event) : bool :=
  match ev with
  | TabIdChanged _ | PublishedChanged _ | ClientIdChanged _ => true
  | _ => false
  end.

(** The properties that the page sets, and those that the element reports. *)
Definition settings (e : element) : string * Z * bool * string :=
  (key e, tabId e, published e, clientId e).

Definition resolved (e : element) : jsval * jsval * option string :=
  (sheet e, spreadsheets e, _worksheetId e).


(** The events that the element fired with [this.fire], as a trace records
    them: type, [detail.type] and [detail.data]. *)
Definition fired_of (o : obs) : list (string * string * jsval) :=
  match o with
  | Fired t d v => [(t, d, v)]
  | _ => []
  end.

Definition fired (l : list obs) : list (string * string * jsval) := flat_map fired_of l.

Definition data_event (d : string) (v : jsval) : string * string * jsval :=
  ("google-sheet-data"%string, d, v).

(** What the handler of an event may fire with [this.fire], given the element
    it leaves. *)
Definition may_fire (ev : event) (e : element) : list (string * string * jsval) :=
  match ev with
  | Response listsheetsajax _ => [data_event "spreadsheets" (spreadsheets e)]
  | Response worksheetajax _ => [data_event "tab" (tab e)]
  | Response _ _ => [data_event "tab" (tab e); data_event "rows" (rows e)]
  | _ => []
  end.

(** The trace grew from [l0], and what was fired since is among [A]. *)
Definition fired_since (l0 : list obs) (A : element -> list (string * string * jsval))
    (s : state) : Prop :=
  exists ext, log s = l0 ++ ext /\ fired ext `sublist_of` A (this s).

(** * Proofs *)

(** ** The codec *)

(** *** Digits and their characters *)

Lemma small_cases (P : Z -> Prop) (n : nat) :
  (forall k : nat, (k < n)%nat -> P (Z.of_nat k)) -> forall d, 0 <= d < Z.of_nat n -> P d.
Proof.
  intros H d Hd. rewrite <- (Z2Nat.id d) by lia. apply H. lia.
Qed.

Lemma digit_char_facts d :
  0 <= d < 36 ->
  digit_value (digit_char d) = Some d /\
  is_white (digit_char d) = false /\
  is_lower_digit (digit_char d) = true /\
  digit_char d <> "-"%char /\ digit_char d <> "+"%char.
Proof.
  revert d. apply (small_cases _ 36). intros k Hk.
  do 36 (destruct k as [|k]; [vm_compute; repeat split; discriminate|]). lia.
Qed.

Lemma decimal_char_facts d :
  0 <= d < 10 -> digit_char d <> "x"%char /\ digit_char d <> "X"%char.
Proof.
  revert d. apply (small_cases _ 10). intros k Hk.
  do 10 (destruct k as [|k]; [vm_compute; split; discriminate|]). lia.
Qed.

Lemma lower_digit_facts c :
  is_lower_digit c = true ->
  exists d, 0 <= d < 36 /\ digit_value c = Some d /\ digit_char d = c.
Proof.
  intros H. exists (default 0 (digit_value c)). revert H.
  destruct c as [[] [] [] [] [] [] [] []]; intros H; vm_compute in H; try discriminate H;
    (split; [vm_compute; split; [discriminate|reflexivity] | split; vm_compute; reflexivity]).
Qed.

(** *** Printing a number and reading it back *)

Lemma digits_value_step r ds : digits_value r ds = fold_left (digit_step r) ds 0.
Proof. reflexivity. Qed.

Lemma digits_of_read r fuel : 
  2 <= r -> forall n acc, 0 <= n < 2 ^ Z.of_nat fuel ->
  fold_left (digit_step r) (digits_of fuel r n acc) 0 = fold_left (digit_step r) acc n.
Proof.
  intros Hr. induction fuel as [|fuel IH]; intros n acc Hn.
  - simpl in *. assert (n = 0) by lia. subst. reflexivity.
  - cbn [digits_of]. rewrite Nat2Z.inj_succ, Z.pow_succ_r in Hn by lia.
    pose proof (Z.div_mod n r ltac:(lia)) as Hdm.
    pose proof (Z.mod_pos_bound n r ltac:(lia)) as Hm.
    assert (0 <= n / r) by (apply Z.div_pos; lia).
    destruct (Z.eqb_spec (n / r) 0) as [H0|H0].
    + cbn [fold_left]. unfold digit_step at 2. f_equal. lia.
    + rewrite IH.
      * cbn [fold_left]. unfold digit_step at 2. f_equal. lia.
      * split; [lia|]. apply Z.div_lt_upper_bound; [lia|]. nia.
Qed.

Lemma fuel_enough n : 0 <= n -> n < 2 ^ Z.of_nat (digits_fuel n).
Proof.
  intros Hn. unfold digits_fuel. rewrite Nat2Z.inj_succ, Z2Nat.id by apply Z.log2_nonneg.
  destruct (Z.eq_dec n 0) as [->|]; [reflexivity|].
  apply Z.log2_spec. lia.
Qed.

Lemma digits_of_range r fuel :
  2 <= r -> forall n acc, 0 <= n ->
  Forall (fun d => 0 <= d < r) acc -> Forall (fun d => 0 <= d < r) (digits_of fuel r n acc).
Proof.
  intros Hr. induction fuel as [|fuel IH]; intros n acc Hn Hacc; [exact Hacc|].
  cbn [digits_of].
  assert (Forall (fun d => 0 <= d < r) (n mod r :: acc)).
  { constructor; [apply Z.mod_pos_bound; lia | exact Hacc]. }
  destruct (n / r =? 0); [assumption|]. apply IH; [apply Z.div_pos; lia | assumption].
Qed.

Lemma digits_of_acc_nonempty r fuel : forall n acc, acc <> [] -> digits_of fuel r n acc <> [].
Proof.
  induction fuel as [|fuel IH]; intros n acc Hacc; [exact Hacc|].
  cbn [digits_of]. cbv zeta. destruct (n / r =? 0); [done|]. by apply IH.
Qed.

Lemma digits_of_nonempty r fuel n : digits_of (S fuel) r n [] <> [].
Proof.
  cbn [digits_of]. cbv zeta. destruct (n / r =? 0); [done|].
  by apply digits_of_acc_nonempty.
Qed.

Lemma digit_prefix_string r ds :
  r <= 36 -> Forall (fun d => 0 <= d < r) ds -> digit_prefix r (string_of_digits ds) = ds.
Proof.
  intros Hr. induction 1 as [|d ds Hd _ IH]; [reflexivity|].
  cbn [string_of_digits fold_right digit_prefix].
  destruct (digit_char_facts d ltac:(lia)) as [-> _].
  destruct (Z.ltb_spec d r); [|lia]. f_equal. exact IH.
Qed.

(** A printed numeral starts with a digit: nothing for [parseInt] to skip. *)
Lemma numeral_plain r ds :
  r <= 36 -> ds <> [] -> Forall (fun d => 0 <= d < r) ds ->
  strip_sign (skip_white (string_of_digits ds)) = (1, string_of_digits ds).
Proof.
  intros Hr Hne Hds. destruct Hds as [|d ds Hd Hds]; [done|]. 
  cbn [string_of_digits fold_right skip_white].
  destruct (digit_char_facts d ltac:(lia)) as (_ & -> & _ & Hm & Hp).
  unfold strip_sign.
  destruct (digit_char d) as [[] [] [] [] [] [] [] []]; try reflexivity; congruence.
Qed.

Lemma decimal_no_0x ds :
  Forall (fun d => 0 <= d < 10) ds -> strip_0x (string_of_digits ds) = None.
Proof.
  intros Hds. destruct Hds as [|d ds Hd Hds]; [reflexivity|].
  destruct Hds as [|d' ds Hd' Hds].
  - cbn. destruct (digit_char d) as [[] [] [] [] [] [] [] []]; reflexivity.
  - cbn [string_of_digits fold_right].
    destruct (decimal_char_facts d' Hd') as [Hx HX].
    unfold strip_0x.
    destruct (digit_char d) as [[] [] [] [] [] [] [] []]; try reflexivity;
    destruct (digit_char d') as [[] [] [] [] [] [] [] []]; try reflexivity; congruence.
Qed.

Lemma numeral_facts r n :
  2 <= r <= 36 -> 0 <= n ->
  let ds := digits_of (digits_fuel n) r n [] in
  numeral r n = string_of_digits ds /\ ds <> [] /\
  Forall (fun d => 0 <= d < r) ds /\ digits_value r ds = n.
Proof.
  intros Hr Hn ds. split; [reflexivity|]. split; [apply digits_of_nonempty|].
  split; [apply digits_of_range; [lia|lia|constructor]|].
  rewrite digits_value_step. subst ds. rewrite digits_of_read; [reflexivity|lia|].
  split; [lia|apply fuel_enough; lia].
Qed.

(** [parseInt] reads back what [toString] printed. *)
Lemma parseInt_numeral r n :
  2 <= r <= 36 -> r <> 16 -> 0 <= n -> parseInt (numeral r n) r = Num n.
Proof.
  intros Hr H16 Hn. destruct (numeral_facts r n Hr Hn) as (Hs & Hne & Hds & Hv).
  unfold parseInt. rewrite Hs, (numeral_plain r) by (lia || assumption).
  destruct (Z.eqb_spec r 0); [lia|]. destruct (Z.eqb_spec r 16); [lia|]. cbn [orb].
  destruct (Z.ltb_spec r 2); [lia|]. destruct (Z.ltb_spec 36 r); [lia|]. cbn [orb].
  rewrite digit_prefix_string by (lia || assumption).
  destruct (digits_of (digits_fuel n) r n []); [done|]. rewrite Hv. f_equal. lia.
Qed.

Lemma parseInt_decimal n : 0 <= n -> parseInt (numeral 10 n) 0 = Num n.
Proof.
  intros Hn. destruct (numeral_facts 10 n ltac:(lia) Hn) as (Hs & Hne & Hds & Hv).
  unfold parseInt. rewrite Hs, (numeral_plain 10) by (lia || assumption).
  cbn [Z.eqb orb]. rewrite decimal_no_0x by assumption.
  rewrite digit_prefix_string by (lia || assumption).
  destruct (digits_of (digits_fuel n) 10 n []); [done|]. rewrite Hv. f_equal. lia.
Qed.

Lemma parseInt_toString_decimal z : parseInt (js_toString (Num z) 10) 0 = Num z.
Proof.
  unfold js_toString. destruct (Z.ltb_spec z 0) as [Hz|Hz]; [|by apply parseInt_decimal].
  destruct (numeral_facts 10 (- z) ltac:(lia) ltac:(lia)) as (Hs & Hne & Hds & Hv).
  pose proof (numeral_plain 10 _ ltac:(lia) Hne Hds) as Hplain.
  rewrite <- Hs in Hplain.
  assert (Hskip : skip_white (numeral 10 (- z)) = numeral 10 (- z)).
  { rewrite Hs. destruct Hds as [|d ds Hd Hds]; [done|]. cbn [string_of_digits fold_right skip_white].
    by destruct (digit_char_facts d ltac:(lia)) as (_ & -> & _). }
  unfold parseInt. cbn [skip_white is_white]. 
  change (is_white "-") with false. cbn [strip_sign].
  cbn [Z.eqb orb]. rewrite Hs, decimal_no_0x by assumption.
  rewrite digit_prefix_string by (lia || assumption).
  destruct (digits_of (digits_fuel (- z)) 10 (- z) []); [done|]. rewrite Hv. f_equal. lia.
Qed.

(** *** Reading a canonical id and printing it back *)

Lemma fold_step_mono r ds : forall a, 1 <= r -> 0 <= a ->
  Forall (fun d => 0 <= d) ds -> a <= fold_left (digit_step r) ds a.
Proof.
  induction ds as [|d ds IH]; intros a Hr Ha Hds; [simpl; lia|].
  inversion Hds; subst. cbn [fold_left]. 
  etrans; [|apply IH; [lia| unfold digit_step; nia |assumption]]. unfold digit_step. nia.
Qed.

Lemma digits_of_app r fuel : forall n acc,
  digits_of fuel r n acc = digits_of fuel r n [] ++ acc.
Proof.
  induction fuel as [|fuel IH]; intros n acc; [reflexivity|].
  cbn [digits_of]. cbv zeta. destruct (n / r =? 0); [reflexivity|].
  rewrite IH, (IH _ [_]), <- app_assoc. reflexivity.
Qed.

Lemma digits_value_snoc r ds d :
  digits_value r (ds ++ [d]) = digits_value r ds * r + d.
Proof. unfold digits_value. by rewrite fold_left_app. Qed.

Lemma digits_value_nonneg r ds :
  1 <= r -> Forall (fun d => 0 <= d < r) ds -> 0 <= digits_value r ds.
Proof.
  intros Hr Hds. apply (fold_step_mono r ds 0); [lia|lia|].
  eapply Forall_impl; [exact Hds|]. simpl; lia.
Qed.

Lemma digits_value_lead r d ds :
  1 <= r -> Forall (fun d => 0 <= d < r) (d :: ds) -> d <= digits_value r (d :: ds).
Proof.
  intros Hr Hds. inversion Hds; subst.
  unfold digits_value. cbn [fold_left]. change (digit_step r 0 d) with (0 * r + d).
  etrans; [|apply (fold_step_mono r ds); [lia|lia|]]; [lia|].
  eapply Forall_impl; [eassumption|]. simpl; lia.
Qed.

(** A digit sequence without a leading zero is the one that printing its
    value yields. *)
Lemma digits_of_canonical r ds :
  2 <= r -> Forall (fun d => 0 <= d < r) ds -> ds <> [] ->
  (head ds <> Some 0 \/ ds = [0]) ->
  forall fuel, digits_value r ds < 2 ^ Z.of_nat (S fuel) ->
  digits_of (S fuel) r (digits_value r ds) [] = ds.
Proof.
  intros Hr. induction ds as [|d ds IH] using rev_ind; intros Hds Hne Hlead fuel Hfuel; [done|].
  apply Forall_app in Hds as [Hds Hd]. inversion Hd as [|? ? Hd' _]; subst.
  rewrite digits_value_snoc in Hfuel |- *.
  pose proof (digits_value_nonneg r ds ltac:(lia) Hds) as Hval.
  rewrite Nat2Z.inj_succ, Z.pow_succ_r in Hfuel by lia.
  cbn [digits_of]. cbv zeta.
  assert (Hmod : (digits_value r ds * r + d) mod r = d).
  { rewrite Z.add_comm, Z.mod_add by lia. apply Z.mod_small. lia. }
  assert (Hdiv : (digits_value r ds * r + d) / r = digits_value r ds).
  { rewrite Z.add_comm, Z.div_add by lia. rewrite Z.div_small by lia. lia. }
  rewrite Hmod, Hdiv.
  destruct ds as [|d0 ds'].
  - reflexivity.
  - assert (Hd0 : d0 <> 0).
    { destruct Hlead as [H|H]; [simpl in H; congruence|]. 
      destruct ds'; discriminate H. }
    pose proof (digits_value_lead r d0 ds' ltac:(lia) Hds) as Hpos.
    inversion Hds; subst.
    destruct (Z.eqb_spec (digits_value r (d0 :: ds')) 0); [lia|].
    destruct fuel as [|fuel]; [simpl in Hfuel; nia|].
    rewrite digits_of_app, IH; [reflexivity|assumption|done| |nia].
    left. simpl. congruence.
Qed.

Lemma lower_digits_read w :
  all_lower_digits w = true ->
  Forall (fun d => 0 <= d < 36) (digit_prefix 36 w) /\
  string_of_digits (digit_prefix 36 w) = w.
Proof.
  induction w as [|c w IH]; intros Hw; [by split|].
  cbn [all_lower_digits] in Hw. apply andb_true_iff in Hw as [Hc Hw].
  destruct (lower_digit_facts c Hc) as (d & Hd & Hv & Hch).
  destruct (IH Hw) as [IH1 IH2].
  cbn [digit_prefix]. rewrite Hv. destruct (Z.ltb_spec d 36); [|lia].
  split; [by constructor|]. cbn [string_of_digits fold_right].
  fold (string_of_digits (digit_prefix 36 w)). by rewrite IH2, Hch.
Qed.

Lemma canonical_wid_digits w :
  canonical_wid w = true ->
  let ds := digit_prefix 36 w in
  Forall (fun d => 0 <= d < 36) ds /\ string_of_digits ds = w /\ ds <> [] /\
  (head ds <> Some 0 \/ ds = [0]).
Proof.
  intros Hw ds. subst ds. destruct w as [|c w]; [discriminate|].
  destruct (ascii_dec c "0") as [->|Hc].
  - destruct w; [|discriminate Hw]. vm_compute. repeat split; auto. 
    + repeat constructor; discriminate.
    + discriminate.
  - assert (Hall : all_lower_digits (String c w) = true).
    { revert Hw. unfold canonical_wid.
      destruct c as [[] [] [] [] [] [] [] []]; try exact id. congruence. }
    destruct (lower_digits_read _ Hall) as [H1 H2]. split; [exact H1|]. split; [exact H2|].
    cbn [all_lower_digits] in Hall. apply andb_true_iff in Hall as [Hlc _].
    destruct (lower_digit_facts c Hlc) as (d & Hd & Hv & Hch).
    cbn [digit_prefix] in *. rewrite Hv in *. destruct (Z.ltb_spec d 36); [|lia].
    split; [done|]. left. simpl. intros [= ->]. apply Hc. rewrite <- Hch. reflexivity.
Qed.

(** *** Bitwise facts *)

Lemma ToInt32_small z : - 2^31 <= z < 2^31 -> ToInt32 (Num z) = z.
Proof. intros Hz. unfold ToInt32. rewrite Z.mod_small; lia. Qed.

Lemma lxor_magic_range g : 0 <= g < 2^31 -> 0 <= Z.lxor g 31578 < 2^31.
Proof.
  intros Hg. split; [apply Z.lxor_nonneg; lia|].
  destruct (Z.eq_dec (Z.lxor g 31578) 0) as [->|Hne]; [lia|].
  assert (0 <= Z.lxor g 31578) by (apply Z.lxor_nonneg; lia).
  apply Z.log2_lt_pow2; [lia|].
  eapply Z.le_lt_trans; [apply Z.log2_lxor; lia|].
  apply Z.max_lub_lt; [|reflexivity].
  destruct (Z.eq_dec g 0) as [->|]; [reflexivity|]. apply Z.log2_lt_pow2; lia.
Qed.

Lemma lxor_magic_involutive g : Z.lxor (Z.lxor g 31578) 31578 = g.
Proof. by rewrite Z.lxor_assoc, Z.lxor_nilpotent, Z.lxor_0_r. Qed.

Lemma gid_to_wid_small g :
  0 <= g < 2^31 -> gid_to_wid_ g = numeral 36 (Z.lxor g 31578).
Proof.
  intros Hg. pose proof (lxor_magic_range g Hg) as Hx.
  unfold gid_to_wid_, js_xor. rewrite !ToInt32_small by lia.
  rewrite parseInt_toString_decimal. unfold js_toString.
  destruct (Z.ltb_spec (Z.lxor g 31578) 0); [lia|reflexivity].
Qed.

(** [parseInt(s, 36)] in one equation. *)
Lemma parseInt_36 s :
  parseInt s 36 =
  match digit_prefix 36 (strip_sign (skip_white s)).2 with
  | [] => NaN
  | ds => Num ((strip_sign (skip_white s)).1 * digits_value 36 ds)
  end.
Proof. unfold parseInt. by destruct (strip_sign (skip_white s)). Qed.

Lemma wid_to_gid_canonical w :
  canonical_wid w = true -> wid_value w < 2^31 ->
  wid_to_gid_ w = Z.lxor (wid_value w) 31578 /\ 0 <= wid_value w /\
  numeral 36 (wid_value w) = w.
Proof.
  intros Hc Hlt. destruct (canonical_wid_digits w Hc) as (Hds & Hs & Hne & Hlead).
  pose proof (digits_value_nonneg 36 _ ltac:(lia) Hds) as Hnn. fold (wid_value w) in Hnn.
  split; [|split; [exact Hnn|]].
  - assert (Hp : parseInt w 36 = Num (wid_value w)).
    { pose proof (numeral_plain 36 _ ltac:(lia) Hne Hds) as Hplain. rewrite Hs in Hplain.
      rewrite parseInt_36, Hplain. cbn [fst snd]. unfold wid_value.
      destruct (digit_prefix 36 w); [done|]. f_equal. lia. }
    unfold wid_to_gid_, js_xor. rewrite Hp, !ToInt32_small by lia. reflexivity.
  - unfold numeral, digits_fuel, wid_value.
    rewrite digits_of_canonical; [exact Hs|lia|assumption..|].
    apply (fuel_enough _ Hnn).
Qed.

(** C1, as amended: the codec round-trips on grid ids in [0, 2^31) and on
    canonical worksheet ids whose base-36 value is below 2^31; "od4" and 2
    correspond. *)
Theorem codec_roundtrip :
  (forall g, 0 <= g < 2^31 -> wid_to_gid_ (gid_to_wid_ g) = g) /\
  (forall w, canonical_wid w = true -> wid_value w < 2^31 ->
     gid_to_wid_ (wid_to_gid_ w) = w) /\
  wid_to_gid_ "od4" = 2 /\ gid_to_wid_ 2 = "od4"%string.
Proof.
  split; [|split; [|split; reflexivity]].
  - intros g Hg. pose proof (lxor_magic_range g Hg) as Hx.
    rewrite gid_to_wid_small by assumption.
    unfold wid_to_gid_, js_xor. rewrite parseInt_numeral by lia.
    rewrite !ToInt32_small by lia. apply lxor_magic_involutive.
  - intros w Hc Hlt. destruct (wid_to_gid_canonical w Hc Hlt) as (-> & Hnn & Hnum).
    rewrite gid_to_wid_small by (apply lxor_magic_range; lia).
    by rewrite lxor_magic_involutive.
Qed.

Lemma codec_roundtrip_witness :
  wid_to_gid_ (gid_to_wid_ 12345) = 12345 /\
  gid_to_wid_ (wid_to_gid_ "od6") = "od6"%string.
Proof.
  split.
  - apply (proj1 codec_roundtrip). lia.
  - apply (proj1 (proj2 codec_roundtrip)); [reflexivity | vm_compute; reflexivity].
Defined.

(** C1 as stated fails: "zik0zk" is a canonical base-36 numeral (of 2^31), and
    the codec sends it to "-zik0zk". *)
Lemma codec_roundtrip_counterexample :
  canonical_wid "zik0zk" = true /\
  gid_to_wid_ (wid_to_gid_ "zik0zk") <> "zik0zk"%string.
Proof. split; [reflexivity | vm_compute; discriminate]. Qed.

(** C9, as amended: [wid_to_gid_] is a function on all strings; when no
    base-36 digit follows the white space and the sign that [parseInt] skips,
    the parse is NaN, [^] takes NaN as 0, and the result is 31578. *)
Theorem wid_to_gid_no_digit (s : string) :
  digit_prefix 36 (strip_sign (skip_white s)).2 = [] ->
  parseInt s 36 = NaN /\ ToInt32 NaN = 0 /\ wid_to_gid_ s = 31578.
Proof.
  intros H. assert (Hp : parseInt s 36 = NaN).
  { by rewrite parseInt_36, H. }
  split; [exact Hp|]. split; [reflexivity|]. unfold wid_to_gid_. by rewrite Hp.
Qed.

Lemma wid_to_gid_no_digit_witness :
  wid_to_gid_ "" = 31578 /\ wid_to_gid_ " -!" = 31578.
Proof.
  split.
  - apply (wid_to_gid_no_digit ""). reflexivity.
  - apply (wid_to_gid_no_digit " -!"). reflexivity.
Defined.

(** C9 as stated fails: "-1" does not begin with a base-36 digit, and yet it
    parses (to -1), so that the result is not 31578. *)
Lemma wid_to_gid_counterexample :
  digit_prefix 36 "-1" = [] /\ parseInt "-1" 36 = Num (-1) /\ wid_to_gid_ "-1" = -31579.
Proof. repeat split. Qed.

(** ** The element *)

(** *** The monad *)

Lemma bind_ok {A B} (m : M A) (k : A -> M B) s a s' :
  m s = Ok a s' -> bind m k s = k a s'.
Proof. unfold bind. by intros ->. Qed.

Lemma bind_throw {A B} (m : M A) (k : A -> M B) s e s' :
  m s = Throw e s' -> bind m k s = Throw e s'.
Proof. unfold bind. by intros ->. Qed.

Lemma bind_assoc {A B C} (m : M A) (k : A -> M B) (k' : B -> M C) s :
  bind (bind m k) k' s = bind m (fun a => bind (k a) k') s.
Proof. unfold bind. by destruct (m s). Qed.

(** *** Invariants of handlers *)

Lemma inv_ret {A} J (a : A) : inv J (ret a).
Proof. by intros s. Qed.

Lemma inv_throw {A} J e : inv J (@throw A e).
Proof. by intros s. Qed.

Lemma inv_gets {A} J (f : state -> A) : inv J (gets f).
Proof. by intros s. Qed.

Lemma inv_this {A} J (f : element -> A) : inv J (this_ f).
Proof. by intros s. Qed.

Lemma inv_lift_option {A} J (f : state -> option A) : inv J (lift_option f).
Proof. intros s Hs. unfold lift_option. by destruct (f s). Qed.

Lemma inv_bind {A B} J (m : M A) (k : A -> M B) :
  inv J m -> (forall a, inv J (k a)) -> inv J (bind m k).
Proof.
  intros Hm Hk s Hs. unfold bind. specialize (Hm s Hs).
  destruct (m s) as [a s'|e s']; simpl in Hm; [by apply Hk | exact Hm].
Qed.

Lemma inv_modify J (f : state -> state) :
  (forall s, J s -> J (f s)) -> inv J (modify f).
Proof. intros Hf s Hs. by apply Hf. Qed.

Lemma inv_get_prop J v name : inv J (get_prop v name).
Proof. apply inv_lift_option. Qed.

Lemma inv_index J v i : inv J (index v i).
Proof. apply inv_lift_option. Qed.

Lemma inv_stopPropagation J e : inv J (stopPropagation e).
Proof. destruct e; [apply inv_throw | apply inv_ret]. Qed.

Lemma inv_target_lastResponse J e : inv J (target_lastResponse e).
Proof. destruct e; [apply inv_throw | apply inv_ret]. Qed.

Lemma inv_generateCacheKey_ J : inv J generateCacheKey_.
Proof. apply inv_this. Qed.

Create HintDb inv discriminated.
#[export] Hint Resolve inv_ret inv_throw inv_gets inv_this inv_lift_option inv_get_prop
  inv_index inv_stopPropagation inv_target_lastResponse inv_generateCacheKey_ : inv.

(** One step through the text of a handler. *)
Ltac inv_step :=
  match goal with
  | |- inv _ (bind _ _) => apply inv_bind; [|intros]
  | |- inv _ (if ?b then _ else _) => destruct b
  | |- inv _ (match ?x with _ => _ end) => destruct x
  | |- inv _ _ => solve [eauto with inv]
  end.
Ltac inv_auto := repeat inv_step.

Lemma inv_path2 J prop a b : inv J (path2 prop a b).
Proof. unfold path2. inv_auto. Qed.
#[export] Hint Resolve inv_path2 : inv.

(** The caching step in one equation. *)
Lemma cache_feed_eq feed s :
  cache_feed feed s =
  let k := cache_key (_worksheetId (this s)) (tabId (this s)) in
  let n := length (heap s) in
  match rowDataCache_ s !! k with
  | Some _ => Ok tt s
  | None =>
      Ok tt (set_cache (<[k := VRef (S n)]> (rowDataCache_ s))
               (set_heap (heap s ++ [plain {["feed" := feed]};
                                     plain {["response" := VRef n]}]) s))
  end.
Proof.
  unfold cache_feed, bind, generateCacheKey_, this_, gets. cbv zeta.
  destruct (rowDataCache_ s !! _) eqn:Hk.
  - rewrite bool_decide_eq_true_2 by eauto. reflexivity.
  - rewrite bool_decide_eq_false_2 by (by intros [? ?]).
    unfold new_object, new, js_alloc, modify. simpl.
    rewrite !insert_empty, <- app_assoc, length_app. simpl.
    by rewrite Nat.add_1_r.
Qed.

(** Handlers that write an [iron-ajax], the worksheet id or the cache. *)
Section Primitive.
Variable J : state -> Prop.
Variable sends : ajax_id -> Prop.

Hypothesis J_heap : forall s h, J s -> J (set_heap h s).
Hypothesis J_url : forall s a u, J s ->
  J (set_this (with_ajax a {| url := u; headers := headers (get_ajax a (this s)) |} (this s)) s).
Hypothesis J_headers : forall s a h, a <> publicajax -> J s ->
  J (set_this (with_ajax a {| url := url (get_ajax a (this s)); headers := h |} (this s)) s).
Hypothesis J_request : forall s r, sends (req_ajax r) -> J s -> J (add_log (Requested r) s).
Hypothesis J_wid : forall s w, J s -> J (set_this (with_worksheetId w (this s)) s).
Hypothesis J_insert : forall s e,
  rowDataCache_ s !! cache_key (_worksheetId (this s)) (tabId (this s)) = None -> J s ->
  J (set_cache (<[cache_key (_worksheetId (this s)) (tabId (this s)) := e]> (rowDataCache_ s)) s).

Lemma inv_set_url a u : inv J (set_url a u).
Proof. apply inv_modify. intros s. apply J_url. Qed.

Lemma inv_set_headers a h : a <> publicajax -> inv J (set_headers a h).
Proof. intros Ha. apply inv_modify. intros s. by apply J_headers. Qed.

Lemma inv_generateRequest a : sends a -> inv J (generateRequest a).
Proof.
  intros Ha. unfold generateRequest. apply inv_bind; [auto with inv|intros x].
  apply inv_modify. intros s. by apply J_request.
Qed.

Lemma inv__keyChanged : sends publicajax -> inv J _keyChanged.
Proof.
  intros Ha. unfold _keyChanged. inv_auto;
    [apply inv_set_url | by apply inv_generateRequest].
Qed.

Lemma inv__getWorksheet : sends worksheetajax -> inv J _getWorksheet.
Proof.
  intros Ha. unfold _getWorksheet. inv_auto;
    [apply inv_set_url | by apply inv_generateRequest].
Qed.

Lemma inv_resolve w :
  sends worksheetajax -> inv J (update_this (with_worksheetId w) ;; _getWorksheet).
Proof.
  intros Ha. apply inv_bind; [|intros; by apply inv__getWorksheet].
  apply inv_modify. intros s. apply J_wid.
Qed.

Lemma inv_rows_request :
  sends cellrowsajax ->
  inv J (w <- this_ _worksheetId ;;
         t <- this_ tabId ;;
         set_url cellrowsajax
           (SCOPE_ +:+ "/list/" +:+ wid_string w +:+ "/" +:+ tab_string t +:+ "/private/full") ;;
         generateRequest cellrowsajax).
Proof. intros Ha. inv_auto; [apply inv_set_url | by apply inv_generateRequest]. Qed.

Lemma inv__listSpreadsheets : sends listsheetsajax -> inv J _listSpreadsheets.
Proof.
  intros Ha. unfold _listSpreadsheets. inv_auto;
    [apply inv_set_url | by apply inv_generateRequest].
Qed.

Lemma inv__onSignInSuccess tok : sends listsheetsajax -> inv J (_onSignInSuccess tok).
Proof.
  intros Ha. unfold _onSignInSuccess. cbv zeta.
  repeat (apply inv_bind; [by apply inv_set_headers|intros _]).
  by apply inv__listSpreadsheets.
Qed.

Lemma inv_cache_feed feed : inv J (cache_feed feed).
Proof.
  intros s Hs. rewrite cache_feed_eq. cbv zeta.
  destruct (rowDataCache_ s !! _) eqn:Hk; [exact Hs|].
  simpl. apply (J_insert (set_heap _ s)); [exact Hk|]. by apply J_heap.
Qed.
End Primitive.

Section Handlers.
Variable J : state -> Prop.

(** What the handlers do to the state, piece by piece. *)
Hypothesis J_heap : forall s h, J s -> J (set_heap h s).
Hypothesis J_sheet : forall s v, J s -> J (set_this (with_sheet v (this s)) s).
Hypothesis J_tab : forall s v, J s -> J (set_this (with_tab v (this s)) s).
Hypothesis J_rows : forall s v, J s -> J (set_this (with_rows v (this s)) s).
Hypothesis J_spreadsheets : forall s v, J s -> J (set_this (with_spreadsheets v (this s)) s).
Hypothesis J_fired : forall s t d v, J s -> J (add_log (Fired t d v) s).

Lemma inv_put_prop v name x : inv J (put_prop v name x).
Proof. unfold put_prop. inv_auto. apply inv_modify; auto. Qed.

Lemma inv_new o : inv J (new o).
Proof. intros s Hs. unfold new. simpl. by apply J_heap. Qed.

Lemma inv_new_object ps : inv J (new_object ps).
Proof. apply inv_new. Qed.

Hint Resolve inv_put_prop inv_new inv_new_object : inv.

Lemma inv_polymer_set prop name v : inv J (polymer_set prop name v).
Proof. unfold polymer_set. inv_auto. Qed.

Lemma inv_fire t d v : inv J (fire t d v).
Proof. apply inv_modify; auto. Qed.

Lemma inv__setRows v : inv J (_setRows v).
Proof. apply inv_modify; auto. Qed.

Lemma inv__setSpreadsheets v : inv J (_setSpreadsheets v).
Proof. apply inv_modify; auto. Qed.

Lemma inv_author_pair a : inv J (author_pair a).
Proof. unfold author_pair. inv_auto. Qed.

Hint Resolve inv_polymer_set inv_fire inv__setRows inv__setSpreadsheets inv_author_pair : inv.

Lemma inv_map_M f l : (forall a, inv J (f a)) -> inv J (map_M f l).
Proof. intros Hf. induction l as [|x l IH]; cbn [map_M]; inv_auto. Qed.

Lemma inv_js_map f v : (forall a, inv J (f a)) -> inv J (js_map f v).
Proof. intros Hf. unfold js_map. inv_auto. by apply inv_map_M. Qed.

Lemma inv_authors_of prop : inv J (authors_of prop).
Proof. unfold authors_of. inv_auto. apply inv_js_map. auto with inv. Qed.

Lemma inv_getLink_loop fuel rel links : forall i, inv J (getLink_loop fuel rel links i).
Proof. induction fuel as [|fuel IH]; intros i; cbn [getLink_loop]; inv_auto. Qed.

Lemma inv_getLink_ rel links : inv J (getLink_ rel links).
Proof. unfold getLink_. inv_auto. apply inv_getLink_loop. Qed.

Lemma inv_indexOf_found href k : inv J (indexOf_found href k).
Proof. unfold indexOf_found. inv_auto. Qed.

Hint Resolve inv_authors_of inv_getLink_ inv_indexOf_found inv_js_map : inv.

Lemma inv__tabChanged : inv J _tabChanged.
Proof. unfold _tabChanged. inv_auto. Qed.

Lemma inv__setTab v : inv J (_setTab v).
Proof.
  unfold _setTab. inv_auto. { apply inv_modify; auto. } apply inv__tabChanged.
Qed.

Hint Resolve inv__setTab : inv.

(** The handlers that also resolve the worksheet, write the cache or send a
    request. *)
Hypothesis J_resolve : forall w, inv J (update_this (with_worksheetId w) ;; _getWorksheet).
Hypothesis J_cache : forall feed, inv J (cache_feed feed).
Hypothesis J_rows_request : inv J
  (w <- this_ _worksheetId ;;
   t <- this_ tabId ;;
   set_url cellrowsajax
     (SCOPE_ +:+ "/list/" +:+ wid_string w +:+ "/" +:+ tab_string t +:+ "/private/full") ;;
   generateRequest cellrowsajax).
Hypothesis J_keyChanged : inv J _keyChanged.

Lemma inv__sheetChanged : inv J _sheetChanged.
Proof.
  unfold _sheetChanged. do 3 inv_step; [inv_auto|].
  repeat (apply inv_bind; [solve [inv_auto]|intros]).
  match goal with |- inv _ (bind (match ?x with _ => _ end) _) => destruct x end;
    solve [by intros s Hs | apply J_resolve].
Qed.

Lemma inv__setSheet v : inv J (_setSheet v).
Proof.
  unfold _setSheet. inv_auto. { apply inv_modify; auto. } apply inv__sheetChanged.
Qed.

Hint Resolve inv__setSheet : inv.

Lemma inv_find_sheet fuel feed : forall i, inv J (find_sheet fuel feed i).
Proof. induction fuel as [|fuel IH]; intros i; cbn [find_sheet]; inv_auto. Qed.

Lemma inv__onSpreadsheetList e : inv J (_onSpreadsheetList e).
Proof. unfold _onSpreadsheetList. inv_auto. apply inv_find_sheet. Qed.

Lemma inv_publish_rows feed : inv J (publish_rows feed).
Proof. unfold publish_rows. inv_auto. Qed.

Hint Resolve inv_publish_rows : inv.

Lemma inv__onCellRows e : inv J (_onCellRows e).
Proof. unfold _onCellRows. inv_auto. Qed.

(** On a cache hit [_getCellRows] calls [_onCellRows(null, null, entry)],
    whose first statement, [e.stopPropagation()], throws. *)
Lemma _onCellRows_null s : _onCellRows EvNull s = Throw TypeError s.
Proof. reflexivity. Qed.

Lemma inv__getCellRows : inv J _getCellRows.
Proof.
  unfold _getCellRows. do 2 (apply inv_bind; [auto with inv|intros]).
  destruct (bool_decide _); [intros s Hs; exact Hs | exact J_rows_request].
Qed.

Lemma inv__tabIdChanged : inv J _tabIdChanged.
Proof. unfold _tabIdChanged. inv_auto. apply inv__getCellRows. Qed.

Lemma inv__onWorksheet e : inv J (_onWorksheet e).
Proof. unfold _onWorksheet. inv_auto. apply inv__getCellRows. Qed.

End Handlers.

(** A response event, once the body is on the heap, is its handler. *)
Lemma dispatch_response a body s :
  dispatch (Response a body) s =
  on_response a (EvResponse (alloc_json body (heap s)).1)
    (set_heap (alloc_json body (heap s)).2 (add_log (Delivered a) s)).
Proof.
  cbn [dispatch]. unfold bind, modify. simpl.
  by destruct (alloc_json body (heap s)).
Qed.

(** Every event, for an invariant that no piece of a handler breaks. *)
Section Events.
Variable J : state -> Prop.
Variable writes_cache : bool.

Hypothesis J_heap : forall s h, J s -> J (set_heap h s).
Hypothesis J_sheet : forall s v, J s -> J (set_this (with_sheet v (this s)) s).
Hypothesis J_tab : forall s v, J s -> J (set_this (with_tab v (this s)) s).
Hypothesis J_rows : forall s v, J s -> J (set_this (with_rows v (this s)) s).
Hypothesis J_spreadsheets : forall s v, J s -> J (set_this (with_spreadsheets v (this s)) s).
Hypothesis J_url : forall s a u, J s ->
  J (set_this (with_ajax a {| url := u; headers := headers (get_ajax a (this s)) |} (this s)) s).
Hypothesis J_headers : forall s a h, a <> publicajax -> J s ->
  J (set_this (with_ajax a {| url := url (get_ajax a (this s)); headers := h |} (this s)) s).
Hypothesis J_resolve : forall w, inv J (update_this (with_worksheetId w) ;; _getWorksheet).
Hypothesis J_insert : forall s e, writes_cache = true ->
  rowDataCache_ s !! cache_key (_worksheetId (this s)) (tabId (this s)) = None -> J s ->
  J (set_cache (<[cache_key (_worksheetId (this s)) (tabId (this s)) := e]> (rowDataCache_ s)) s).
Hypothesis J_key : forall s k, J s -> J (set_this (with_key k (this s)) s).
Hypothesis J_tabId : forall s n, J s -> J (set_this (with_tabId n (this s)) s).
Hypothesis J_published : forall s b, J s -> J (set_this (with_published b (this s)) s).
Hypothesis J_clientId : forall s c, J s -> J (set_this (with_clientId c (this s)) s).
Hypothesis J_log : forall s o, J s -> J (add_log o s).

Let sends (a : ajax_id) : Prop := True.

Lemma inv__keyChanged_any : inv J _keyChanged.
Proof. apply (inv__keyChanged J sends); unfold sends; auto. Qed.

Lemma inv__getCellRows_any : inv J _getCellRows.
Proof. apply inv__getCellRows. apply (inv_rows_request J sends); unfold sends; auto. Qed.

Lemma inv__configUpdate : inv J _configUpdate.
Proof.
  apply inv__tabIdChanged.
  - apply (inv_rows_request J sends); unfold sends; auto.
  - apply inv__keyChanged_any.
Qed.

Lemma inv_signin_event tok : inv J (dispatch (SignInSuccess tok)).
Proof.
  cbn [dispatch]. apply inv_bind; [apply inv_modify; auto|intros _].
  apply (inv__onSignInSuccess J sends); unfold sends; auto.
Qed.

Lemma inv_response_with a body :
  (forall e, inv J (on_response a e)) -> inv J (dispatch (Response a body)).
Proof.
  intros Ha s Hs. rewrite dispatch_response. apply Ha. auto.
Qed.

Lemma inv_rows_response a body :
  writes_cache = true -> a = publicajax \/ a = cellrowsajax ->
  inv J (dispatch (Response a body)).
Proof.
  intros Hw Ha. apply inv_response_with. intros e.
  assert (inv J (_onCellRows e)).
  { apply inv__onCellRows; auto. intros feed. apply inv_cache_feed; auto. }
  by destruct Ha as [-> | ->].
Qed.

Lemma inv_list_response body : inv J (dispatch (Response listsheetsajax body)).
Proof.
  apply inv_response_with. intros e. cbn [on_response]. apply inv__onSpreadsheetList; auto.
Qed.

Lemma inv_worksheet_response body : inv J (dispatch (Response worksheetajax body)).
Proof.
  apply inv_response_with. intros e. cbn [on_response]. apply inv__onWorksheet; auto.
  apply (inv_rows_request J sends); unfold sends; auto.
Qed.

Lemma inv_response a body :
  (writes_cache = false -> a <> publicajax /\ a <> cellrowsajax) ->
  inv J (dispatch (Response a body)).
Proof.
  intros Ha. destruct (decide (writes_cache = true)) as [Hw|Hw].
  - destruct a; [by apply inv_rows_response; auto | apply inv_list_response
                 | apply inv_worksheet_response | by apply inv_rows_response; auto].
  - apply not_true_is_false in Hw. destruct (Ha Hw).
    destruct a; [done | apply inv_list_response | apply inv_worksheet_response | done].
Qed.

Lemma inv_dispatch ev :
  (writes_cache = false ->
   forall a body, ev = Response a body -> a <> publicajax /\ a <> cellrowsajax) ->
  inv J (dispatch ev).
Proof.
  intros Hev.
  destruct ev as [k|n|b|c|tok| |a body].
  - cbn [dispatch]. apply inv_bind; [apply inv_modify; auto|intros _].
    apply inv__keyChanged_any.
  - cbn [dispatch]. apply inv_bind; [apply inv_modify; auto|intros _]. apply inv__configUpdate.
  - cbn [dispatch]. apply inv_bind; [apply inv_modify; auto|intros _]. apply inv__configUpdate.
  - cbn [dispatch]. apply inv_bind; [apply inv_modify; auto|intros _]. apply inv__configUpdate.
  - apply inv_signin_event.
  - apply inv_ret.
  - apply inv_response. intros Hw. by apply (Hev Hw a body).
Qed.
End Events.

(** *** Handler equations *)

Lemma _keyChanged_eq s :
  _keyChanged s =
  if published (this s) then
    let u := SCOPE_ +:+ "/list/" +:+ key (this s) +:+ "/" +:+ tab_string (tabId (this s))
             +:+ "/public/values" in
    Ok tt (add_log (Requested (public_request (key (this s)) (tabId (this s))
                                 (headers (publicajax_ (this s)))))
             (set_this (with_ajax publicajax
                          {| url := u; headers := headers (publicajax_ (this s)) |} (this s)) s))
  else Ok tt s.
Proof. unfold _keyChanged, bind, this_, gets. by destruct (published (this s)). Qed.

Lemma _getWorksheet_eq s :
  _getWorksheet s =
  let w := _worksheetId (this s) in
  let t := tabId (this s) in
  if wid_truthy w then
    Ok tt (add_log (Requested (worksheet_request w t (headers (worksheetajax_ (this s)))))
             (set_this (with_ajax worksheetajax
                          {| url := req_url (worksheet_request w t []);
                             headers := headers (worksheetajax_ (this s)) |} (this s)) s))
  else Throw (Error "workesheetId was not given.") s.
Proof.
  unfold _getWorksheet, bind, this_, gets. cbv zeta.
  by destruct (wid_truthy (_worksheetId (this s))).
Qed.

Lemma _getCellRows_eq s :
  _getCellRows s =
  let w := _worksheetId (this s) in
  let t := tabId (this s) in
  match rowDataCache_ s !! cache_key w t with
  | Some _ => Throw TypeError s
  | None =>
      Ok tt (add_log (Requested (rows_request w t (headers (cellrowsajax_ (this s)))))
               (set_this (with_ajax cellrowsajax
                            {| url := req_url (rows_request w t []);
                               headers := headers (cellrowsajax_ (this s)) |} (this s)) s))
  end.
Proof.
  unfold _getCellRows, bind, generateCacheKey_, this_, gets. cbv zeta.
  destruct (rowDataCache_ s !! _) eqn:Hk.
  - rewrite bool_decide_eq_true_2 by eauto. reflexivity.
  - rewrite bool_decide_eq_false_2 by (by intros [? ?]). reflexivity.
Qed.

Lemma _tabIdChanged_eq s :
  _tabIdChanged s =
  if wid_truthy (_worksheetId (this s)) then _getCellRows s
  else if published (this s) then _keyChanged s else Ok tt s.
Proof.
  unfold _tabIdChanged, bind, this_, gets.
  destruct (wid_truthy _); [reflexivity|]. by destruct (published _).
Qed.

Lemma _onSignInSuccess_eq tok s :
  exists s', _onSignInSuccess tok s = Ok tt s' /\
    log s' = log s ++ [Requested (list_request tok)] /\
    heap s' = heap s /\ rowDataCache_ s' = rowDataCache_ s /\
    _worksheetId (this s') = _worksheetId (this s) /\
    published (this s') = published (this s).
Proof. eexists. split; [reflexivity|]. by repeat split. Qed.

(** On a cache hit [_getCellRows] hands [null] to [_onCellRows], which
    throws at [e.stopPropagation()]. *)
Lemma _getCellRows_hit s :
  is_Some (rowDataCache_ s !! cache_key (_worksheetId (this s)) (tabId (this s))) ->
  _getCellRows s = Throw TypeError s.
Proof. intros [e He]. rewrite _getCellRows_eq. cbv zeta. by rewrite He. Qed.

(** C2, the code at the failing input: after the private flow has fetched and
    cached the rows of ("KEY1", 1) with one request, fetching them again
    (directly; by a change of [clientId], which runs the configuration
    observer; or by a change of [tabId] from 1 to 2 and back to 1) sends no
    second request for them, but throws a TypeError and fires no second
    "rows" event: nothing is delivered. *)
Theorem cache_hit_throws :
  exists s, run private_scenario fresh_state = Some s /\
    requests_on cellrowsajax (log s) = 1%nat /\
    rows_events (log s) = 1%nat /\
    is_Some (rowDataCache_ s !! cache_key (_worksheetId (this s)) (tabId (this s))) /\
    _getCellRows s = Throw TypeError s /\
    clientId (this s) = ""%string /\ tabId (this s) = 1 /\
    dispatch (ClientIdChanged "client") s =
      Throw TypeError (set_this (with_clientId "client" (this s)) s) /\
    exists s2, dispatch (TabIdChanged 2) s = Ok tt s2 /\
      tabId (this s2) = 2 /\
      dispatch (TabIdChanged 1) s2 = Throw TypeError (set_this (with_tabId 1 (this s2)) s2) /\
      rows_events (log s2) = 1%nat.
Proof.
  exists (default fresh_state (run private_scenario fresh_state)).
  split; [vm_compute; reflexivity|].
  split; [vm_compute; reflexivity|]. split; [vm_compute; reflexivity|].
  split; [vm_compute; eauto|]. split; [vm_compute; reflexivity|].
  split; [vm_compute; reflexivity|]. split; [vm_compute; reflexivity|].
  split; [vm_compute; reflexivity|].
  exists (final (dispatch (TabIdChanged 2)
                   (default fresh_state (run private_scenario fresh_state)))).
  split; [vm_compute; reflexivity|]. split; [vm_compute; reflexivity|].
  split; vm_compute; reflexivity.
Qed.

(** C3 as stated fails: with no worksheet id, in the private flow,
    [_getCellRows] returns normally and sends a request for the rows of
    "null". *)
Lemma row_fetch_counterexample :
  _worksheetId (this fresh_state) = None /\ published (this fresh_state) = false /\
  exists s', _getCellRows fresh_state = Ok tt s' /\
    log s' = [Requested (rows_request None 1 [])] /\
    req_url (rows_request None 1 []) =
      "https://spreadsheets.google.com/feeds/list/null/1/private/full"%string.
Proof. split; [done|]. split; [done|]. eexists. by repeat split. Qed.

(** C3, as amended: without a worksheet id it is [_getWorksheet] that fails at
    once, with its Error and the state untouched (no request, nothing that
    would try again), and the tab observer of the private flow does nothing. *)
Theorem worksheet_guard :
  (forall s, wid_truthy (_worksheetId (this s)) = false ->
     _getWorksheet s = Throw (Error "workesheetId was not given.") s) /\
  (forall s, wid_truthy (_worksheetId (this s)) = false -> published (this s) = false ->
     _tabIdChanged s = Ok tt s).
Proof.
  split.
  - intros s Hw. rewrite _getWorksheet_eq. cbv zeta. by rewrite Hw.
  - intros s Hw Hp. rewrite _tabIdChanged_eq. by rewrite Hw, Hp.
Qed.

Lemma worksheet_guard_witness :
  _getWorksheet fresh_state = Throw (Error "workesheetId was not given.") fresh_state /\
  _tabIdChanged fresh_state = Ok tt fresh_state.
Proof.
  split.
  - apply (proj1 worksheet_guard). reflexivity.
  - apply (proj2 worksheet_guard); reflexivity.
Defined.

(** No event changes the headers of [publicajax]. *)
Lemma public_headers_kept ev s :
  headers (publicajax_ (this (final (dispatch ev s)))) = headers (publicajax_ (this s)).
Proof.
  set (h0 := headers (publicajax_ (this s))).
  assert (Hurl : forall s' a u, headers (publicajax_ (this s')) = h0 ->
    headers (publicajax_ (with_ajax a {| url := u; headers := headers (get_ajax a (this s')) |}
                            (this s'))) = h0) by (intros s' a u; by destruct a).
  apply (inv_dispatch (fun s => headers (publicajax_ (this s)) = h0) true); try done.
  - intros s' a h Ha. by destruct a.
  - intros w. by apply (inv_resolve _ (fun _ => True)).
Qed.

(** C6: with [published] set, a change of [key] (to a value other than the
    one it has) sends one request, the GET of the public row feed of that
    key and tab; the worksheet id is not touched, and the headers of the
    request are those of [publicajax], which no event sets (a new element
    has none). *)
Theorem public_flow (s : state) (k : string) :
  published (this s) = true -> k <> key (this s) ->
  (exists s', dispatch (KeyChanged k) s = Ok tt s' /\
     log s' = log s ++ [Requested (public_request k (tabId (this s))
                                     (headers (publicajax_ (this s))))] /\
     _worksheetId (this s') = _worksheetId (this s) /\
     heap s' = heap s /\ rowDataCache_ s' = rowDataCache_ s) /\
  req_url (public_request k (tabId (this s)) []) =
    ("https://spreadsheets.google.com/feeds/list/" +:+ k +:+ "/" +:+
     tab_string (tabId (this s)) +:+ "/public/values")%string /\
  (forall ev s1, headers (publicajax_ (this (final (dispatch ev s1)))) =
                 headers (publicajax_ (this s1))) /\
  (forall sh tb rw sp, headers (publicajax_ (new_element sh tb rw sp)) = []).
Proof.
  intros Hp Hk. split; [|split; [reflexivity|split; [apply public_headers_kept|done]]].
  cbn [dispatch]. unfold bind, update_this, modify. rewrite _keyChanged_eq. simpl.
  rewrite Hp. eexists. split; [reflexivity|]. by repeat split.
Qed.

Lemma public_flow_witness :
  exists s', dispatch (KeyChanged "KEY1") (set_this (with_published true (this fresh_state)) fresh_state)
             = Ok tt s' /\
    log s' = [Requested (public_request "KEY1" 1 [])].
Proof.
  destruct (public_flow (set_this (with_published true (this fresh_state)) fresh_state)
              "KEY1") as [(s' & H1 & H2 & _) _]; [reflexivity | discriminate |].
  exists s'. split; [exact H1 | exact H2].
Defined.

(** C10 as stated fails for the values [undefined] and [null], which have no
    title field either: the observer throws a TypeError at [this.tab.title]
    (at [this.sheet.title]).  A worksheet response without an entry assigns
    [undefined] to [tab]. *)
Lemma missing_title_counterexample :
  js_get (heap fresh_state) VUndef "title" = None /\
  _setTab VUndef fresh_state =
    Throw TypeError (set_this (with_tab VUndef (this fresh_state)) fresh_state) /\
  _setSheet VNull fresh_state =
    Throw TypeError (set_this (with_sheet VNull (this fresh_state)) fresh_state) /\
  exists s', dispatch (Response worksheetajax (JObj [])) fresh_state = Throw TypeError s' /\
    tab (this s') = VUndef /\ log s' = [Delivered worksheetajax].
Proof.
  split; [reflexivity|]. split; [reflexivity|]. split; [reflexivity|].
  eexists. split; [vm_compute; reflexivity|]. split; reflexivity.
Qed.

(** C10, as amended: when the value of [sheet] (of [tab]) is an object or
    another value that is not [undefined] or [null], and has no title or a
    falsy one, the observer returns with the state as it was; so the setter
    changes the property and nothing else. *)
Theorem missing_title_guard :
  (forall s t, js_get (heap s) (sheet (this s)) "title" = Some t -> truthy t = false ->
     _sheetChanged s = Ok tt s) /\
  (forall s t, js_get (heap s) (tab (this s)) "title" = Some t -> truthy t = false ->
     _tabChanged s = Ok tt s) /\
  (forall s v t, js_get (heap s) v "title" = Some t -> truthy t = false ->
     sheet (this s) <> v ->
     _setSheet v s = Ok tt (set_this (with_sheet v (this s)) s)) /\
  (forall s v t, js_get (heap s) v "title" = Some t -> truthy t = false ->
     tab (this s) <> v ->
     _setTab v s = Ok tt (set_this (with_tab v (this s)) s)).
Proof.
  assert (Hsheet : forall s t, js_get (heap s) (sheet (this s)) "title" = Some t ->
            truthy t = false -> _sheetChanged s = Ok tt s).
  { intros s t Hget Ht. unfold _sheetChanged, bind, this_, gets, get_prop, lift_option.
    by rewrite Hget, Ht. }
  assert (Htab : forall s t, js_get (heap s) (tab (this s)) "title" = Some t ->
            truthy t = false -> _tabChanged s = Ok tt s).
  { intros s t Hget Ht. unfold _tabChanged, bind, this_, gets, get_prop, lift_option.
    by rewrite Hget, Ht. }
  split; [exact Hsheet|]. split; [exact Htab|]. split.
  - intros s v t Hget Ht Hne. unfold _setSheet, bind, this_, gets, update_this, modify.
    rewrite bool_decide_eq_false_2 by exact Hne. by apply (Hsheet _ t).
  - intros s v t Hget Ht Hne. unfold _setTab, bind, this_, gets, update_this, modify.
    rewrite bool_decide_eq_false_2 by exact Hne. by apply (Htab _ t).
Qed.


(** *** The cache *)

Lemma _onCellRows_response s r feed :
  js_get (heap s) r "feed" = Some feed ->
  _onCellRows (EvResponse r) s = (cache_feed feed ;; publish_rows feed) s.
Proof.
  intros Hfeed. unfold _onCellRows, stopPropagation, target_lastResponse.
  unfold bind at 1. unfold ret at 1. unfold bind at 1. unfold ret at 1.
  unfold bind at 1. unfold get_prop at 1, lift_option. by rewrite Hfeed.
Qed.

Lemma publish_rows_cache feed s :
  rowDataCache_ (final (publish_rows feed s)) = rowDataCache_ s.
Proof.
  set (c := rowDataCache_ s).
  by apply (inv_publish_rows (fun s => rowDataCache_ s = c)).
Qed.

(** C4, as amended: the caching step stores [{response: {feed: feed}}] under
    the cache key when the key is absent and does nothing when it is present;
    a row-feed response changes the cache by that step alone; no other event
    changes the cache; and no event removes or replaces an entry. *)
Theorem cache_write_once :
  (forall s feed,
     let k := cache_key (_worksheetId (this s)) (tabId (this s)) in
     match rowDataCache_ s !! k with
     | Some _ => cache_feed feed s = Ok tt s
     | None => exists s' e, cache_feed feed s = Ok tt s' /\
         rowDataCache_ s' = <[k := e]> (rowDataCache_ s) /\
         cache_entry_at (heap s') e feed /\ this s' = this s /\ log s' = log s
     end) /\
  (forall s r feed, js_get (heap s) r "feed" = Some feed ->
     rowDataCache_ (final (_onCellRows (EvResponse r) s)) =
     rowDataCache_ (final (cache_feed feed s))) /\
  (forall ev s,
     (forall a body, ev = Response a body -> a <> publicajax /\ a <> cellrowsajax) ->
     rowDataCache_ (final (dispatch ev s)) = rowDataCache_ s) /\
  (forall ev s k e, rowDataCache_ s !! k = Some e ->
     rowDataCache_ (final (dispatch ev s)) !! k = Some e).
Proof.
  split; [|split; [|split]].
  - intros s feed k. rewrite cache_feed_eq. cbv zeta. fold k.
    destruct (rowDataCache_ s !! k); [reflexivity|].
    eexists _, _. split; [reflexivity|]. split; [reflexivity|].
    split; [|by split]. eexists _, _. split; [reflexivity|]. simpl. split.
    + rewrite lookup_app_r by lia.
      by replace (S (length (heap s)) - length (heap s))%nat with 1%nat by lia.
    + rewrite lookup_app_r by lia. by rewrite Nat.sub_diag.
  - intros s r feed Hfeed. rewrite (_onCellRows_response _ _ _ Hfeed).
    unfold bind. rewrite cache_feed_eq. cbv zeta.
    destruct (rowDataCache_ s !! _); simpl; apply publish_rows_cache.
  - intros ev s Hev. set (c := rowDataCache_ s).
    apply (inv_dispatch (fun s => rowDataCache_ s = c) false);
      try done; try (intros w; by apply (inv_resolve _ (fun _ => True))).
  - intros ev s k e Hk.
    apply (inv_dispatch (fun s => rowDataCache_ s !! k = Some e) true);
      try done; try (intros w; by apply (inv_resolve _ (fun _ => True))).
    intros s' e' _ Hnone Hs'. simpl. rewrite lookup_insert_ne; [exact Hs'|].
    intros Heq. rewrite Heq in Hnone. congruence.
Qed.

(** C4 as stated fails on the shape of an entry: what the first row feed of
    the private flow leaves in the cache has no [feed] property; its
    [response] property holds the object that has it. *)
Lemma cache_entry_counterexample :
  exists s e feed, run private_scenario fresh_state = Some s /\
    rowDataCache_ s !! "KEY1_1"%string = Some e /\
    js_get (heap s) e "feed" = Some VUndef /\
    (exists inner, js_get (heap s) e "response" = Some inner /\
                   js_get (heap s) inner "feed" = Some feed /\ truthy feed = true) /\
    ~ feed_entry_at (heap s) e feed.
Proof.
  eexists _, _, _. split; [vm_compute; reflexivity|].
  split; [vm_compute; reflexivity|]. split; [vm_compute; reflexivity|].
  split; [eexists; split; [vm_compute; reflexivity|split; vm_compute; reflexivity]|].
  intros (l & Hl & Hobj). injection Hl as <-. vm_compute in Hobj. discriminate Hobj.
Qed.

(** *** Cache keys *)

Lemma tab_string_inj t1 t2 : tab_string t1 = tab_string t2 -> t1 = t2.
Proof.
  unfold tab_string. intros H.
  pose proof (parseInt_toString_decimal t1) as H1. rewrite H in H1.
  rewrite parseInt_toString_decimal in H1. congruence.
Qed.

Lemma append_cancel_l (p x y : string) : p +:+ x = p +:+ y -> x = y.
Proof. induction p as [|c p IH]; simpl; [done|]. intros [= H]. by apply IH. Qed.

Lemma alphanumeric_split w1 w2 x1 x2 :
  alphanumeric w1 = true -> alphanumeric w2 = true ->
  w1 +:+ "_" +:+ x1 = w2 +:+ "_" +:+ x2 -> w1 = w2 /\ x1 = x2.
Proof.
  revert w2. induction w1 as [|c1 w1 IH]; intros [|c2 w2] H1 H2 Heq; simpl in *.
  - split; [done|]. by injection Heq.
  - injection Heq as <- _. discriminate H2.
  - injection Heq as -> _. discriminate H1.
  - apply andb_true_iff in H1 as [_ H1]. apply andb_true_iff in H2 as [_ H2].
    injection Heq as -> Heq. destruct (IH _ H1 H2 Heq) as [-> ->]. done.
Qed.

(** C7: for one worksheet id, different tabs have different cache keys;
    among alphanumeric worksheet ids the key determines the pair; and so the
    response that caches one tab leaves a tab that was not cached uncached:
    fetching it sends a request of its own. *)
Theorem cache_key_isolation :
  (forall w t1 t2, t1 <> t2 -> cache_key w t1 <> cache_key w t2) /\
  (forall w1 w2 t1 t2, alphanumeric w1 = true -> alphanumeric w2 = true ->
     cache_key (Some w1) t1 = cache_key (Some w2) t2 -> w1 = w2 /\ t1 = t2) /\
  (forall s body t2,
     t2 <> tabId (this s) ->
     rowDataCache_ s !! cache_key (_worksheetId (this s)) t2 = None ->
     let s1 := final (dispatch (Response cellrowsajax body) s) in
     exists s2, _getCellRows (set_this (with_tabId t2 (this s1)) s1) = Ok tt s2 /\
       log s2 = log s1 ++ [Requested (rows_request (_worksheetId (this s)) t2
                                         (headers (cellrowsajax_ (this s1))))]).
Proof.
  split; [|split].
  - intros w t1 t2 Hne Heq. apply Hne, tab_string_inj.
    unfold cache_key in Heq. by apply append_cancel_l, append_cancel_l in Heq.
  - intros w1 w2 t1 t2 H1 H2 Heq. unfold cache_key in Heq. simpl in Heq.
    destruct (alphanumeric_split _ _ _ _ H1 H2 Heq) as [-> Ht].
    split; [done|]. by apply tab_string_inj.
  - intros s body t2 Hne Hnone s1.
    set (w := _worksheetId (this s)) in *. set (t1 := tabId (this s)) in *.
    assert (Hinv : rowDataCache_ s1 !! cache_key w t2 = None /\
                   _worksheetId (this s1) = w /\ tabId (this s1) = t1).
    { subst s1.
      apply (inv_rows_response
               (fun s => rowDataCache_ s !! cache_key w t2 = None /\
                         _worksheetId (this s) = w /\ tabId (this s) = t1) true);
        try done; [|by right].
      intros s' e _ Hk (Hc & Hw & Ht). simpl. split; [|done].
      rewrite lookup_insert_ne; [done|]. rewrite Hw, Ht. intros Heq.
      apply Hne. symmetry. apply tab_string_inj.
      unfold cache_key in Heq. by apply append_cancel_l, append_cancel_l in Heq. }
    destruct Hinv as (Hc & Hw & Ht).
    rewrite _getCellRows_eq. cbv zeta. simpl. rewrite Hw, Hc.
    eexists. split; reflexivity.
Qed.

Lemma cache_key_isolation_witness :
  cache_key (Some "od6"%string) 1 <> cache_key (Some "od6"%string) 2 /\
  ("od6"%string = "od6"%string /\ 1 = 1) /\
  exists s2, _getCellRows
      (set_this (with_tabId 2 (this (final (dispatch (Response cellrowsajax sample_rows) fresh_state))))
         (final (dispatch (Response cellrowsajax sample_rows) fresh_state))) = Ok tt s2.
Proof.
  split; [|split].
  - apply (proj1 cache_key_isolation). lia.
  - apply (proj1 (proj2 cache_key_isolation) "od6"%string "od6"%string 1 1); reflexivity.
  - destruct (proj2 (proj2 cache_key_isolation) fresh_state sample_rows 2) as (s2 & H & _);
      [simpl; lia | reflexivity | by exists s2].
Defined.


Lemma sequenced_nil : sequenced [].
Proof. intros n o H. by rewrite lookup_nil in H. Qed.

Lemma sequenced_snoc l o : sequenced l -> in_order l o -> sequenced (l ++ [o]).
Proof.
  intros Hl Ho n o' Hn. destruct (decide (n < length l)%nat) as [Hlt|Hge].
  - rewrite lookup_app_l in Hn by exact Hlt. rewrite take_app_le by lia. by apply Hl.
  - rewrite lookup_app_r in Hn by lia.
    destruct (n - length l)%nat as [|k] eqn:Hk; [|by destruct k].
    injection Hn as <-. assert (n = length l) as -> by lia.
    by rewrite take_app_length.
Qed.

Lemma in_order_mono l ext o : movable o -> in_order l o -> in_order (l ++ ext) o.
Proof.
  destruct o as [tok|r|a|t d v]; simpl; try done.
  - unfold request_in_order. destruct (req_ajax r); try done.
    + intros _ H. apply elem_of_app. by left.
    + intros _ (r' & H & Ha). exists r'. split; [|done]. apply elem_of_app. by left.
  - intros _ (r & H & Ha). exists r. split; [|done]. apply elem_of_app. by left.
Qed.

Lemma sequenced_app l ext :
  sequenced l -> Forall (fun o => movable o /\ in_order l o) ext -> sequenced (l ++ ext).
Proof.
  revert l. induction ext as [|o ext IH]; intros l Hl Hext.
  - by rewrite app_nil_r.
  - inversion Hext as [|? ? [Hm Ho] Hext']; subst.
    rewrite (cons_middle o l ext), app_assoc. apply IH; [by apply sequenced_snoc|].
    eapply Forall_impl; [exact Hext'|]. intros o' [Hm' Ho']. split; [done|].
    by apply in_order_mono.
Qed.

Lemma requests_on_pos a l :
  (0 < requests_on a l)%nat -> exists r, Requested r ∈ l /\ req_ajax r = a.
Proof.
  unfold requests_on. induction l as [|o l IH]; simpl; [lia|].
  destruct (is_request_on a o) eqn:Ho.
  - intros _. destruct o as [|r| |]; try discriminate Ho. simpl in Ho.
    apply bool_decide_eq_true in Ho. exists r. split; [left|done].
  - intros H. destruct (IH H) as (r & Hr & Ha). exists r. split; [by right|done].
Qed.

Lemma sequenced_no_public l r : sequenced l -> Requested r ∈ l -> req_ajax r <> publicajax.
Proof.
  intros Hl Hr Ha. apply list_elem_of_lookup in Hr as [n Hn].
  specialize (Hl _ _ Hn). simpl in Hl. unfold request_in_order in Hl. by rewrite Ha in Hl.
Qed.

(** [emits] ignores everything but the trace. *)
Lemma emits_start l0 A s : log s = l0 -> emits l0 A s.
Proof. intros <-. exists []. by rewrite app_nil_r. Qed.

Lemma emits_log l0 (A : obs -> Prop) s o : A o -> emits l0 A s -> emits l0 A (add_log o s).
Proof.
  intros Ho (ext & Hlog & Hext). exists (ext ++ [o]). simpl. rewrite Hlog, app_assoc.
  split; [done|]. apply Forall_app. split; [done|]. by constructor.
Qed.

Lemma emits_same l0 A s s' : log s' = log s -> emits l0 A s -> emits l0 A s'.
Proof. intros Heq (ext & Hlog & Hext). exists ext. by rewrite Heq. Qed.

(** *** The three invariants of the private flow *)

Lemma resolve_requested w :
  inv worksheet_requested (update_this (with_worksheetId w) ;; _getWorksheet).
Proof.
  intros s _. unfold bind, update_this, modify. rewrite _getWorksheet_eq. cbv zeta. simpl.
  destruct (wid_truthy w) eqn:Hw; simpl.
  - intros _. eexists. split; [apply elem_of_app; right; left | reflexivity].
  - intros Ht. simpl in Ht. congruence.
Qed.

Lemma worksheet_requested_kept ev s :
  worksheet_requested s -> worksheet_requested (final (dispatch ev s)).
Proof.
  apply (inv_dispatch worksheet_requested true); try done.
  - apply resolve_requested.
  - intros s' o Hs' Ht. destruct (Hs' Ht) as (r & Hr & Ha).
    exists r. split; [|done]. apply elem_of_app. by left.
Qed.

Lemma published_kept ev s :
  ev <> PublishedChanged true -> published (this s) = false ->
  published (this (final (dispatch ev s))) = false.
Proof.
  intros Hev. set (J := fun s => published (this s) = false).
  assert (Hurl : forall s a u, J s ->
    J (set_this (with_ajax a {| url := u; headers := headers (get_ajax a (this s)) |}
                   (this s)) s)) by done.
  assert (Hlog : forall s o, J s -> J (add_log o s)) by done.
  change (J s -> J (final (dispatch ev s))). revert s. change (inv J (dispatch ev)).
  destruct ev as [k|n|b|c|tok| |a body].
  - cbn [dispatch]. apply inv_bind; [by apply inv_modify|intros _].
    by apply inv__keyChanged_any.
  - cbn [dispatch]. apply inv_bind; [by apply inv_modify|intros _]. by apply inv__configUpdate.
  - cbn [dispatch]. destruct b; [done|].
    apply inv_bind; [by apply inv_modify|intros _]. by apply inv__configUpdate.
  - cbn [dispatch]. apply inv_bind; [by apply inv_modify|intros _]. by apply inv__configUpdate.
  - by apply inv_signin_event.
  - apply inv_ret.
  - apply (inv_response J true); try done.
    intros w. by apply (inv_resolve _ (fun _ => True)).
Qed.

(** What the response handlers add to the trace. *)
Lemma list_response_emits e s :
  emits (log s) (fired_or_request worksheetajax) (final (_onSpreadsheetList e s)).
Proof.
  apply (inv__onSpreadsheetList (emits (log s) (fired_or_request worksheetajax)));
    try (intros; by eapply emits_same; [|eassumption]).
  - intros s' t d v. by apply emits_log.
  - intros w. apply (inv_resolve _ (fun a => a = worksheetajax));
      try (intros; by eapply emits_same; [|eassumption]); [|done].
    intros s' r Hr. by apply emits_log.
  - by apply emits_start.
Qed.

Lemma worksheet_response_emits e s :
  emits (log s) (fired_or_request cellrowsajax) (final (_onWorksheet e s)).
Proof.
  apply (inv__onWorksheet (emits (log s) (fired_or_request cellrowsajax)));
    try (intros; by eapply emits_same; [|eassumption]).
  - intros s' t d v. by apply emits_log.
  - apply (inv_rows_request _ (fun a => a = cellrowsajax));
      try (intros; by eapply emits_same; [|eassumption]); [|done].
    intros s' r Hr. by apply emits_log.
  - by apply emits_start.
Qed.

Lemma rows_response_emits e s :
  emits (log s) is_fired (final (_onCellRows e s)).
Proof.
  apply (inv__onCellRows (emits (log s) is_fired));
    try (intros; by eapply emits_same; [|eassumption]).
  - intros s' t d v. by apply emits_log.
  - intros feed. apply inv_cache_feed; intros; by eapply emits_same; [|eassumption].
  - by apply emits_start.
Qed.

Lemma sequenced_emitted l ext (A : obs -> Prop) :
  sequenced l -> Forall A ext -> (forall o, A o -> movable o /\ in_order l o) ->
  sequenced (l ++ ext).
Proof.
  intros Hl Hext HA. apply sequenced_app; [done|]. eapply Forall_impl; [exact Hext|]. done.
Qed.

(** One event of the private flow keeps the trace in order. *)
Lemma sequenced_step ev s s' :
  ev <> PublishedChanged true ->
  published (this s) = false -> worksheet_requested s -> sequenced (log s) ->
  step ev s = Some s' -> sequenced (log s').
Proof.
  intros Hev Hp Hw Hseq Hstep. unfold step in Hstep.
  destruct (enabled ev s) eqn:Hen; [|discriminate]. injection Hstep as <-.
  assert (Hconfig : forall s1, published (this s1) = false -> worksheet_requested s1 ->
            sequenced (log s1) -> sequenced (log (final (_configUpdate s1)))).
  { intros s1 Hp1 Hw1 Hseq1. unfold _configUpdate. rewrite _tabIdChanged_eq, Hp1.
    destruct (wid_truthy _) eqn:Ht; [|done].
    rewrite _getCellRows_eq. cbv zeta. destruct (rowDataCache_ s1 !! _); [done|].
    simpl. apply sequenced_snoc; [done|]. simpl. unfold request_in_order. simpl.
    by apply Hw1. }
  destruct ev as [k|n|b|c|tok| |a body]; cbn [dispatch].
  - unfold bind, update_this, modify. rewrite _keyChanged_eq. simpl. by rewrite Hp.
  - unfold bind at 1, update_this, modify. by apply Hconfig.
  - destruct b; [done|]. unfold bind at 1, update_this, modify. by apply Hconfig.
  - unfold bind at 1, update_this, modify. by apply Hconfig.
  - change (sequenced ((log s ++ [SignedIn tok]) ++ [Requested (list_request tok)])).
    apply (sequenced_snoc (log s ++ [SignedIn tok])).
    + by apply sequenced_snoc.
    + simpl. unfold request_in_order. simpl. exists tok. by rewrite last_snoc.
  - done.
  - simpl in Hen. apply bool_decide_eq_true in Hen.
    destruct (requests_on_pos a (log s) ltac:(lia)) as (r0 & Hr0 & Ha0).
    assert (Hseq1 : sequenced (log s ++ [Delivered a])).
    { apply sequenced_snoc; [done|]. simpl. eauto. }
    change (sequenced (log (final (dispatch (Response a body) s)))).
    rewrite dispatch_response.
    set (s1 := set_heap _ (add_log (Delivered a) s)).
    set (e := EvResponse _).
    change (log s ++ [Delivered a]) with (log s1) in Hseq1.
    destruct a; cbn [on_response].
    + by destruct (sequenced_no_public _ _ Hseq Hr0).
    + destruct (list_response_emits e s1) as (ext & -> & Hext).
      eapply sequenced_emitted; [done|exact Hext|].
      intros [| r | |] Ho; try done. simpl in Ho. split; simpl.
      * by rewrite Ho.
      * unfold request_in_order. rewrite Ho. subst s1. simpl.
        apply elem_of_app. right. left.
    + destruct (worksheet_response_emits e s1) as (ext & -> & Hext).
      eapply sequenced_emitted; [done|exact Hext|].
      intros [| r | |] Ho; try done. simpl in Ho. split; simpl.
      * by rewrite Ho.
      * unfold request_in_order. rewrite Ho. subst s1. simpl.
        exists r0. split; [|done]. apply elem_of_app. by left.
    + destruct (rows_response_emits e s1) as (ext & -> & Hext).
      eapply sequenced_emitted; [done|exact Hext|].
      by intros [| r | |] Ho.
Qed.

Lemma sequenced_run evs : forall s s',
  Forall (fun ev => ev <> PublishedChanged true) evs ->
  published (this s) = false -> worksheet_requested s -> sequenced (log s) ->
  run evs s = Some s' -> sequenced (log s').
Proof.
  induction evs as [|ev evs IH]; intros s s' Hevs Hp Hw Hseq Hrun.
  - by injection Hrun as <-.
  - inversion Hevs as [|? ? Hev Hevs']; subst. cbn [run] in Hrun.
    destruct (step ev s) as [s1|] eqn:Hstep; [|discriminate].
    assert (s1 = final (dispatch ev s)) as Hs1.
    { unfold step in Hstep. destruct (enabled ev s); congruence. }
    apply (IH s1 s'); try done.
    + subst s1. by apply published_kept.
    + subst s1. by apply worksheet_requested_kept.
    + by apply (sequenced_step ev s).
Qed.


(** *** Shapes of data on the heap *)

Lemma js_get_has_field h v name x : has_field h v name x -> js_get h v name = Some x.
Proof. intros (l & o & -> & Hl & Hx). simpl. by rewrite Hl, Hx. Qed.

Lemma get_prop_has_field s v name x :
  has_field (heap s) v name x -> get_prop v name s = Ok x s.
Proof. intros H. unfold get_prop, lift_option. by rewrite (js_get_has_field _ _ _ _ H). Qed.

Lemma has_field_app h ext v name x : has_field h v name x -> has_field (h ++ ext) v name x.
Proof.
  intros (l & o & -> & Hl & Hx). exists l, o. split; [done|]. split; [|done].
  by apply lookup_app_l_Some.
Qed.

Lemma wrapped_field_app h ext v name x :
  wrapped_field h v name x -> wrapped_field (h ++ ext) v name x.
Proof. intros (m & H1 & H2). exists m. split; by apply has_field_app. Qed.

Lemma author_entry_app h ext a p : author_entry h a p -> author_entry (h ++ ext) a p.
Proof. intros [H1 H2]. split; by apply wrapped_field_app. Qed.

Lemma pair_object_app h ext v p : pair_object h v p -> pair_object (h ++ ext) v p.
Proof. intros (l & -> & Hl). exists l. split; [done|]. by apply lookup_app_l_Some. Qed.

(** The assignment [root.name = x] on the object at [l]. *)
Lemma has_field_put_same h l name x :
  is_Some (h !! l) -> has_field (heap_put h l name x) (VRef l) name x.
Proof.
  intros [o Hl]. unfold heap_put. rewrite Hl. eexists l, _. split; [done|]. split.
  - apply list_lookup_insert_eq. by eapply lookup_lt_Some.
  - simpl. apply lookup_insert_eq.
Qed.

Lemma has_field_put_other h l name x v name' y :
  name' <> name -> has_field h v name' y -> has_field (heap_put h l name x) v name' y.
Proof.
  intros Hne (l' & o' & -> & Hl' & Hy). unfold heap_put.
  destruct (h !! l) as [o|] eqn:Hl; [|by exists l', o'].
  destruct (decide (l' = l)) as [->|Hll].
  - eexists l, _. split; [done|]. split.
    + apply list_lookup_insert_eq. by eapply lookup_lt_Some.
    + simpl. rewrite lookup_insert_ne by done.
      rewrite Hl in Hl'. by injection Hl' as ->.
  - exists l', o'. split; [done|]. split; [|done]. by rewrite list_lookup_insert_ne.
Qed.

Lemma wrapped_field_put_other h l name x v name' y :
  name' <> name -> name <> "$t"%string -> wrapped_field h v name' y ->
  wrapped_field (heap_put h l name x) v name' y.
Proof.
  intros Hne Ht (m & H1 & H2). exists m. split; by apply has_field_put_other.
Qed.

Lemma heap_put_lookup_ne h l name x l' :
  l' <> l -> heap_put h l name x !! l' = h !! l'.
Proof.
  intros Hne. unfold heap_put. destruct (h !! l); [|done]. by rewrite list_lookup_insert_ne.
Qed.

Lemma heap_put_is_Some h l name x l' :
  is_Some (h !! l') -> is_Some (heap_put h l name x !! l').
Proof.
  intros [o' Hl']. unfold heap_put. destruct (h !! l) as [o|] eqn:Hl; [|by exists o'].
  destruct (decide (l' = l)) as [->|Hne].
  - eexists. apply list_lookup_insert_eq. by eapply lookup_lt_Some.
  - exists o'. by rewrite list_lookup_insert_ne.
Qed.

Lemma frame_refl l0 h : frame l0 h h.
Proof. by intros l o. Qed.

Lemma frame_trans l0 h1 h2 h3 : frame l0 h1 h2 -> frame l0 h2 h3 -> frame l0 h1 h3.
Proof. intros H1 H2 l o Hl Ho. by apply H2, H1. Qed.

Lemma frame_app l0 h ext : frame l0 h (h ++ ext).
Proof. intros l o _ Ho. by apply lookup_app_l_Some. Qed.

Lemma frame_put l0 h name x : frame l0 h (heap_put h l0 name x).
Proof. intros l o Hne Ho. by rewrite heap_put_lookup_ne. Qed.

Lemma pair_object_frame l0 h h' v p :
  frame l0 h h' -> (forall l, v = VRef l -> l <> l0) -> pair_object h v p -> pair_object h' v p.
Proof.
  intros Hf Hv (l & -> & Hl). exists l. split; [done|]. apply Hf; [|done]. by apply Hv.
Qed.

Lemma pair_object_above_frame n l0 h h' v p :
  frame l0 h h' -> (l0 < n)%nat -> pair_object_above n h v p -> pair_object h' v p.
Proof.
  intros Hf Hlt (l & -> & Hn & Hl). exists l. split; [done|]. apply Hf; [lia|done].
Qed.

Lemma pair_list_above_frame n l0 h h' v ps :
  frame l0 h h' -> (l0 < n)%nat -> pair_list_above n h v ps -> pair_list h' v ps.
Proof.
  intros Hf Hlt (l & elems & -> & Hn & Hl & Hall). exists l, elems.
  split; [done|]. split; [apply Hf; [lia|done]|].
  eapply Forall2_impl; [exact Hall|]. intros v p. by apply (pair_object_above_frame n l0 h).
Qed.

Lemma pair_object_above_app n h ext v p :
  pair_object_above n h v p -> pair_object_above n (h ++ ext) v p.
Proof.
  intros (l & -> & Hn & Hl). exists l. split; [done|]. split; [done|].
  by apply lookup_app_l_Some.
Qed.

(** *** The steps of the projection *)

Lemma path2_wrapped prop a s l0 x :
  prop (this s) = VRef l0 -> wrapped_field (heap s) (VRef l0) a x ->
  path2 prop a "$t" s = Ok x s.
Proof.
  intros Hp (m & H1 & H2). unfold path2, bind, this_, gets. rewrite Hp.
  by rewrite (get_prop_has_field _ _ _ _ H1), (get_prop_has_field _ _ _ _ H2).
Qed.

Lemma heap_set_heap h s : heap (set_heap h s) = h.
Proof. reflexivity. Qed.

Lemma set_heap_set_heap h h' s : set_heap h (set_heap h' s) = set_heap h s.
Proof. reflexivity. Qed.

Lemma new_eq o s : new o s = Ok (VRef (length (heap s))) (set_heap (heap s ++ [o]) s).
Proof. reflexivity. Qed.

Lemma put_prop_ref s l name x :
  put_prop (VRef l) name x s = Ok tt (set_heap (heap_put (heap s) l name x) s).
Proof. reflexivity. Qed.

Lemma polymer_set_ref prop s l name x :
  prop (this s) = VRef l ->
  polymer_set prop name x s = Ok tt (set_heap (heap_put (heap s) l name x) s).
Proof. intros Hp. unfold polymer_set, bind, this_, gets. by rewrite Hp. Qed.

Lemma author_pair_spec s a p :
  author_entry (heap s) a p ->
  author_pair a s =
    Ok (VRef (length (heap s)))
       (set_heap (heap s ++ [plain (<["email"%string := p.1]> (<["name"%string := p.2]> ∅))]) s).
Proof.
  intros [(m1 & H1 & H1') (m2 & H2 & H2')]. unfold author_pair, bind.
  rewrite (get_prop_has_field _ _ _ _ H1), (get_prop_has_field _ _ _ _ H1').
  by rewrite (get_prop_has_field _ _ _ _ H2), (get_prop_has_field _ _ _ _ H2').
Qed.

Lemma map_M_author_spec elems ps : forall s,
  Forall2 (author_entry (heap s)) elems ps ->
  exists ext vs, map_M author_pair elems s = Ok vs (set_heap (heap s ++ ext) s) /\
    Forall2 (pair_object_above (length (heap s)) (heap s ++ ext)) vs ps.
Proof.
  intros s H. revert s H.
  induction elems as [|a elems IH] in ps |- *; intros s H.
  - inversion H; subst. exists [], []. rewrite app_nil_r. split; [by destruct s|constructor].
  - inversion H as [|? p ? ps' Ha Hrest]; subst. cbn [map_M]. unfold bind at 1.
    rewrite (author_pair_spec _ _ _ Ha).
    set (o := plain _). set (s1 := set_heap (heap s ++ [o]) s).
    destruct (IH ps' s1) as (ext & vs & Hmap & Hvs).
    { eapply Forall2_impl; [exact Hrest|]. intros a' p'. apply author_entry_app. }
    unfold bind at 1. rewrite Hmap. exists (o :: ext), (VRef (length (heap s)) :: vs).
    subst s1. simpl in *. rewrite <- app_assoc in *. simpl in *.
    split; [reflexivity|]. constructor.
    + exists (length (heap s)). split; [done|]. split; [lia|].
      rewrite lookup_app_r by lia. by rewrite Nat.sub_diag.
    + eapply Forall2_impl; [exact Hvs|]. intros v p' (l & -> & Hn & Hl).
      exists l. split; [done|]. split; [|done]. rewrite length_app in Hn. simpl in Hn. lia.
Qed.

Lemma authors_of_spec prop s l0 av ps :
  prop (this s) = VRef l0 -> has_field (heap s) (VRef l0) "author" av ->
  author_list (heap s) av ps ->
  exists ext va, authors_of prop s = Ok va (set_heap (heap s ++ ext) s) /\
    pair_list_above (length (heap s)) (heap s ++ ext) va ps.
Proof.
  intros Hp Hav (la & oa & elems & -> & Hla & Hk & Hall).
  destruct (map_M_author_spec elems ps s Hall) as (ext & vs & Hmap & Hvs).
  exists (ext ++ [array vs]), (VRef (length (heap s ++ ext))).
  unfold authors_of, bind, this_, gets. rewrite Hp.
  rewrite (get_prop_has_field _ _ _ _ Hav). cbv beta iota. cbn [truthy].
  rewrite Hp, (get_prop_has_field _ _ _ _ Hav).
  unfold js_map, bind, gets. rewrite Hla. simpl. rewrite Hk, Hmap.
  unfold new, js_alloc. simpl. rewrite app_assoc. split; [reflexivity|].
  exists (length (heap s ++ ext)), vs. split; [done|].
  split; [rewrite length_app; lia|]. split.
  - rewrite lookup_app_r by lia. by rewrite Nat.sub_diag.
  - eapply Forall2_impl; [exact Hvs|]. intros v p. apply pair_object_above_app.
Qed.

(** The three [this.set] of an observer, followed by anything. *)
Lemma normalize_spec prop authors (rest : M unit) s l0 t u :
  prop (this s) = VRef l0 ->
  wrapped_field (heap s) (VRef l0) "title" t ->
  wrapped_field (heap s) (VRef l0) "updated" u ->
  exists h1 d,
    (t <- path2 prop "title" "$t" ;;
     polymer_set prop "title" t ;;
     u <- path2 prop "updated" "$t" ;;
     d <- new (date u) ;;
     polymer_set prop "updated" d ;;
     polymer_set prop "authors" authors ;;
     rest) s = rest (set_heap h1 s) /\
    has_field h1 (VRef l0) "title" t /\
    has_field h1 (VRef l0) "updated" d /\ date_of h1 d u /\
    has_field h1 (VRef l0) "authors" authors /\
    frame l0 (heap s) h1 /\
    (forall name y, name <> "title"%string -> name <> "updated"%string ->
       name <> "authors"%string ->
       wrapped_field (heap s) (VRef l0) name y -> wrapped_field h1 (VRef l0) name y).
Proof.
  intros Hp Ht Hu.
  assert (Hl0 : is_Some (heap s !! l0)).
  { destruct Ht as (m & (l & o & [= <-] & Hl & _) & _). eauto. }
  set (h1 := heap_put (heap s) l0 "title" t).
  set (h2 := h1 ++ [date u]).
  set (d := VRef (length h1)).
  set (h3 := heap_put h2 l0 "updated" d).
  set (h4 := heap_put h3 l0 "authors" authors).
  assert (Hlt : (l0 < length h1)%nat).
  { apply lookup_lt_is_Some. by apply heap_put_is_Some. }
  exists h4, d. split; [|split; [|split; [|split; [|split; [|split]]]]].
  - unfold bind at 1. rewrite (path2_wrapped prop "title" s l0 t Hp Ht).
    unfold bind at 1. rewrite (polymer_set_ref prop s l0 "title" t Hp). fold h1.
    unfold bind at 1. rewrite (path2_wrapped prop "updated" (set_heap h1 s) l0 u Hp).
    2:{ rewrite heap_set_heap. by apply wrapped_field_put_other. }
    unfold bind at 1. rewrite new_eq, set_heap_set_heap, heap_set_heap. fold h2 d.
    unfold bind at 1. rewrite (polymer_set_ref prop (set_heap h2 s) l0 "updated" d Hp).
    rewrite set_heap_set_heap, heap_set_heap. fold h3.
    unfold bind at 1. rewrite (polymer_set_ref prop (set_heap h3 s) l0 "authors" authors Hp).
    by rewrite set_heap_set_heap, heap_set_heap.
  - do 2 (apply has_field_put_other; [done|]). apply has_field_app.
    by apply has_field_put_same.
  - apply has_field_put_other; [done|]. apply has_field_put_same.
    apply lookup_lt_is_Some. subst h2. rewrite length_app. lia.
  - exists (length h1). split; [done|]. subst h4 h3.
    rewrite !heap_put_lookup_ne by lia. subst h2.
    rewrite lookup_app_r by lia. by rewrite Nat.sub_diag.
  - apply has_field_put_same. apply heap_put_is_Some.
    apply lookup_lt_is_Some. subst h2. rewrite length_app. lia.
  - eapply frame_trans; [apply frame_put|]. eapply frame_trans; [apply frame_app|].
    eapply frame_trans; apply frame_put.
  - intros name y H1 H2 H3 Hw. do 2 (apply wrapped_field_put_other; [done|done|]).
    apply wrapped_field_app. by apply wrapped_field_put_other.
Qed.

Lemma bind_this {A B} (f : element -> A) (k : A -> M B) s :
  bind (this_ f) k s = k (f (this s)) s.
Proof. reflexivity. Qed.

Lemma bind_get_prop {B} v name x (k : jsval -> M B) s :
  has_field (heap s) v name x -> bind (get_prop v name) k s = k x s.
Proof. intros H. unfold bind. by rewrite (get_prop_has_field _ _ _ _ H). Qed.

Lemma resolve_worksheet_heap s : heap (final (resolve_worksheet s)) = heap s.
Proof.
  set (J := fun s' => heap s' = heap s). change (J (final (resolve_worksheet s))).
  assert (HJ : inv J resolve_worksheet); [|by apply HJ].
  unfold resolve_worksheet. apply inv_bind; [auto with inv|intros id].
  assert (Hresolve : forall w, inv J (update_this (with_worksheetId w) ;; _getWorksheet)).
  { intros w. by apply (inv_resolve _ (fun _ => True)). }
  destruct id; try (by intros s' Hs'). apply Hresolve.
Qed.

(** The projection of a sheet with wrapped title and timestamp and a list of
    authors. *)
Lemma _sheetChanged_projects s l0 t u av ps :
  sheet (this s) = VRef l0 ->
  wrapped_field (heap s) (VRef l0) "title" t ->
  wrapped_field (heap s) (VRef l0) "updated" u ->
  has_field (heap s) (VRef l0) "author" av -> author_list (heap s) av ps ->
  exists h1 d va,
    _sheetChanged s = resolve_worksheet (set_heap h1 s) /\
    has_field h1 (VRef l0) "title" t /\
    has_field h1 (VRef l0) "updated" d /\ date_of h1 d u /\
    has_field h1 (VRef l0) "authors" va /\ pair_list h1 va ps /\
    (forall name y, name <> "title"%string -> name <> "updated"%string ->
       name <> "authors"%string ->
       wrapped_field (heap s) (VRef l0) name y -> wrapped_field h1 (VRef l0) name y).
Proof.
  intros Hp Ht Hu Hav Hps.
  destruct (authors_of_spec sheet s l0 av ps Hp Hav Hps) as (ext & va & Hauthors & Hva).
  destruct (normalize_spec sheet va resolve_worksheet (set_heap (heap s ++ ext) s) l0 t u Hp)
    as (h1 & d & Hnorm & H1 & H2 & H3 & H4 & Hframe & Hother).
  { by apply wrapped_field_app. } { by apply wrapped_field_app. }
  exists h1, d, va. split; [|split; [done|split; [done|split; [done|split; [done|split]]]]].
  - unfold _sheetChanged. rewrite bind_this, Hp.
    destruct Ht as (m & Hm & Hm'). rewrite (bind_get_prop _ _ _ _ _ Hm).
    destruct Hm' as (lm & om & -> & _). cbn [truthy negb].
    unfold bind at 1. rewrite Hauthors. exact Hnorm.
  - eapply pair_list_above_frame; [exact Hframe| |exact Hva].
    destruct Hav as (l & o & [= <-] & Hl & _). by eapply lookup_lt_Some.
  - intros name y N1 N2 N3 Hw. apply Hother; try done. by apply wrapped_field_app.
Qed.

(** The same for a tab; the observer then fires its event. *)
Lemma _tabChanged_projects s l0 t u av ps :
  tab (this s) = VRef l0 ->
  wrapped_field (heap s) (VRef l0) "title" t ->
  wrapped_field (heap s) (VRef l0) "updated" u ->
  has_field (heap s) (VRef l0) "author" av -> author_list (heap s) av ps ->
  exists h1 d va,
    _tabChanged s = Ok tt (add_log (Fired "google-sheet-data" "tab" (VRef l0)) (set_heap h1 s)) /\
    has_field h1 (VRef l0) "title" t /\
    has_field h1 (VRef l0) "updated" d /\ date_of h1 d u /\
    has_field h1 (VRef l0) "authors" va /\ pair_list h1 va ps.
Proof.
  intros Hp Ht Hu Hav Hps.
  destruct (authors_of_spec tab s l0 av ps Hp Hav Hps) as (ext & va & Hauthors & Hva).
  set (h0 := heap_put (heap s ++ ext) l0 "authors" va).
  destruct (normalize_spec tab va
              (data <- this_ tab ;; fire "google-sheet-data" "tab" data)
              (set_heap h0 s) l0 t u Hp)
    as (h1 & d & Hnorm & H1 & H2 & H3 & H4 & Hframe & _).
  { apply wrapped_field_put_other; [done|done|]. by apply wrapped_field_app. }
  { apply wrapped_field_put_other; [done|done|]. by apply wrapped_field_app. }
  exists h1, d, va. split; [|split; [done|split; [done|split; [done|split; [done|]]]]].
  - unfold _tabChanged. rewrite bind_this, Hp.
    destruct Ht as (m & Hm & Hm'). rewrite (bind_get_prop _ _ _ _ _ Hm).
    destruct Hm' as (lm & om & -> & _). cbn [truthy negb].
    rewrite bind_this, Hp. unfold bind at 1. rewrite Hauthors.
    unfold bind at 1. rewrite put_prop_ref, heap_set_heap, set_heap_set_heap. fold h0.
    rewrite Hnorm. rewrite set_heap_set_heap, bind_this. cbn [this set_heap].
    by rewrite Hp.
  - eapply pair_list_above_frame; [|  |exact Hva].
    + eapply frame_trans; [apply frame_put|exact Hframe].
    + destruct Hav as (l & o & [= <-] & Hl & _). by eapply lookup_lt_Some.
Qed.

Lemma _setTab_changed v s :
  tab (this s) <> v -> _setTab v s = _tabChanged (set_this (with_tab v (this s)) s).
Proof.
  intros Hne. unfold _setTab. rewrite bind_this.
  by rewrite bool_decide_eq_false_2 by exact Hne.
Qed.

Lemma _setSheet_changed v s :
  sheet (this s) <> v -> _setSheet v s = _sheetChanged (set_this (with_sheet v (this s)) s).
Proof.
  intros Hne. unfold _setSheet. rewrite bind_this.
  by rewrite bool_decide_eq_false_2 by exact Hne.
Qed.

Lemma author_list_app h ext av ps : author_list h av ps -> author_list (h ++ ext) av ps.
Proof.
  intros (l & o & elems & -> & Hl & Hk & Hall). exists l, o, elems.
  split; [done|]. split; [by apply lookup_app_l_Some|]. split; [done|].
  eapply Forall2_impl; [exact Hall|]. intros a p. apply author_entry_app.
Qed.

Lemma author_list_put h l x av ps :
  author_list h av ps -> author_list (heap_put h l "authors" x) av ps.
Proof.
  intros (la & o & elems & -> & Hla & Hk & Hall).
  assert (Hall' : Forall2 (author_entry (heap_put h l "authors" x)) elems ps).
  { eapply Forall2_impl; [exact Hall|]. intros a p [H1 H2].
    split; by apply wrapped_field_put_other. }
  destruct (decide (la = l)) as [->|Hne].
  - exists l, {| kind := kind o; props := <["authors"%string := x]> (props o) |}, elems.
    split; [done|]. split; [|by split].
    unfold heap_put. rewrite Hla. apply list_lookup_insert_eq. by eapply lookup_lt_Some.
  - exists la, o, elems. split; [done|]. split; [|by split].
    by rewrite heap_put_lookup_ne.
Qed.

Lemma tab_data_app h ext v t u ps : tab_data h v t u ps -> tab_data (h ++ ext) v t u ps.
Proof.
  intros (Ht & Hu & av & Hav & Hps). split; [by apply wrapped_field_app|].
  split; [by apply wrapped_field_app|]. exists av.
  split; [by apply has_field_app | by apply author_list_app].
Qed.

Lemma tab_data_put h l x v t u ps :
  tab_data h v t u ps -> tab_data (heap_put h l "authors" x) v t u ps.
Proof.
  intros (Ht & Hu & av & Hav & Hps). split; [by apply wrapped_field_put_other|].
  split; [by apply wrapped_field_put_other|]. exists av.
  split; [by apply has_field_put_other | by apply author_list_put].
Qed.

Lemma _tabChanged_data s l0 t u ps :
  tab (this s) = VRef l0 -> tab_data (heap s) (VRef l0) t u ps ->
  exists h1, _tabChanged s =
      Ok tt (add_log (Fired "google-sheet-data" "tab" (VRef l0)) (set_heap h1 s)) /\
    projected h1 (VRef l0) t u ps.
Proof.
  intros Hp (Ht & Hu & av & Hav & Hps).
  destruct (_tabChanged_projects s l0 t u av ps Hp Ht Hu Hav Hps)
    as (h1 & d & va & Heq & H1 & H2 & H3 & H4 & H5).
  exists h1. split; [done|]. split; [done|]. split; eauto.
Qed.

(** The private path: the worksheet response. *)
Lemma _onWorksheet_projects s r l0 t u ps :
  has_field (heap s) r "entry" (VRef l0) -> tab (this s) <> VRef l0 ->
  tab_data (heap s) (VRef l0) t u ps ->
  exists h1, let s1 := add_log (Fired "google-sheet-data" "tab" (VRef l0))
                         (set_heap h1 (set_this (with_tab (VRef l0) (this s)) s)) in
    _onWorksheet (EvResponse r) s = _getCellRows s1 /\ projected h1 (VRef l0) t u ps.
Proof.
  intros Hentry Hne Hdata.
  destruct (_tabChanged_data (set_this (with_tab (VRef l0) (this s)) s) l0 t u ps eq_refl Hdata)
    as (h1 & Heq & Hproj).
  exists h1. split; [|done].
  unfold _onWorksheet, stopPropagation, target_lastResponse.
  unfold bind at 1. unfold ret at 1. unfold bind at 1. unfold ret at 1.
  rewrite (bind_get_prop _ _ _ _ _ Hentry).
  unfold bind at 1. by rewrite (_setTab_changed _ _ Hne), Heq.
Qed.

Lemma js_map_author_spec s av ps :
  author_list (heap s) av ps ->
  exists ext va, js_map author_pair av s = Ok va (set_heap (heap s ++ ext) s) /\
    pair_list_above (length (heap s)) (heap s ++ ext) va ps.
Proof.
  intros (la & oa & elems & -> & Hla & Hk & Hall).
  destruct (map_M_author_spec elems ps s Hall) as (ext & vs & Hmap & Hvs).
  exists (ext ++ [array vs]), (VRef (length (heap s ++ ext))).
  unfold js_map, bind, gets. rewrite Hla. simpl. rewrite Hk, Hmap.
  unfold new, js_alloc. simpl. rewrite app_assoc. split; [reflexivity|].
  exists (length (heap s ++ ext)), vs. split; [done|].
  split; [rewrite length_app; lia|]. split.
  - rewrite lookup_app_r by lia. by rewrite Nat.sub_diag.
  - eapply Forall2_impl; [exact Hvs|]. intros v p. apply pair_object_above_app.
Qed.

(** The public path: the rest of [_onCellRows] when [published] is set and the
    feed, which is also the tab, has its rows in an object. *)
Lemma publish_rows_projects s lf le t u ps :
  published (this s) = true -> tab (this s) <> VRef lf ->
  has_field (heap s) (VRef lf) "entry" (VRef le) ->
  tab_data (heap s) (VRef lf) t u ps ->
  exists s', publish_rows (VRef lf) s = Ok tt s' /\ projected (heap s') (VRef lf) t u ps /\
    tab (this s') = VRef lf /\ rows (this s') = VRef le.
Proof.
  intros Hpub Hne Hentry Hdata.
  pose proof Hdata as (_ & _ & av & Hav & Hps).
  unfold publish_rows. rewrite (bind_get_prop _ _ _ _ _ Hentry).
  unfold bind at 1, _setRows, update_this, modify.
  set (s2 := set_this (with_rows (VRef le) (this s)) s).
  change (heap s) with (heap s2) in Hav, Hps, Hdata.
  rewrite (bind_get_prop _ _ _ _ _ Hav).
  destruct Hps as (la & oa & elems & -> & Hps). cbn [truthy].
  assert (Hps' : author_list (heap s2) (VRef la) ps) by (exists la, oa, elems; done).
  destruct (js_map_author_spec s2 (VRef la) ps Hps') as (ext & va & Hmap & Hva).
  unfold bind at 1. rewrite (bind_get_prop _ _ _ _ _ Hav), Hmap.
  unfold bind at 1.
  rewrite (polymer_set_ref rows (set_heap (heap s2 ++ ext) s2) le "authors" va eq_refl).
  rewrite heap_set_heap, set_heap_set_heap.
  set (h4 := heap_put (heap s2 ++ ext) le "authors" va).
  rewrite bind_this. change (published (this (set_heap h4 s2))) with (published (this s)).
  rewrite Hpub. unfold bind at 1. rewrite _setTab_changed by exact Hne.
  set (s5 := set_this _ _).
  destruct (_tabChanged_data s5 lf t u ps eq_refl) as (h1 & Heq & Hproj).
  { change (heap s5) with h4. subst h4. by apply tab_data_put, tab_data_app. }
  rewrite Heq. eexists. split; [reflexivity|]. by split.
Qed.

Lemma _onCellRows_projects s r lf le t u ps :
  published (this s) = true -> tab (this s) <> VRef lf ->
  has_field (heap s) r "feed" (VRef lf) ->
  has_field (heap s) (VRef lf) "entry" (VRef le) ->
  tab_data (heap s) (VRef lf) t u ps ->
  exists s', _onCellRows (EvResponse r) s = Ok tt s' /\
    projected (heap s') (VRef lf) t u ps /\ tab (this s') = VRef lf.
Proof.
  intros Hpub Hne Hfeed Hentry Hdata.
  rewrite (_onCellRows_response _ _ _ (js_get_has_field _ _ _ _ Hfeed)).
  unfold bind. rewrite cache_feed_eq. cbv zeta.
  destruct (rowDataCache_ s !! _).
  - destruct (publish_rows_projects s lf le t u ps Hpub Hne Hentry Hdata)
      as (s' & Heq & Hproj & Htab & _). by exists s'.
  - set (s1 := set_cache _ _).
    destruct (publish_rows_projects s1 lf le t u ps Hpub Hne) as (s' & Heq & Hproj & Htab & _).
    + subst s1. cbn [heap set_cache set_heap]. by apply has_field_app.
    + subst s1. cbn [heap set_cache set_heap]. by apply tab_data_app.
    + by exists s'.
Qed.

(** C8: a sheet or tab with wrapped title and timestamp and a list of authors
    comes out of its observer with [title] the unwrapped value, [updated] the
    [Date] of the unwrapped timestamp and [authors] the array of
    [{email, name}] in the order of the input; the worksheet response of the
    private flow and the row feed of the public flow both leave their tab
    projected in this way. *)
Theorem projection_correct :
  (forall s l0 title updated ps,
     sheet (this s) = VRef l0 ->
     tab_data (heap s) (VRef l0) (VStr title) (VStr updated) ps ->
     projected (heap (final (_sheetChanged s))) (VRef l0) (VStr title) (VStr updated) ps) /\
  (forall s l0 title updated ps,
     tab (this s) = VRef l0 ->
     tab_data (heap s) (VRef l0) (VStr title) (VStr updated) ps ->
     projected (heap (final (_tabChanged s))) (VRef l0) (VStr title) (VStr updated) ps) /\
  (forall s r l0 title updated ps,
     has_field (heap s) r "entry" (VRef l0) -> tab (this s) <> VRef l0 ->
     tab_data (heap s) (VRef l0) (VStr title) (VStr updated) ps ->
     let s' := final (_onWorksheet (EvResponse r) s) in
     tab (this s') = VRef l0 /\
     projected (heap s') (VRef l0) (VStr title) (VStr updated) ps) /\
  (forall s r lf le title updated ps,
     published (this s) = true ->
     has_field (heap s) r "feed" (VRef lf) -> tab (this s) <> VRef lf ->
     has_field (heap s) (VRef lf) "entry" (VRef le) ->
     tab_data (heap s) (VRef lf) (VStr title) (VStr updated) ps ->
     let s' := final (_onCellRows (EvResponse r) s) in
     tab (this s') = VRef lf /\
     projected (heap s') (VRef lf) (VStr title) (VStr updated) ps).
Proof.
  split; [|split; [|split]].
  - intros s l0 title updated ps Hp (Ht & Hu & av & Hav & Hps).
    destruct (_sheetChanged_projects s l0 _ _ av ps Hp Ht Hu Hav Hps)
      as (h1 & d & va & Heq & H1 & H2 & H3 & H4 & H5 & _).
    rewrite Heq, resolve_worksheet_heap. split; [done|]. split; eauto.
  - intros s l0 title updated ps Hp Hdata.
    destruct (_tabChanged_data s l0 _ _ ps Hp Hdata) as (h1 & Heq & Hproj).
    by rewrite Heq.
  - intros s r l0 title updated ps Hentry Hne Hdata s'.
    destruct (_onWorksheet_projects s r l0 _ _ ps Hentry Hne Hdata) as (h1 & Heq & Hproj).
    subst s'. cbv zeta in Heq. rewrite Heq, _getCellRows_eq. cbv zeta.
    by destruct (rowDataCache_ _ !! _).
  - intros s r lf le title updated ps Hpub Hfeed Hne Hentry Hdata s'.
    destruct (_onCellRows_projects s r lf le _ _ ps Hpub Hne Hfeed Hentry Hdata)
      as (s1 & Heq & Hproj & Htab).
    subst s'. by rewrite Heq.
Qed.


(** *** The steps of the private flow *)

Lemma reads_heap_lift {A} (f : JS.heap -> option A) :
  reads_heap (lift_option (fun s => f (heap s))).
Proof. intros s s' Hh. unfold lift_option. rewrite <- Hh. by destruct (f (heap s)). Qed.

Lemma reads_heap_ret {A} (a : A) : reads_heap (ret a).
Proof. by intros s s' _. Qed.

Lemma reads_heap_bind {A B} (m : M A) (k : A -> M B) :
  reads_heap m -> (forall a, reads_heap (k a)) -> reads_heap (bind m k).
Proof.
  intros Hm Hk s s' Hh. unfold bind. specialize (Hm s s' Hh).
  destruct (m s) as [a s1|e s1]; destruct Hm as [-> ->]; [|done]. by apply Hk.
Qed.

Lemma reads_heap_getLink_loop fuel rel links : forall i,
  reads_heap (getLink_loop fuel rel links i).
Proof.
  induction fuel as [|fuel IH]; intros i; cbn [getLink_loop]; [apply reads_heap_ret|].
  apply reads_heap_bind; [apply (reads_heap_lift (fun h => js_index h links i))|intros link].
  destruct (truthy link); [|apply reads_heap_ret].
  apply reads_heap_bind; [apply (reads_heap_lift (fun h => js_get h link "rel"))|intros r].
  destruct (bool_decide _); [apply reads_heap_ret|apply IH].
Qed.

Lemma reads_heap_getLink_ rel links : reads_heap (getLink_ rel links).
Proof.
  intros s s' Hh. unfold getLink_, bind, gets. rewrite <- Hh.
  by apply reads_heap_getLink_loop.
Qed.

Lemma getLink__same_heap rel links s s' v :
  heap s = heap s' -> getLink_ rel links s = Ok v s -> getLink_ rel links s' = Ok v s'.
Proof.
  intros Hh Hs. pose proof (reads_heap_getLink_ rel links s s' Hh) as H.
  rewrite Hs in H. by destruct H.
Qed.

(** One turn of the loop of [_onSpreadsheetList]. *)
Lemma find_sheet_turn fuel feed i s le o elems entry :
  has_field (heap s) feed "entry" (VRef le) ->
  heap s !! le = Some o -> kind o = KArray elems -> elems !! i = Some entry ->
  (links_to s entry (key (this s)) ->
     find_sheet (S fuel) feed i s = _setSheet entry s) /\
  (links_elsewhere s entry (key (this s)) ->
     find_sheet (S fuel) feed i s = find_sheet fuel feed (S i) s).
Proof.
  intros Hentries Hle Hk Hi.
  assert (Hidx : index (VRef le) i s = Ok entry s).
  { unfold index, lift_option. simpl. by rewrite Hle, Hk, Hi. }
  split.
  - intros (links & alt & href & Hlinks & Hget & Hhref & Hc).
    cbn [find_sheet]. rewrite (bind_get_prop _ _ _ _ _ Hentries).
    unfold bind at 1. rewrite Hidx.
    destruct Hlinks as (l & ol & -> & Hl). cbn [truthy].
    rewrite (bind_get_prop _ _ links); [|by exists l, ol].
    unfold bind at 1. rewrite Hget.
    destruct Hhref as (la & oa & -> & Hla). cbn [truthy].
    unfold bind at 1. unfold bind at 1. rewrite (get_prop_has_field _ _ "href" (VStr href));
      [|by exists la, oa].
    rewrite bind_this. unfold indexOf_found, ret. by rewrite Hc.
  - intros (links & alt & Hlinks & Hget & Halt).
    cbn [find_sheet]. rewrite (bind_get_prop _ _ _ _ _ Hentries).
    unfold bind at 1. rewrite Hidx.
    destruct Hlinks as (l & ol & -> & Hl). cbn [truthy].
    rewrite (bind_get_prop _ _ links); [|by exists l, ol].
    unfold bind at 1. rewrite Hget.
    destruct Halt as [Hfalse | (href & Hhref & Hc)].
    + rewrite Hfalse. reflexivity.
    + destruct Hhref as (la & oa & -> & Hla). cbn [truthy].
      unfold bind at 1. unfold bind at 1.
      rewrite (get_prop_has_field _ _ "href" (VStr href)); [|by exists la, oa].
      rewrite bind_this. unfold indexOf_found, ret. by rewrite Hc.
Qed.

Lemma find_sheet_finds feed s le o elems entry :
  has_field (heap s) feed "entry" (VRef le) ->
  heap s !! le = Some o -> kind o = KArray elems ->
  forall n i fuel, (n < fuel)%nat ->
    (forall j e, (i <= j < i + n)%nat -> elems !! j = Some e ->
       links_elsewhere s e (key (this s))) ->
    elems !! (i + n)%nat = Some entry -> links_to s entry (key (this s)) ->
    find_sheet fuel feed i s = _setSheet entry s.
Proof.
  intros Hentries Hle Hk. induction n as [|n IH]; intros i fuel Hfuel Hbefore Hi Hmatch.
  - destruct fuel as [|fuel]; [lia|]. rewrite Nat.add_0_r in Hi.
    by apply (find_sheet_turn fuel feed i s le o elems entry).
  - destruct fuel as [|fuel]; [lia|].
    assert (is_Some (elems !! i)) as [e He].
    { apply lookup_lt_is_Some. apply lookup_lt_Some in Hi. lia. }
    rewrite (proj2 (find_sheet_turn fuel feed i s le o elems e Hentries Hle Hk He)).
    + apply IH; [lia| |by replace (S i + n)%nat with (i + S n)%nat by lia|done].
      intros j e' Hj. apply Hbefore. lia.
    + apply (Hbefore i e); [lia|done].
Qed.

Lemma links_to_same_heap s s' entry k :
  heap s = heap s' -> links_to s entry k -> links_to s' entry k.
Proof.
  intros Hh (links & alt & href & H1 & H2 & H3 & H4). exists links, alt, href.
  rewrite <- Hh. split; [done|]. split; [|done]. by apply (getLink__same_heap _ _ s).
Qed.

Lemma links_elsewhere_same_heap s s' entry k :
  heap s = heap s' -> links_elsewhere s entry k -> links_elsewhere s' entry k.
Proof.
  intros Hh (links & alt & H1 & H2 & H3). exists links, alt.
  rewrite <- Hh. split; [done|]. split; [|done]. by apply (getLink__same_heap _ _ s).
Qed.

(** Worksheet resolution: the observer of a well-formed sheet whose feed id
    ends in a non-empty segment sets [_worksheetId] to that segment and
    requests the worksheet. *)
Lemma _sheetChanged_resolves s l0 t u ps ids :
  sheet (this s) = VRef l0 -> tab_data (heap s) (VRef l0) t u ps ->
  wrapped_field (heap s) (VRef l0) "id" (VStr ids) ->
  let w := List.last (split_slash ids) EmptyString in
  w <> EmptyString ->
  exists s', _sheetChanged s = Ok tt s' /\
    log s' = log s ++ [Requested (worksheet_request (Some w) (tabId (this s))
                                    (headers (worksheetajax_ (this s))))] /\
    _worksheetId (this s') = Some w /\ sheet (this s') = VRef l0.
Proof.
  intros Hp (Ht & Hu & av & Hav & Hps) Hid w Hw.
  destruct (_sheetChanged_projects s l0 t u av ps Hp Ht Hu Hav Hps)
    as (h1 & d & va & Heq & _ & _ & _ & _ & _ & Hother).
  rewrite Heq. unfold resolve_worksheet. unfold bind at 1.
  rewrite (path2_wrapped sheet "id" (set_heap h1 s) l0 (VStr ids) Hp); [|by apply Hother].
  unfold bind at 1, update_this, modify. rewrite _getWorksheet_eq. cbv zeta. simpl.
  fold w. rewrite bool_decide_eq_false_2 by exact Hw. simpl.
  eexists. split; [reflexivity|]. by repeat split.
Qed.

Lemma _onSpreadsheetList_resolves s r feed le o elems i l0 t u ps ids :
  has_field (heap s) r "feed" feed -> has_field (heap s) feed "entry" (VRef le) ->
  heap s !! le = Some o -> kind o = KArray elems ->
  key (this s) <> EmptyString ->
  (forall j e, (j < i)%nat -> elems !! j = Some e -> links_elsewhere s e (key (this s))) ->
  elems !! i = Some (VRef l0) -> links_to s (VRef l0) (key (this s)) ->
  sheet (this s) <> VRef l0 -> tab_data (heap s) (VRef l0) t u ps ->
  wrapped_field (heap s) (VRef l0) "id" (VStr ids) ->
  let w := List.last (split_slash ids) EmptyString in
  w <> EmptyString ->
  exists s', _onSpreadsheetList (EvResponse r) s = Ok tt s' /\
    log s' = log s ++ [Fired "google-sheet-data" "spreadsheets" (VRef le);
                       Requested (worksheet_request (Some w) (tabId (this s))
                                    (headers (worksheetajax_ (this s))))] /\
    _worksheetId (this s') = Some w /\ sheet (this s') = VRef l0.
Proof.
  intros Hfeed Hentries Hle Hk Hkey Hbefore Hi Hmatch Hne Hdata Hid w Hw.
  unfold _onSpreadsheetList, stopPropagation, target_lastResponse.
  unfold bind at 1. unfold ret at 1. unfold bind at 1. unfold ret at 1.
  rewrite (bind_get_prop _ _ _ _ _ Hfeed), (bind_get_prop _ _ _ _ _ Hentries).
  unfold bind at 1, _setSpreadsheets, update_this, modify.
  rewrite bind_this. unfold bind at 1, fire, modify.
  set (s1 := add_log _ _). rewrite bind_this.
  change (key (this s1)) with (key (this s)).
  rewrite bool_decide_eq_false_2 by exact Hkey.
  unfold bind at 1, gets. change (heap s1) with (heap s). simpl index_bound.
  rewrite Hle, Hk.
  rewrite (find_sheet_finds feed s1 le o elems (VRef l0) Hentries Hle Hk i 0%nat).
  - rewrite (_setSheet_changed _ s1) by exact Hne.
    destruct (_sheetChanged_resolves (set_this (with_sheet (VRef l0) (this s1)) s1)
                l0 t u ps ids eq_refl Hdata Hid Hw) as (s' & Heq & Hlog & Hwid & Hsheet).
    exists s'. split; [exact Heq|]. split; [|by split].
    rewrite Hlog. subst s1. simpl. by rewrite <- app_assoc.
  - apply lookup_lt_Some in Hi. lia.
  - intros j e Hj He. apply (links_elsewhere_same_heap s); [done|].
    apply (Hbefore j e); [lia|done].
  - exact Hi.
  - by apply (links_to_same_heap s).
Qed.

(** The row fetch that follows the worksheet response. *)
Lemma _onWorksheet_fetches s r l0 t u ps :
  has_field (heap s) r "entry" (VRef l0) -> tab (this s) <> VRef l0 ->
  tab_data (heap s) (VRef l0) t u ps ->
  rowDataCache_ s !! cache_key (_worksheetId (this s)) (tabId (this s)) = None ->
  exists s', _onWorksheet (EvResponse r) s = Ok tt s' /\
    log s' = log s ++ [Fired "google-sheet-data" "tab" (VRef l0);
                       Requested (rows_request (_worksheetId (this s)) (tabId (this s))
                                    (headers (cellrowsajax_ (this s))))].
Proof.
  intros Hentry Hne Hdata Hmiss.
  destruct (_onWorksheet_projects s r l0 t u ps Hentry Hne Hdata) as (h1 & Heq & _).
  cbv zeta in Heq. rewrite Heq, _getCellRows_eq. cbv zeta. simpl. rewrite Hmiss.
  eexists. split; [reflexivity|]. simpl. by rewrite <- app_assoc.
Qed.

(** C5: in the private flow a change of [key] sends nothing; a sign-in success
    sends the list request, with the bearer token; the list response whose
    first entry that links to the key is a well-formed sheet resolves the
    worksheet and requests it; the worksheet response fetches the rows; and
    in every run of an element that starts unpublished and is never published,
    every request is in that order: none before a sign-in, the worksheet
    request after a list response, a row request after a worksheet
    request, and no public request at all. *)
Theorem private_flow_sequencing :
  (forall s k, published (this s) = false ->
     dispatch (KeyChanged k) s = Ok tt (set_this (with_key k (this s)) s)) /\
  (forall s tok, exists s',
     dispatch (SignInSuccess tok) s = Ok tt s' /\
     log s' = log s ++ [SignedIn tok; Requested (list_request tok)] /\
     req_url (list_request tok) =
       "https://spreadsheets.google.com/feeds/spreadsheets/private/full"%string /\
     req_headers (list_request tok) = [("Authorization", "Bearer " +:+ tok)]%string) /\
  (forall s r feed le o elems i l0 t u ps ids,
     has_field (heap s) r "feed" feed -> has_field (heap s) feed "entry" (VRef le) ->
     heap s !! le = Some o -> kind o = KArray elems ->
     key (this s) <> EmptyString ->
     (forall j e, (j < i)%nat -> elems !! j = Some e -> links_elsewhere s e (key (this s))) ->
     elems !! i = Some (VRef l0) -> links_to s (VRef l0) (key (this s)) ->
     sheet (this s) <> VRef l0 -> tab_data (heap s) (VRef l0) t u ps ->
     wrapped_field (heap s) (VRef l0) "id" (VStr ids) ->
     let w := List.last (split_slash ids) EmptyString in
     w <> EmptyString ->
     exists s', _onSpreadsheetList (EvResponse r) s = Ok tt s' /\
       log s' = log s ++ [Fired "google-sheet-data" "spreadsheets" (VRef le);
                          Requested (worksheet_request (Some w) (tabId (this s))
                                       (headers (worksheetajax_ (this s))))] /\
       _worksheetId (this s') = Some w) /\
  (forall s r l0 t u ps,
     has_field (heap s) r "entry" (VRef l0) -> tab (this s) <> VRef l0 ->
     tab_data (heap s) (VRef l0) t u ps ->
     rowDataCache_ s !! cache_key (_worksheetId (this s)) (tabId (this s)) = None ->
     exists s', _onWorksheet (EvResponse r) s = Ok tt s' /\
       log s' = log s ++ [Fired "google-sheet-data" "tab" (VRef l0);
                          Requested (rows_request (_worksheetId (this s)) (tabId (this s))
                                       (headers (cellrowsajax_ (this s))))]) /\
  (forall evs s0 s,
     published (this s0) = false -> _worksheetId (this s0) = None -> log s0 = [] ->
     Forall (fun ev => ev <> PublishedChanged true) evs ->
     run evs s0 = Some s -> sequenced (log s)).
Proof.
  split; [|split; [|split; [|split]]].
  - intros s k Hp. cbn [dispatch]. unfold bind, update_this, modify.
    rewrite _keyChanged_eq. simpl. by rewrite Hp.
  - intros s tok. eexists. split; [reflexivity|]. simpl.
    rewrite <- app_assoc. by repeat split.
  - intros s r feed le o elems i l0 t u ps ids H1 H2 H3 H4 H5 H6 H7 H8 H9 H10 H11 w Hw.
    destruct (_onSpreadsheetList_resolves s r feed le o elems i l0 t u ps ids
                H1 H2 H3 H4 H5 H6 H7 H8 H9 H10 H11 Hw) as (s' & Ha & Hb & Hc & _).
    by exists s'.
  - intros s r l0 t u ps. apply _onWorksheet_fetches.
  - intros evs s0 s Hp Hw Hlog Hevs Hrun.
    apply (sequenced_run evs s0 s); try done.
    + intros Ht. by rewrite Hw in Ht.
    + rewrite Hlog. apply sequenced_nil.
Qed.


(** *** The scans never run out of fuel *)

Lemma index_key_inj (i j : nat) :
  numeral 10 (Z.of_nat i) = numeral 10 (Z.of_nat j) -> i = j.
Proof.
  intros H. pose proof (parseInt_decimal (Z.of_nat i) ltac:(lia)) as Hi.
  rewrite H, parseInt_decimal in Hi by lia. injection Hi. lia.
Qed.

(** A map that has the keys of [0 .. i-1] has at least [i] entries. *)
Lemma keys_below_size (m : gmap string jsval) : forall i,
  (forall j, (j < i)%nat -> is_Some (m !! numeral 10 (Z.of_nat j))) -> (i <= size m)%nat.
Proof.
  intros i. revert m. induction i as [|i IH]; intros m Hm; [lia|].
  destruct (Hm i ltac:(lia)) as [x Hx].
  assert (i <= size (delete (numeral 10 (Z.of_nat i)) m))%nat as Hle.
  { apply IH. intros j Hj. rewrite lookup_delete_ne; [apply Hm; lia|].
    intros Heq. apply index_key_inj in Heq. lia. }
  rewrite map_size_delete, Hx in Hle. simpl in Hle.
  assert (size m <> 0%nat); [|lia].
  intros H0. apply map_size_empty_iff in H0. subst m. by rewrite lookup_empty in Hx.
Qed.

Lemma string_get_length s : forall i, is_Some (String.get i s) -> (i < String.length s)%nat.
Proof.
  induction s as [|c s IH]; intros i [x Hx]; [discriminate Hx|].
  destruct i as [|i]; simpl in *; [lia|]. assert (i < String.length s)%nat; [|lia].
  apply IH. eauto.
Qed.

(** Where every element before [i] is truthy, [i] is within the bound. *)
Lemma truthy_prefix_bound h v i :
  (forall j, (j < i)%nat -> exists x, js_index h v j = Some x /\ truthy x = true) ->
  (i <= index_bound h v)%nat.
Proof.
  intros Hpre. destruct i as [|i]; [lia|].
  assert (Hlast := Hpre i ltac:(lia)).
  destruct v as [| | | | s | l]; simpl in *;
    try (by destruct Hlast as (x & [= <-] & Hx)); try (by destruct Hlast as (x & Hx & _)).
  - destruct Hlast as (x & Hx & Ht). destruct (String.get i s) eqn:Hg.
    + pose proof (string_get_length s i ltac:(eauto)). lia.
    + injection Hx as <-. discriminate Ht.
  - destruct (h !! l) as [o|]; [|by destruct Hlast as (x & [= <-] & Hx)].
    destruct (kind o) as [|elems|arg].
    + apply keys_below_size. intros j Hj. destruct (Hpre j Hj) as (x & Hx & Ht).
      destruct (props o !! numeral 10 (Z.of_nat j)); [eauto|].
      injection Hx as <-. discriminate Ht.
    + destruct Hlast as (x & Hx & Ht). destruct (elems !! i) eqn:He.
      * apply lookup_lt_Some in He. lia.
      * injection Hx as <-. discriminate Ht.
    + apply keys_below_size. intros j Hj. destruct (Hpre j Hj) as (x & Hx & Ht).
      destruct (props o !! numeral 10 (Z.of_nat j)); [eauto|].
      injection Hx as <-. discriminate Ht.
Qed.

(** The scan of [getLink_] ends before its fuel does: more fuel changes
    nothing. *)
Lemma getLink_loop_fuel rel links s : forall f1 f2 i,
  (index_bound (heap s) links < i + f1)%nat -> (index_bound (heap s) links < i + f2)%nat ->
  (forall j, (j < i)%nat -> exists x, js_index (heap s) links j = Some x /\ truthy x = true) ->
  getLink_loop f1 rel links i s = getLink_loop f2 rel links i s.
Proof.
  induction f1 as [|f1 IH]; intros f2 i H1 H2 Hpre.
  - pose proof (truthy_prefix_bound _ _ _ Hpre). lia.
  - destruct f2 as [|f2]; [pose proof (truthy_prefix_bound _ _ _ Hpre); lia|].
    cbn [getLink_loop]. unfold bind at 1 3, index, lift_option.
    destruct (js_index (heap s) links i) as [link|] eqn:Hi; [|done].
    destruct (truthy link) eqn:Ht; [|done].
    unfold bind, get_prop, lift_option. destruct (js_get (heap s) link "rel"); [|done].
    destruct (bool_decide _); [done|].
    apply IH; [lia|lia|]. intros k Hk. destruct (decide (k = i)) as [->|]; [eauto|].
    apply Hpre. lia.
Qed.

Lemma getLink__fuel rel links s fuel :
  (index_bound (heap s) links < fuel)%nat ->
  getLink_ rel links s = getLink_loop fuel rel links 0 s.
Proof.
  intros Hf. unfold getLink_, bind, gets. apply getLink_loop_fuel; [lia|lia|].
  intros k Hk. lia.
Qed.

Lemma getLink__state rel links s v s1 : getLink_ rel links s = Ok v s1 -> s1 = s.
Proof.
  intros H. pose proof (reads_heap_getLink_ rel links s s eq_refl) as Hr.
  rewrite H in Hr. by destruct Hr.
Qed.

(** So does the scan of [_onSpreadsheetList]. *)
Lemma find_sheet_fuel feed s entries :
  js_get (heap s) feed "entry" = Some entries ->
  forall f1 f2 i,
    (index_bound (heap s) entries < i + f1)%nat ->
    (index_bound (heap s) entries < i + f2)%nat ->
    (forall j, (j < i)%nat ->
       exists x, js_index (heap s) entries j = Some x /\ truthy x = true) ->
    find_sheet f1 feed i s = find_sheet f2 feed i s.
Proof.
  intros Hentries. induction f1 as [|f1 IH]; intros f2 i H1 H2 Hpre.
  - pose proof (truthy_prefix_bound _ _ _ Hpre). lia.
  - destruct f2 as [|f2]; [pose proof (truthy_prefix_bound _ _ _ Hpre); lia|].
    cbn [find_sheet]. unfold bind at 1 8, get_prop at 1 4, lift_option. rewrite Hentries.
    unfold bind at 1 7, index, lift_option.
    destruct (js_index (heap s) entries i) as [entry|] eqn:Hi; [|done].
    destruct (truthy entry) eqn:Ht; [|done].
    unfold bind at 1 6, get_prop at 1 3, lift_option.
    destruct (js_get (heap s) entry "link") as [links|]; [|done].
    unfold bind at 1 5.
    destruct (getLink_ "alternate" links s) as [alt s1|e s1] eqn:Hg; [|done].
    apply getLink__state in Hg as ->.
    assert (Hfound : forall (k1 k2 : bool -> M unit),
      (forall b, k1 b s = k2 b s) ->
      bind (if truthy alt
            then href <- get_prop alt "href" ;; k <- this_ key ;; indexOf_found href k
            else ret false) k1 s =
      bind (if truthy alt
            then href <- get_prop alt "href" ;; k <- this_ key ;; indexOf_found href k
            else ret false) k2 s).
    { intros k1 k2 Hk. destruct (truthy alt); [|apply Hk].
      unfold bind at 1 4. unfold bind at 1 3, get_prop, lift_option.
      destruct (js_get (heap s) alt "href") as [href|]; [|done].
      rewrite !bind_this. unfold indexOf_found.
      destruct href; try done; [apply Hk|].
      unfold bind, gets. destruct (kind <$> heap s !! l) as [[]|]; try done. apply Hk. }
    apply Hfound. intros [|]; [done|].
    apply IH; [lia|lia|]. intros k Hk. destruct (decide (k = i)) as [->|]; [eauto|].
    apply Hpre. lia.
Qed.

(** *** The sample run *)

(** Shapes of concrete data, by computation. *)
Ltac concrete_field := eexists _, _; split; [reflexivity|]; split; reflexivity.
Ltac concrete_wrapped := eexists; split; concrete_field.
Ltac concrete_data :=
  split; [concrete_wrapped|]; split; [concrete_wrapped|];
  eexists; split; [concrete_field|];
  eexists _, _, _; split; [reflexivity|]; split; [reflexivity|]; split; [reflexivity|];
  constructor; [split; concrete_wrapped|constructor].

Lemma private_flow_sequencing_witness :
  dispatch (KeyChanged "KEY1") fresh_state
    = Ok tt (set_this (with_key "KEY1" (this fresh_state)) fresh_state) /\
  (exists s', _onSpreadsheetList (EvResponse (VRef 17%nat)) list_state = Ok tt s' /\
     log s' = log list_state ++
       [Fired "google-sheet-data" "spreadsheets" (VRef 15%nat);
        Requested (worksheet_request
                     (Some (List.last (split_slash
                        "https://spreadsheets.google.com/feeds/spreadsheets/private/full/KEY1")
                        EmptyString))
                     (tabId (this list_state)) (headers (worksheetajax_ (this list_state))))] /\
     _worksheetId (this s') =
       Some (List.last (split_slash
               "https://spreadsheets.google.com/feeds/spreadsheets/private/full/KEY1")
               EmptyString)) /\
  (exists s', _onWorksheet (EvResponse (VRef 28%nat)) worksheet_state = Ok tt s' /\
     log s' = log worksheet_state ++
       [Fired "google-sheet-data" "tab" (VRef 27%nat);
        Requested (rows_request (_worksheetId (this worksheet_state))
                     (tabId (this worksheet_state))
                     (headers (cellrowsajax_ (this worksheet_state))))]) /\
  sequenced (log (default fresh_state (run private_scenario fresh_state))).
Proof.
  split; [|split; [|split]].
  - apply (proj1 private_flow_sequencing). reflexivity.
  - apply (proj1 (proj2 (proj2 private_flow_sequencing)) list_state (VRef 17%nat)
             (VRef 16%nat) 15%nat (array [VRef 14%nat]) [VRef 14%nat] 0%nat 14%nat
             (VStr "Budget") (VStr "2015-03-01T10:00:00Z") sample_authors).
    + concrete_field.
    + concrete_field.
    + reflexivity.
    + reflexivity.
    + discriminate.
    + intros j e Hj. lia.
    + reflexivity.
    + eexists _, _, _. split; [concrete_field|]. split; [reflexivity|].
      split; [concrete_field|reflexivity].
    + discriminate.
    + concrete_data.
    + concrete_wrapped.
    + discriminate.
  - apply (proj1 (proj2 (proj2 (proj2 private_flow_sequencing))) worksheet_state
             (VRef 28%nat) 27%nat (VStr "Sheet1") (VStr "2015-03-02T10:00:00Z") sample_authors).
    + concrete_field.
    + discriminate.
    + concrete_data.
    + reflexivity.
  - apply (proj2 (proj2 (proj2 (proj2 private_flow_sequencing))) private_scenario fresh_state).
    + reflexivity.
    + reflexivity.
    + reflexivity.
    + repeat constructor; discriminate.
    + vm_compute. reflexivity.
Defined.

Lemma projection_correct_witness :
  projected (heap (final (_sheetChanged sample_sheet_state))) (VRef 14%nat)
    (VStr "Budget") (VStr "2015-03-01T10:00:00Z") sample_authors /\
  projected (heap (final (_tabChanged
                            (set_this (with_tab (VRef 27%nat) (this worksheet_state))
                               worksheet_state))))
    (VRef 27%nat) (VStr "Sheet1") (VStr "2015-03-02T10:00:00Z") sample_authors /\
  projected (heap (final (_onWorksheet (EvResponse (VRef 28%nat)) worksheet_state)))
    (VRef 27%nat) (VStr "Sheet1") (VStr "2015-03-02T10:00:00Z") sample_authors /\
  projected (heap (final (_onCellRows (EvResponse (VRef 14%nat)) public_state)))
    (VRef 13%nat) (VStr "Sheet1") (VStr "2015-03-02T10:00:00Z") sample_authors.
Proof.
  split; [|split; [|split]].
  - apply (proj1 projection_correct sample_sheet_state 14%nat); [reflexivity|concrete_data].
  - apply (proj1 (proj2 projection_correct)); [reflexivity|concrete_data].
  - apply (proj1 (proj2 (proj2 projection_correct)) worksheet_state (VRef 28%nat) 27%nat).
    + concrete_field.
    + discriminate.
    + concrete_data.
  - apply (proj2 (proj2 (proj2 projection_correct)) public_state (VRef 14%nat) 13%nat 8%nat).
    + reflexivity.
    + concrete_field.
    + discriminate.
    + concrete_field.
    + concrete_data.
Defined.

Lemma missing_title_guard_witness :
  _sheetChanged fresh_state = Ok tt fresh_state /\
  _tabChanged fresh_state = Ok tt fresh_state /\
  _setSheet (VRef 1%nat) fresh_state
    = Ok tt (set_this (with_sheet (VRef 1%nat) (this fresh_state)) fresh_state) /\
  _setTab (VRef 0%nat) fresh_state
    = Ok tt (set_this (with_tab (VRef 0%nat) (this fresh_state)) fresh_state).
Proof.
  split; [|split; [|split]].
  - apply (proj1 missing_title_guard fresh_state VUndef); reflexivity.
  - apply (proj1 (proj2 missing_title_guard) fresh_state VUndef); reflexivity.
  - apply (proj1 (proj2 (proj2 missing_title_guard)) fresh_state (VRef 1%nat) VUndef);
      [reflexivity | reflexivity | discriminate].
  - apply (proj2 (proj2 (proj2 missing_title_guard)) fresh_state (VRef 0%nat) VUndef);
      [reflexivity | reflexivity | discriminate].
Defined.

Lemma cache_write_once_witness :
  let s := set_cache {["KEY1_1"%string := VNull]} fresh_state in
  rowDataCache_ (final (_onCellRows (EvResponse (VRef 14%nat)) public_state)) =
    rowDataCache_ (final (cache_feed (VRef 13%nat) public_state)) /\
  rowDataCache_ (final (dispatch (KeyChanged "KEY2") s)) = rowDataCache_ s /\
  rowDataCache_ (final (dispatch (Response cellrowsajax sample_rows) s)) !! "KEY1_1"%string
    = Some VNull.
Proof.
  intros s. split; [|split].
  - apply (proj1 (proj2 cache_write_once)). reflexivity.
  - apply (proj1 (proj2 (proj2 cache_write_once))). intros a body H. discriminate H.
  - apply (proj2 (proj2 (proj2 cache_write_once))). reflexivity.
Defined.


(** * Further properties *)

(** *** The codec on all of its domain *)

Lemma ToInt32_range x : - 2^31 <= ToInt32 x < 2^31.
Proof.
  destruct x as [|z]; simpl; [lia|].
  pose proof (Z.mod_pos_bound (z + 2^31) (2^32) ltac:(lia)). lia.
Qed.

Lemma lxor_magic_int32 a : - 2^31 <= a < 2^31 -> - 2^31 <= Z.lxor a 31578 < 2^31.
Proof.
  intros Ha. destruct (Z.le_gt_cases 0 a) as [Hpos|Hneg].
  - pose proof (lxor_magic_range a ltac:(lia)). lia.
  - assert (Heq : Z.lxor a 31578 = Z.lnot (Z.lxor (Z.lnot a) 31578)).
    { by rewrite Z.lnot_lxor_l, Z.lnot_involutive. }
    rewrite Heq. pose proof (lxor_magic_range (Z.lnot a)) as H.
    unfold Z.lnot in *. lia.
Qed.

Lemma parseInt_toString_36 z : parseInt (js_toString (Num z) 36) 36 = Num z.
Proof.
  unfold js_toString. destruct (Z.ltb_spec z 0) as [Hz|Hz]; [|apply parseInt_numeral; lia].
  destruct (numeral_facts 36 (- z) ltac:(lia) ltac:(lia)) as (Hs & Hne & Hds & Hv).
  rewrite parseInt_36. cbn [skip_white].
  change (is_white "-") with false. cbn [strip_sign fst snd].
  rewrite Hs, digit_prefix_string by (lia || assumption).
  destruct (digits_of (digits_fuel (- z)) 36 (- z) []); [done|]. rewrite Hv. f_equal. lia.
Qed.

Lemma gid_to_wid_eq g :
  gid_to_wid_ g = js_toString (Num (Z.lxor (ToInt32 (Num g)) 31578)) 36.
Proof. unfold gid_to_wid_, js_xor. by rewrite parseInt_toString_decimal. Qed.

Lemma decode_encode_int32 (g : Z) : wid_to_gid_ (gid_to_wid_ g) = ToInt32 (Num g).
Proof.
  rewrite gid_to_wid_eq. unfold wid_to_gid_, js_xor. rewrite parseInt_toString_36.
  pose proof (ToInt32_range (Num g)) as Hg.
  pose proof (lxor_magic_int32 _ Hg) as Hx.
  rewrite (ToInt32_small (Z.lxor _ _)) by exact Hx.
  change (ToInt32 (Num 31578)) with 31578. apply lxor_magic_involutive.
Qed.

(** X1: decoding an encoded grid id gives the grid id back as [^] read it: for
    every integer, reduced to 32 bits, so that every grid id in [-2^31, 2^31),
    the negative ones too, comes back as it was. *)
Theorem decode_encode :
  (forall g, wid_to_gid_ (gid_to_wid_ g) = ToInt32 (Num g)) /\
  (forall g, - 2^31 <= g < 2^31 -> wid_to_gid_ (gid_to_wid_ g) = g).
Proof.
  split; [apply decode_encode_int32|].
  intros g Hg. rewrite decode_encode_int32. by apply ToInt32_small.
Qed.

Lemma decode_encode_witness :
  wid_to_gid_ (gid_to_wid_ (-7)) = -7 /\ wid_to_gid_ (gid_to_wid_ (2^32 + 5)) = 5.
Proof.
  split.
  - apply (proj2 decode_encode). lia.
  - rewrite (proj1 decode_encode). reflexivity.
Defined.

(** X2: whatever the string, the decoded id is a 32-bit integer, and it is a fixed
    point of encoding and decoding again. *)
Theorem wid_to_gid_int32 (s : string) :
  - 2^31 <= wid_to_gid_ s < 2^31 /\
  wid_to_gid_ (gid_to_wid_ (wid_to_gid_ s)) = wid_to_gid_ s.
Proof.
  assert (H : - 2^31 <= wid_to_gid_ s < 2^31).
  { unfold wid_to_gid_, js_xor. change (ToInt32 (Num 31578)) with 31578.
    apply lxor_magic_int32, ToInt32_range. }
  split; [exact H|]. rewrite decode_encode_int32. by apply ToInt32_small.
Qed.

(** *** Injectivity *)

Lemma lxor_magic_inj a b : Z.lxor a 31578 = Z.lxor b 31578 -> a = b.
Proof.
  intros H. rewrite <- (lxor_magic_involutive a), <- (lxor_magic_involutive b). by rewrite H.
Qed.

(** X3: different grid ids of 32 bits have different worksheet ids, and different
    canonical worksheet ids below 2^31 have different grid ids. *)
Theorem codec_injective :
  (forall g1 g2, - 2^31 <= g1 < 2^31 -> - 2^31 <= g2 < 2^31 -> g1 <> g2 ->
     gid_to_wid_ g1 <> gid_to_wid_ g2) /\
  (forall w1 w2, canonical_wid w1 = true -> canonical_wid w2 = true ->
     wid_value w1 < 2^31 -> wid_value w2 < 2^31 -> w1 <> w2 ->
     wid_to_gid_ w1 <> wid_to_gid_ w2).
Proof.
  split.
  - intros g1 g2 H1 H2 Hne Heq. apply Hne.
    rewrite <- (ToInt32_small g1), <- (ToInt32_small g2) by assumption.
    rewrite <- !decode_encode_int32. by rewrite Heq.
  - intros w1 w2 Hc1 Hc2 Hv1 Hv2 Hne Heq. apply Hne.
    destruct (wid_to_gid_canonical w1 Hc1 Hv1) as (E1 & _ & <-).
    destruct (wid_to_gid_canonical w2 Hc2 Hv2) as (E2 & _ & <-).
    rewrite E1, E2 in Heq. by rewrite (lxor_magic_inj _ _ Heq).
Qed.

Lemma codec_injective_witness :
  gid_to_wid_ 0 <> gid_to_wid_ (-1) /\ wid_to_gid_ "od6" <> wid_to_gid_ "od7".
Proof.
  split.
  - apply (proj1 codec_injective); lia.
  - apply (proj2 codec_injective); [reflexivity | reflexivity | vm_compute; reflexivity
                                    | vm_compute; reflexivity | discriminate].
Defined.

(** *** What the encoder prints *)

Lemma digits_of_head r fuel :
  2 <= r -> forall n acc, 0 < n < 2 ^ Z.of_nat fuel ->
  exists d ds, digits_of fuel r n acc = d :: ds /\ d <> 0.
Proof.
  intros Hr. induction fuel as [|fuel IH]; intros n acc Hn; [simpl in Hn; lia|].
  cbn [digits_of]. cbv zeta. rewrite Nat2Z.inj_succ, Z.pow_succ_r in Hn by lia.
  pose proof (Z.div_mod n r ltac:(lia)) as Hdm.
  pose proof (Z.mod_pos_bound n r ltac:(lia)) as Hm.
  assert (0 <= n / r) by (apply Z.div_pos; lia).
  destruct (Z.eqb_spec (n / r) 0) as [H0|H0].
  - exists (n mod r), acc. split; [done|]. lia.
  - apply IH. split; [lia|]. apply Z.div_lt_upper_bound; [lia|]. nia.
Qed.

Lemma all_lower_digits_string ds :
  Forall (fun d => 0 <= d < 36) ds -> all_lower_digits (string_of_digits ds) = true.
Proof.
  induction 1 as [|d ds Hd _ IH]; [reflexivity|].
  cbn [string_of_digits fold_right all_lower_digits].
  destruct (digit_char_facts d Hd) as (_ & _ & -> & _). exact IH.
Qed.

Lemma canonical_wid_nonzero c s :
  c <> "0"%char -> canonical_wid (String c s) = all_lower_digits (String c s).
Proof.
  intros Hc. unfold canonical_wid.
  destruct c as [[] [] [] [] [] [] [] []]; try reflexivity. congruence.
Qed.

Lemma numeral_canonical n : 0 <= n -> canonical_wid (numeral 36 n) = true.
Proof.
  intros Hn. destruct (Z.eq_dec n 0) as [->|Hne]; [reflexivity|].
  destruct (numeral_facts 36 n ltac:(lia) Hn) as (Hs & _ & Hds & _).
  destruct (digits_of_head 36 (digits_fuel n) ltac:(lia) n []) as (d & ds & Heq & Hd).
  { split; [lia|]. by apply fuel_enough. }
  rewrite Hs. rewrite Heq in Hds |- *. inversion Hds as [|? ? Hd' Hds']; subst.
  cbn [string_of_digits fold_right]. rewrite canonical_wid_nonzero.
  - apply (all_lower_digits_string (d :: ds)). by constructor.
  - intros Hc. destruct (digit_char_facts d Hd') as (Hv & _). rewrite Hc in Hv.
    vm_compute in Hv. congruence.
Qed.

(** X4: the encoder prints a canonical worksheet id for a grid id in [0, 2^31),
    and a minus sign before one for a grid id that [^] reads as negative
    (one in [2^31, 2^32), say). *)
Theorem gid_to_wid_prints :
  (forall g, 0 <= g < 2^31 ->
     canonical_wid (gid_to_wid_ g) = true /\ wid_value (gid_to_wid_ g) = Z.lxor g 31578) /\
  (forall g, ToInt32 (Num g) < 0 ->
     exists w, gid_to_wid_ g = String "-" w /\ canonical_wid w = true).
Proof.
  split.
  - intros g Hg. pose proof (lxor_magic_range g Hg) as Hx. rewrite gid_to_wid_small by exact Hg.
    split; [apply numeral_canonical; lia|].
    destruct (numeral_facts 36 (Z.lxor g 31578) ltac:(lia) ltac:(lia)) as (Hs & _ & Hds & Hv).
    unfold wid_value. rewrite Hs, digit_prefix_string by (lia || assumption). exact Hv.
  - intros g Hg. rewrite gid_to_wid_eq.
    pose proof (ToInt32_range (Num g)) as Hr.
    set (a := ToInt32 (Num g)) in *.
    assert (Hx : Z.lxor a 31578 < 0).
    { destruct (Z.lt_ge_cases (Z.lxor a 31578) 0) as [|Hge]; [done|].
      apply Z.lxor_nonneg in Hge. lia. }
    unfold js_toString. destruct (Z.ltb_spec (Z.lxor a 31578) 0); [|lia].
    eexists. split; [reflexivity|]. apply numeral_canonical. lia.
Qed.

Lemma gid_to_wid_prints_witness :
  canonical_wid (gid_to_wid_ 2) = true /\
  exists w, gid_to_wid_ (2^31) = String "-" w /\ canonical_wid w = true.
Proof.
  split.
  - apply (proj1 gid_to_wid_prints). lia.
  - apply (proj2 gid_to_wid_prints). vm_compute. reflexivity.
Defined.

(** *** What the decoder ignores *)

Lemma lower_char_facts c :
  is_white (lower_char c) = is_white c /\ digit_value (lower_char c) = digit_value c.
Proof. destruct c as [[] [] [] [] [] [] [] []]; split; reflexivity. Qed.

Lemma skip_white_lower s : skip_white (lower s) = lower (skip_white s).
Proof.
  induction s as [|c s IH]; [reflexivity|]. cbn [lower skip_white].
  rewrite (proj1 (lower_char_facts c)). by destruct (is_white c).
Qed.

Lemma strip_sign_lower s :
  strip_sign (lower s) = ((strip_sign s).1, lower (strip_sign s).2).
Proof.
  destruct s as [|c s]; [reflexivity|].
  destruct c as [[] [] [] [] [] [] [] []]; reflexivity.
Qed.

Lemma digit_prefix_lower r s : digit_prefix r (lower s) = digit_prefix r s.
Proof.
  induction s as [|c s IH]; [reflexivity|]. cbn [lower digit_prefix].
  rewrite (proj2 (lower_char_facts c)). destruct (digit_value c); [|done].
  destruct (_ <? _); [|done]. by rewrite IH.
Qed.

(** X5: the decoder does not tell upper case from lower case. *)
Theorem wid_to_gid_ignores_case (s : string) : wid_to_gid_ (lower s) = wid_to_gid_ s.
Proof.
  unfold wid_to_gid_. f_equal. rewrite !parseInt_36.
  rewrite skip_white_lower, strip_sign_lower. cbn [fst snd].
  by rewrite digit_prefix_lower.
Qed.

Lemma lower_digit_plain c s :
  is_lower_digit c = true -> strip_sign (skip_white (String c s)) = (1, String c s).
Proof.
  destruct c as [[] [] [] [] [] [] [] []]; intros H; try discriminate H; reflexivity.
Qed.

Lemma digit_prefix_suffix w c rest :
  all_lower_digits w = true -> digit_value c = None ->
  digit_prefix 36 (w +:+ String c rest) = digit_prefix 36 w.
Proof.
  intros Hw Hc. induction w as [|c' w IH].
  - simpl. by rewrite Hc.
  - cbn [all_lower_digits] in Hw. apply andb_true_iff in Hw as [Hc' Hw].
    simpl. destruct (digit_value c'); [|done].
    destruct (_ <? _); [|done]. by rewrite IH.
Qed.

(** X6: the decoder reads the digits at the front and ignores what follows the
    first character that is not a base-36 digit. *)
Theorem wid_to_gid_ignores_suffix (w : string) (c : ascii) (rest : string) :
  w <> EmptyString -> all_lower_digits w = true -> digit_value c = None ->
  wid_to_gid_ (w +:+ String c rest) = wid_to_gid_ w.
Proof.
  intros Hne Hw Hc. unfold wid_to_gid_. f_equal. rewrite !parseInt_36.
  destruct w as [|c' w]; [done|].
  pose proof Hw as Hw'. cbn [all_lower_digits] in Hw'. apply andb_true_iff in Hw' as [Hc' _].
  change (String c' w +:+ String c rest) with (String c' (w +:+ String c rest)).
  rewrite !lower_digit_plain by exact Hc'. cbn [fst snd].
  change (String c' (w +:+ String c rest)) with (String c' w +:+ String c rest).
  by rewrite digit_prefix_suffix.
Qed.

Lemma wid_to_gid_ignores_suffix_witness :
  wid_to_gid_ "od6/private/full" = wid_to_gid_ "od6".
Proof.
  apply (wid_to_gid_ignores_suffix "od6" "/" "private/full");
    [discriminate | reflexivity | reflexivity].
Defined.


(** *** The scan of [getLink_] *)

Lemma index_array s l o elems i :
  heap s !! l = Some o -> kind o = KArray elems ->
  index (VRef l) i s = Ok (default VUndef (elems !! i)) s.
Proof. intros Hl Hk. unfold index, lift_option. simpl. by rewrite Hl, Hk. Qed.

Lemma getLink_loop_skip rel s l o elems :
  heap s !! l = Some o -> kind o = KArray elems ->
  forall n j fuel,
    (forall k x, (j <= k < j + n)%nat -> elems !! k = Some x ->
       truthy x = true /\ exists r, js_get (heap s) x "rel" = Some r /\ r <> VStr rel) ->
    (j + n <= length elems)%nat ->
    getLink_loop (n + fuel) rel (VRef l) j s = getLink_loop fuel rel (VRef l) (j + n) s.
Proof.
  intros Hl Hk. induction n as [|n IH]; intros j fuel Hgood Hlen.
  - by rewrite Nat.add_0_r.
  - assert (is_Some (elems !! j)) as [x Hx] by (apply lookup_lt_is_Some; lia).
    destruct (Hgood j x ltac:(lia) Hx) as (Ht & r & Hr & Hne).
    cbn [Nat.add getLink_loop].
    rewrite (bind_ok _ _ _ _ _ (index_array s l o elems j Hl Hk)), Hx. cbn [default from_option id]. cbv beta.
    rewrite Ht. unfold bind at 1, get_prop, lift_option. rewrite Hr.
    rewrite bool_decide_eq_false_2 by exact Hne.
    rewrite IH; [by replace (S j + n)%nat with (j + S n)%nat by lia| |lia].
    intros k y Hk'. apply Hgood. lia.
Qed.

Lemma getLink__array rel s l o elems :
  heap s !! l = Some o -> kind o = KArray elems ->
  getLink_ rel (VRef l) s = getLink_loop (S (length elems)) rel (VRef l) 0 s.
Proof. intros Hl Hk. unfold getLink_, bind, gets. simpl. by rewrite Hl, Hk. Qed.

(** X7: [getLink_] returns the first element whose [rel] is the one asked for; it
    returns [null] when the scan comes to the end of the array, or to a falsy
    element, before it finds one; it leaves the state as it was.  Without an
    array of links ([undefined], [null]) it throws. *)
Theorem getLink__scan :
  (forall rel s l o elems i,
     heap s !! l = Some o -> kind o = KArray elems ->
     (forall k x, (k < i)%nat -> elems !! k = Some x ->
        truthy x = true /\ exists r, js_get (heap s) x "rel" = Some r /\ r <> VStr rel) ->
     (forall x, elems !! i = Some x -> truthy x = true ->
        js_get (heap s) x "rel" = Some (VStr rel) -> getLink_ rel (VRef l) s = Ok x s) /\
     (truthy (default VUndef (elems !! i)) = false -> getLink_ rel (VRef l) s = Ok VNull s)) /\
  (forall rel s, getLink_ rel VUndef s = Throw TypeError s /\
                 getLink_ rel VNull s = Throw TypeError s).
Proof.
  split; [|by intros rel s].
  intros rel s l o elems i Hl Hk Hgood.
  assert (Hskip : forall i', (i' <= i)%nat -> (i' <= length elems)%nat ->
            getLink_ rel (VRef l) s =
            getLink_loop (S (length elems - i')) rel (VRef l) i' s).
  { intros i' Hi' Hlen. rewrite (getLink__array rel s l o elems Hl Hk).
    replace (S (length elems)) with (i' + S (length elems - i'))%nat by lia.
    rewrite (getLink_loop_skip rel s l o elems Hl Hk i' 0%nat); [done| |lia].
    intros k x Hk' Hx. apply (Hgood k x); [lia|done]. }
  split.
  - intros x Hx Ht Hr. rewrite (Hskip i); [|lia|apply lookup_lt_Some in Hx; lia].
    cbn [getLink_loop].
    rewrite (bind_ok _ _ _ _ _ (index_array s l o elems i Hl Hk)), Hx. cbn [default from_option id]. cbv beta.
    rewrite Ht. unfold bind at 1, get_prop, lift_option. rewrite Hr.
    by rewrite bool_decide_eq_true_2.
  - intros Hf. destruct (decide (i <= length elems)%nat) as [Hle|Hgt].
    + rewrite (Hskip i) by lia. cbn [getLink_loop].
      by rewrite (bind_ok _ _ _ _ _ (index_array s l o elems i Hl Hk)), Hf.
    + rewrite (Hskip (length elems)) by lia. cbn [getLink_loop].
      rewrite (bind_ok _ _ _ _ _ (index_array s l o elems _ Hl Hk)).
      by rewrite (lookup_ge_None_2 elems (length elems)) by lia.
Qed.

Lemma getLink__scan_witness :
  getLink_ "alternate" (VRef 13%nat) list_state = Ok (VRef 12%nat) list_state /\
  getLink_ "edit" (VRef 13%nat) list_state = Ok VNull list_state.
Proof.
  split.
  - apply (proj1 (proj1 getLink__scan "alternate"%string list_state 13%nat
                    (array [VRef 11%nat; VRef 12%nat]) [VRef 11%nat; VRef 12%nat] 1%nat
                    eq_refl eq_refl
                    ltac:(intros [|k] x Hk Hx; [|lia]; injection Hx as <-;
                          split; [reflexivity|eexists; split; [reflexivity|discriminate]])));
      reflexivity.
  - apply (proj2 (proj1 getLink__scan "edit"%string list_state 13%nat
                    (array [VRef 11%nat; VRef 12%nat]) [VRef 11%nat; VRef 12%nat] 2%nat
                    eq_refl eq_refl
                    ltac:(intros [|[|k]] x Hk Hx; [| |lia]; injection Hx as <-;
                          (split; [reflexivity|eexists; split; [reflexivity|discriminate]])))).
    reflexivity.
Defined.


(** *** The list response *)

Lemma bind_js_get {B} v name x (k : jsval -> M B) s :
  js_get (heap s) v name = Some x -> bind (get_prop v name) k s = k x s.
Proof. intros H. unfold bind, get_prop, lift_option. by rewrite H. Qed.

Lemma _onSpreadsheetList_eq s r feed entries :
  js_get (heap s) r "feed" = Some feed -> js_get (heap s) feed "entry" = Some entries ->
  _onSpreadsheetList (EvResponse r) s =
  if bool_decide (key (this s) = EmptyString) then Ok tt (list_published entries s)
  else find_sheet (S (index_bound (heap s) entries)) feed 0 (list_published entries s).
Proof.
  intros Hf He. unfold _onSpreadsheetList, stopPropagation, target_lastResponse.
  unfold bind at 1. unfold ret at 1. unfold bind at 1. unfold ret at 1.
  rewrite (bind_js_get _ _ _ _ _ Hf), (bind_js_get _ _ _ _ _ He).
  unfold bind at 1, _setSpreadsheets, update_this, modify.
  rewrite bind_this. unfold bind at 1, fire, modify.
  rewrite bind_this. fold (list_published entries s).
  change (key (this (list_published entries s))) with (key (this s)).
  by destruct (bool_decide _).
Qed.

Lemma find_sheet_skip feed s le o elems :
  has_field (heap s) feed "entry" (VRef le) ->
  heap s !! le = Some o -> kind o = KArray elems ->
  forall n i fuel,
    (forall j e, (i <= j < i + n)%nat -> elems !! j = Some e ->
       links_elsewhere s e (key (this s))) ->
    (i + n <= length elems)%nat ->
    find_sheet (n + fuel) feed i s = find_sheet fuel feed (i + n) s.
Proof.
  intros Hentries Hle Hk. induction n as [|n IH]; intros i fuel Hbefore Hlen.
  - by rewrite Nat.add_0_r.
  - assert (is_Some (elems !! i)) as [e He] by (apply lookup_lt_is_Some; lia).
    cbn [Nat.add].
    rewrite (proj2 (find_sheet_turn (n + fuel) feed i s le o elems e Hentries Hle Hk He)).
    + rewrite IH; [by replace (S i + n)%nat with (i + S n)%nat by lia| |lia].
      intros j e' Hj. apply Hbefore. lia.
    + apply (Hbefore i e); [lia|done].
Qed.

Lemma find_sheet_end fuel feed s le o elems :
  has_field (heap s) feed "entry" (VRef le) ->
  heap s !! le = Some o -> kind o = KArray elems ->
  find_sheet (S fuel) feed (length elems) s = Ok tt s.
Proof.
  intros Hentries Hle Hk. cbn [find_sheet]. rewrite (bind_get_prop _ _ _ _ _ Hentries).
  rewrite (bind_ok _ _ _ _ _ (index_array s le o elems _ Hle Hk)).
  by rewrite (lookup_ge_None_2 elems (length elems)) by lia.
Qed.

(** X8: a list response that resolves nothing: without a key (list mode) the
    handler publishes the list, fires its event and stops; with a key that no
    entry's alternate link contains it does the same.  No request is sent, no
    error raised, and sheet and worksheet id stay as they were. *)
Theorem list_response_unresolved :
  (forall s r feed entries,
     js_get (heap s) r "feed" = Some feed -> js_get (heap s) feed "entry" = Some entries ->
     key (this s) = EmptyString ->
     _onSpreadsheetList (EvResponse r) s = Ok tt (list_published entries s)) /\
  (forall s r feed le o elems,
     has_field (heap s) r "feed" feed -> has_field (heap s) feed "entry" (VRef le) ->
     heap s !! le = Some o -> kind o = KArray elems ->
     (forall j e, elems !! j = Some e -> links_elsewhere s e (key (this s))) ->
     _onSpreadsheetList (EvResponse r) s = Ok tt (list_published (VRef le) s)) /\
  (forall entries s,
     log (list_published entries s) =
       log s ++ [Fired "google-sheet-data" "spreadsheets" entries] /\
     spreadsheets (this (list_published entries s)) = entries /\
     sheet (this (list_published entries s)) = sheet (this s) /\
     _worksheetId (this (list_published entries s)) = _worksheetId (this s) /\
     heap (list_published entries s) = heap s).
Proof.
  split; [|split; [|done]].
  - intros s r feed entries Hf He Hkey. rewrite (_onSpreadsheetList_eq s r feed entries Hf He).
    by rewrite bool_decide_eq_true_2.
  - intros s r feed le o elems Hf He Hle Hk Hall.
    rewrite (_onSpreadsheetList_eq s r feed (VRef le));
      [|by apply js_get_has_field..].
    destruct (bool_decide _); [done|].
    set (s1 := list_published (VRef le) s).
    simpl index_bound. rewrite Hle, Hk.
    replace (S (length elems)) with (length elems + 1)%nat by lia.
    rewrite (find_sheet_skip feed s1 le o elems He Hle Hk (length elems) 0%nat 1%nat); [|
      |lia].
    + by apply (find_sheet_end 0 feed s1 le o elems).
    + intros j e _ Hj. apply (links_elsewhere_same_heap s); [done|]. by apply (Hall j).
Qed.

Lemma list_response_unresolved_witness :
  _onSpreadsheetList (EvResponse (VRef 17%nat)) listmode_state
    = Ok tt (list_published (VRef 15%nat) listmode_state) /\
  _onSpreadsheetList (EvResponse (VRef 17%nat)) otherkey_state
    = Ok tt (list_published (VRef 15%nat) otherkey_state).
Proof.
  split.
  - apply (proj1 list_response_unresolved listmode_state (VRef 17%nat) (VRef 16%nat));
      reflexivity.
  - apply (proj1 (proj2 list_response_unresolved) otherkey_state (VRef 17%nat) (VRef 16%nat)
             15%nat (array [VRef 14%nat]) [VRef 14%nat]).
    + concrete_field.
    + concrete_field.
    + reflexivity.
    + reflexivity.
    + intros [|j] e He; [|discriminate He]. injection He as <-.
      exists (VRef 13%nat), (VRef 12%nat). split; [concrete_field|].
      split; [reflexivity|]. right. eexists. split; [concrete_field|reflexivity].
Defined.

(** X9: a list response that the handler cannot read.  Without a [feed] it throws
    at once, the state untouched.  With a key, a feed without [entry] makes
    the scan throw after the (undefined) list was published and the event
    fired; so does an entry that is an object without a [link] (or with a
    [null] one), when no entry before it matched. *)
Theorem list_response_malformed :
  (forall s r feed,
     js_get (heap s) r "feed" = Some feed -> js_get (heap s) feed "entry" = None ->
     _onSpreadsheetList (EvResponse r) s = Throw TypeError s) /\
  (forall s r feed entries,
     js_get (heap s) r "feed" = Some feed -> js_get (heap s) feed "entry" = Some entries ->
     js_index (heap s) entries 0 = None -> key (this s) <> EmptyString ->
     _onSpreadsheetList (EvResponse r) s = Throw TypeError (list_published entries s)) /\
  (forall s r feed le o elems i l0 links,
     has_field (heap s) r "feed" feed -> has_field (heap s) feed "entry" (VRef le) ->
     heap s !! le = Some o -> kind o = KArray elems ->
     key (this s) <> EmptyString ->
     (forall j e', (j < i)%nat -> elems !! j = Some e' ->
        links_elsewhere s e' (key (this s))) ->
     elems !! i = Some (VRef l0) -> is_Some (heap s !! l0) ->
     js_get (heap s) (VRef l0) "link" = Some links -> links = VUndef \/ links = VNull ->
     _onSpreadsheetList (EvResponse r) s = Throw TypeError (list_published (VRef le) s)).
Proof.
  split; [|split].
  - intros s r feed Hf He. unfold _onSpreadsheetList, stopPropagation, target_lastResponse.
    unfold bind at 1. unfold ret at 1. unfold bind at 1. unfold ret at 1.
    rewrite (bind_js_get _ _ _ _ _ Hf). unfold bind, get_prop, lift_option. by rewrite He.
  - intros s r feed entries Hf He Hidx Hkey.
    rewrite (_onSpreadsheetList_eq s r feed entries Hf He).
    rewrite bool_decide_eq_false_2 by exact Hkey.
    cbn [find_sheet]. rewrite (bind_js_get _ _ entries _ (list_published entries s)); [|exact He].
    unfold bind, index, lift_option. cbn [heap list_published add_log set_this].
    by rewrite Hidx.
  - intros s r feed le o elems i l0 links Hf He Hle Hk Hkey Hbefore Hi _ Hlinks Hbad.
    rewrite (_onSpreadsheetList_eq s r feed (VRef le));
      [|by apply js_get_has_field..].
    rewrite bool_decide_eq_false_2 by exact Hkey.
    set (s1 := list_published (VRef le) s).
    simpl index_bound. rewrite Hle, Hk.
    pose proof (lookup_lt_Some _ _ _ Hi) as Hlt.
    replace (S (length elems)) with (i + S (length elems - i))%nat by lia.
    rewrite (find_sheet_skip feed s1 le o elems He Hle Hk i 0%nat); [| |lia].
    + cbn [Nat.add find_sheet]. rewrite (bind_get_prop _ _ _ _ s1 He).
      rewrite (bind_ok _ _ _ _ _ (index_array s1 le o elems i Hle Hk)), Hi.
      cbn [default from_option id]. cbv beta. cbn [truthy].
      rewrite (bind_js_get _ _ links _ s1); [|exact Hlinks].
      by destruct Hbad as [-> | ->].
    + intros j e' Hj He'. apply (links_elsewhere_same_heap s); [done|].
      apply (Hbefore j e'); [lia|done].
Qed.

Lemma list_response_malformed_witness :
  _onSpreadsheetList (EvResponse (VRef 4%nat)) nofeed_state = Throw TypeError nofeed_state /\
  _onSpreadsheetList (EvResponse (VRef 5%nat)) noentry_state
    = Throw TypeError (list_published VUndef noentry_state) /\
  _onSpreadsheetList (EvResponse (VRef 7%nat)) nolink_state
    = Throw TypeError (list_published (VRef 5%nat) nolink_state).
Proof.
  split; [|split].
  - apply (proj1 list_response_malformed nofeed_state (VRef 4%nat) VUndef); reflexivity.
  - apply (proj1 (proj2 list_response_malformed) noentry_state (VRef 5%nat) (VRef 4%nat) VUndef);
      [reflexivity | reflexivity | reflexivity | discriminate].
  - apply (proj2 (proj2 list_response_malformed) nolink_state (VRef 7%nat) (VRef 6%nat)
             5%nat (array [VRef 4%nat]) [VRef 4%nat] 0%nat 4%nat VUndef).
    + concrete_field.
    + concrete_field.
    + reflexivity.
    + reflexivity.
    + discriminate.
    + intros j e' Hj. lia.
    + reflexivity.
    + eexists. reflexivity.
    + reflexivity.
    + by left.
Defined.


(** *** The row response *)

Lemma has_field_is_Some h l name x : has_field h (VRef l) name x -> is_Some (h !! l).
Proof. intros (l' & o & [= <-] & Hl & _). eauto. Qed.

(** The rest of [_onCellRows] in the private flow, for a feed with rows and
    authors. *)
Lemma publish_rows_private s lf le av ps :
  published (this s) = false ->
  has_field (heap s) (VRef lf) "entry" (VRef le) -> is_Some (heap s !! le) ->
  has_field (heap s) (VRef lf) "author" av -> author_list (heap s) av ps ->
  exists h1 va,
    publish_rows (VRef lf) s =
      Ok tt (add_log (Fired "google-sheet-data" "rows" (VRef le))
               (set_heap h1 (set_this (with_rows (VRef le) (this s)) s))) /\
    has_field h1 (VRef le) "authors" va /\ pair_list h1 va ps /\ frame le (heap s) h1.
Proof.
  intros Hpub Hentry Hle Hav Hps.
  unfold publish_rows. rewrite (bind_get_prop _ _ _ _ _ Hentry).
  unfold bind at 1, _setRows, update_this, modify.
  set (s2 := set_this (with_rows (VRef le) (this s)) s).
  change (heap s) with (heap s2) in Hav, Hps, Hle.
  rewrite (bind_get_prop _ _ _ _ _ Hav).
  destruct Hps as (la & oa & elems & -> & Hps). cbn [truthy].
  assert (Hps' : author_list (heap s2) (VRef la) ps) by (exists la, oa, elems; done).
  destruct (js_map_author_spec s2 (VRef la) ps Hps') as (ext & va & Hmap & Hva).
  unfold bind at 1. rewrite (bind_get_prop _ _ _ _ _ Hav), Hmap.
  unfold bind at 1.
  rewrite (polymer_set_ref rows (set_heap (heap s2 ++ ext) s2) le "authors" va eq_refl).
  rewrite heap_set_heap, set_heap_set_heap.
  set (h4 := heap_put (heap s2 ++ ext) le "authors" va).
  rewrite bind_this. change (published (this (set_heap h4 s2))) with (published (this s)).
  rewrite Hpub. unfold bind at 1, ret. rewrite bind_this.
  exists h4, va. split; [reflexivity|]. split; [|split].
  - apply has_field_put_same. destruct Hle as [o Ho]. exists o. by apply lookup_app_l_Some.
  - apply (pair_list_above_frame (length (heap s2)) le (heap s2 ++ ext)); [apply frame_put| |done].
    by apply lookup_lt_is_Some.
  - eapply frame_trans; [apply frame_app|apply frame_put].
Qed.

(** X10: the row feed of the private flow: the handler publishes the rows of the
    feed, sets [rows.authors] to the [{email, name}] pairs of the feed's
    authors in their order, and fires the rows event; it sends nothing and
    leaves tab, sheet and worksheet id as they were; of the objects that were
    there only the array of rows is written. *)
Theorem rows_response_private (s : state) (r : jsval) (lf le : loc) (av : jsval)
    (ps : list (jsval * jsval)) :
  published (this s) = false ->
  has_field (heap s) r "feed" (VRef lf) ->
  has_field (heap s) (VRef lf) "entry" (VRef le) -> is_Some (heap s !! le) ->
  has_field (heap s) (VRef lf) "author" av -> author_list (heap s) av ps ->
  exists s' va, _onCellRows (EvResponse r) s = Ok tt s' /\
    rows (this s') = VRef le /\
    has_field (heap s') (VRef le) "authors" va /\ pair_list (heap s') va ps /\
    log s' = log s ++ [Fired "google-sheet-data" "rows" (VRef le)] /\
    tab (this s') = tab (this s) /\ sheet (this s') = sheet (this s) /\
    _worksheetId (this s') = _worksheetId (this s) /\
    frame le (heap s) (heap s').
Proof.
  intros Hpub Hfeed Hentry Hle Hav Hps.
  rewrite (_onCellRows_response _ _ _ (js_get_has_field _ _ _ _ Hfeed)).
  unfold bind. rewrite cache_feed_eq. cbv zeta.
  destruct (rowDataCache_ s !! _).
  - destruct (publish_rows_private s lf le av ps Hpub Hentry Hle Hav Hps)
      as (h1 & va & -> & H1 & H2 & H3).
    eexists _, va. split; [reflexivity|]. by repeat split.
  - set (s1 := set_cache _ _).
    destruct (publish_rows_private s1 lf le av ps) as (h1 & va & -> & H1 & H2 & H3).
    + done.
    + subst s1. cbn [heap set_cache set_heap]. by apply has_field_app.
    + subst s1. cbn [heap set_cache set_heap]. destruct Hle as [o Ho]. exists o.
      by apply lookup_app_l_Some.
    + subst s1. cbn [heap set_cache set_heap]. by apply has_field_app.
    + subst s1. cbn [heap set_cache set_heap]. by apply author_list_app.
    + eexists _, va. split; [reflexivity|]. repeat split; try done.
      eapply frame_trans; [apply frame_app|exact H3].
Qed.

Lemma rows_response_private_witness :
  exists s' va, _onCellRows (EvResponse (VRef 42%nat)) rows_state = Ok tt s' /\
    rows (this s') = VRef 36%nat /\
    has_field (heap s') (VRef 36%nat) "authors" va /\ pair_list (heap s') va sample_authors.
Proof.
  destruct (rows_response_private rows_state (VRef 42%nat) 41%nat 36%nat (VRef 40%nat)
              sample_authors) as (s' & va & H1 & H2 & H3 & H4 & _).
  - reflexivity.
  - concrete_field.
  - concrete_field.
  - eexists. reflexivity.
  - concrete_field.
  - eexists _, _, _. split; [reflexivity|]. split; [reflexivity|]. split; [reflexivity|].
    constructor; [split; concrete_wrapped|constructor].
  - exists s', va. split; [exact H1|]. split; [exact H2|]. split; [exact H3|exact H4].
Defined.

Lemma publish_rows_unreadable feed s :
  js_get (heap s) feed "entry" = None -> publish_rows feed s = Throw TypeError s.
Proof. intros H. unfold publish_rows, bind, get_prop, lift_option. by rewrite H. Qed.

Lemma js_get_unreadable h h' v name : js_get h v name = None -> js_get h' v name = None.
Proof.
  destruct v as [| | | | |l]; simpl; try done. by destruct (h !! l).
Qed.

Lemma publish_rows_empty lf o s :
  published (this s) = false ->
  heap s !! lf = Some o -> props o !! "entry" = None -> props o !! "author" = None ->
  publish_rows (VRef lf) s =
    Ok tt (add_log (Fired "google-sheet-data" "rows" VUndef)
             (set_this (with_rows VUndef (this s)) s)).
Proof.
  intros Hpub Hlf He Ha.
  assert (Hge : js_get (heap s) (VRef lf) "entry" = Some VUndef) by (simpl; by rewrite Hlf, He).
  assert (Hga : js_get (heap s) (VRef lf) "author" = Some VUndef) by (simpl; by rewrite Hlf, Ha).
  unfold publish_rows, bind, get_prop, lift_option, _setRows, update_this, modify, this_, gets,
    polymer_set, ret, fire.
  cbn [heap set_this]. rewrite Hge. cbn [heap set_this]. rewrite Hga.
  unfold bind, this_, gets, modify.
  cbn [truthy this set_this rows with_rows published]. by rewrite Hpub.
Qed.

(** X11: row responses at the edge.  A response without a [feed] throws, but only
    after the caching step: the key of the current worksheet and tab is then
    taken, and every later fetch for it throws as a cache hit does.  A feed
    without rows and authors (an empty sheet) is no error: [rows] becomes
    [undefined] and the rows event is fired with it. *)
Theorem rows_response_degenerate :
  (forall s r feed,
     js_get (heap s) r "feed" = Some feed -> js_get (heap s) feed "entry" = None ->
     exists s', _onCellRows (EvResponse r) s = Throw TypeError s' /\
       this s' = this s /\ log s' = log s /\
       is_Some (rowDataCache_ s' !! cache_key (_worksheetId (this s)) (tabId (this s))) /\
       _getCellRows s' = Throw TypeError s') /\
  (forall s r lf o,
     published (this s) = false ->
     js_get (heap s) r "feed" = Some (VRef lf) ->
     heap s !! lf = Some o -> props o !! "entry" = None -> props o !! "author" = None ->
     exists s', _onCellRows (EvResponse r) s = Ok tt s' /\
       rows (this s') = VUndef /\
       log s' = log s ++ [Fired "google-sheet-data" "rows" VUndef]).
Proof.
  split.
  - intros s r feed Hf He. rewrite (_onCellRows_response _ _ _ Hf).
    unfold bind. rewrite cache_feed_eq. cbv zeta.
    destruct (rowDataCache_ s !! _) eqn:Hk.
    + exists s. rewrite (publish_rows_unreadable _ _ He).
      split; [done|]. split; [done|]. split; [done|]. split; [eauto|].
      apply _getCellRows_hit. eauto.
    + set (s1 := set_cache _ _). exists s1.
      rewrite (publish_rows_unreadable feed s1) by (by apply (js_get_unreadable (heap s))).
      split; [done|]. split; [done|]. split; [done|].
      assert (Hhit : is_Some (rowDataCache_ s1 !!
                cache_key (_worksheetId (this s)) (tabId (this s)))).
      { subst s1. cbn [rowDataCache_ set_cache]. rewrite lookup_insert_eq. eauto. }
      split; [exact Hhit|]. by apply _getCellRows_hit.
  - intros s r lf o Hpub Hf Hlf He Ha. rewrite (_onCellRows_response _ _ _ Hf).
    unfold bind. rewrite cache_feed_eq. cbv zeta.
    destruct (rowDataCache_ s !! _).
    + rewrite (publish_rows_empty lf o s Hpub Hlf He Ha). eexists. by split.
    + set (s1 := set_cache _ _).
      rewrite (publish_rows_empty lf o s1); [eexists; by split|done| |done|done].
      subst s1. cbn [heap set_cache set_heap]. by apply lookup_app_l_Some.
Qed.

Lemma rows_response_degenerate_witness :
  (exists s', _onCellRows (EvResponse (VRef 32%nat)) norows_state = Throw TypeError s' /\
     _getCellRows s' = Throw TypeError s') /\
  (exists s', _onCellRows (EvResponse (VRef 33%nat)) emptyrows_state = Ok tt s' /\
     rows (this s') = VUndef).
Proof.
  split.
  - destruct (proj1 rows_response_degenerate norows_state (VRef 32%nat) VUndef)
      as (s' & H1 & _ & _ & _ & H2); [reflexivity | reflexivity |].
    exists s'. split; [exact H1 | exact H2].
  - destruct (proj2 rows_response_degenerate emptyrows_state (VRef 33%nat) 32%nat (plain ∅))
      as (s' & H1 & H2 & _); [reflexivity | reflexivity | reflexivity | reflexivity
                              | reflexivity |].
    exists s'. split; [exact H1 | exact H2].
Defined.

(** The rest of [_onCellRows] in the public flow. *)
Lemma publish_rows_public s lf le t u ps :
  published (this s) = true -> tab (this s) <> VRef lf ->
  has_field (heap s) (VRef lf) "entry" (VRef le) ->
  tab_data (heap s) (VRef lf) t u ps ->
  exists s', publish_rows (VRef lf) s = Ok tt s' /\
    log s' = log s ++ [Fired "google-sheet-data" "tab" (VRef lf);
                       Fired "google-sheet-data" "rows" (VRef le)] /\
    tab (this s') = VRef lf /\ rows (this s') = VRef le /\
    rowDataCache_ s' = rowDataCache_ s /\ _worksheetId (this s') = _worksheetId (this s).
Proof.
  intros Hpub Hne Hentry Hdata.
  pose proof Hdata as (_ & _ & av & Hav & Hps).
  unfold publish_rows. rewrite (bind_get_prop _ _ _ _ _ Hentry).
  unfold bind at 1, _setRows, update_this, modify.
  set (s2 := set_this (with_rows (VRef le) (this s)) s).
  change (heap s) with (heap s2) in Hav, Hps, Hdata.
  rewrite (bind_get_prop _ _ _ _ _ Hav).
  destruct Hps as (la & oa & elems & -> & Hps). cbn [truthy].
  assert (Hps' : author_list (heap s2) (VRef la) ps) by (exists la, oa, elems; done).
  destruct (js_map_author_spec s2 (VRef la) ps Hps') as (ext & va & Hmap & Hva).
  unfold bind at 1. rewrite (bind_get_prop _ _ _ _ _ Hav), Hmap.
  unfold bind at 1.
  rewrite (polymer_set_ref rows (set_heap (heap s2 ++ ext) s2) le "authors" va eq_refl).
  rewrite heap_set_heap, set_heap_set_heap.
  set (h4 := heap_put (heap s2 ++ ext) le "authors" va).
  rewrite bind_this. change (published (this (set_heap h4 s2))) with (published (this s)).
  rewrite Hpub. unfold bind at 1. rewrite _setTab_changed by exact Hne.
  set (s5 := set_this _ _).
  destruct (_tabChanged_data s5 lf t u ps eq_refl) as (h1 & Heq & Hproj).
  { change (heap s5) with h4. subst h4. by apply tab_data_put, tab_data_app. }
  rewrite Heq. eexists. split; [reflexivity|]. simpl. rewrite <- app_assoc. by repeat split.
Qed.

(** *** The worksheet response at the edge *)

(** X13: a worksheet response without an [entry] sets [tab] to [undefined] and
    throws in the tab observer: no rows are fetched.  An entry without a title
    becomes the tab as it is (no projection, no tab event), and the rows are
    fetched all the same. *)
Theorem worksheet_response_edge :
  (forall s r, js_get (heap s) r "entry" = Some VUndef -> tab (this s) <> VUndef ->
     _onWorksheet (EvResponse r) s = Throw TypeError (set_this (with_tab VUndef (this s)) s)) /\
  (forall s r entry t,
     js_get (heap s) r "entry" = Some entry -> tab (this s) <> entry ->
     js_get (heap s) entry "title" = Some t -> truthy t = false ->
     _onWorksheet (EvResponse r) s = _getCellRows (set_this (with_tab entry (this s)) s)).
Proof.
  split.
  - intros s r He Hne. unfold _onWorksheet, stopPropagation, target_lastResponse.
    unfold bind at 1. unfold ret at 1. unfold bind at 1. unfold ret at 1.
    rewrite (bind_js_get _ _ _ _ _ He). unfold bind at 1.
    by rewrite (_setTab_changed _ _ Hne).
  - intros s r entry t He Hne Ht Hfalsy. unfold _onWorksheet, stopPropagation, target_lastResponse.
    unfold bind at 1. unfold ret at 1. unfold bind at 1. unfold ret at 1.
    rewrite (bind_js_get _ _ _ _ _ He). unfold bind at 1.
    rewrite (_setTab_changed _ _ Hne).
    assert (Hobs : _tabChanged (set_this (with_tab entry (this s)) s)
                   = Ok tt (set_this (with_tab entry (this s)) s)).
    { unfold _tabChanged. rewrite bind_this.
      rewrite (bind_js_get _ _ t _ (set_this (with_tab entry (this s)) s)); [|exact Ht].
      by rewrite Hfalsy. }
    by rewrite Hobs.
Qed.

Lemma worksheet_response_edge_witness :
  _onWorksheet (EvResponse (VRef 21%nat)) noworksheet_state
    = Throw TypeError (set_this (with_tab VUndef (this noworksheet_state)) noworksheet_state) /\
  _onWorksheet (EvResponse (VRef 22%nat)) notitle_state
    = _getCellRows (set_this (with_tab (VRef 21%nat) (this notitle_state)) notitle_state).
Proof.
  split.
  - apply (proj1 worksheet_response_edge); [reflexivity | discriminate].
  - apply (proj2 worksheet_response_edge notitle_state (VRef 22%nat) (VRef 21%nat) VUndef);
      [reflexivity | discriminate | reflexivity | reflexivity].
Defined.


(** *** The worksheet id of a sheet *)

Lemma split_slash_plain w : no_slash w = true -> split_slash w = [w].
Proof.
  induction w as [|c w IH]; [done|]. cbn [no_slash split_slash].
  intros H. apply andb_true_iff in H as [Hc Hw]. apply negb_true_iff in Hc. rewrite Hc.
  by rewrite (IH Hw).
Qed.

Lemma split_slash_segments p w :
  no_slash w = true ->
  exists segs, segs <> [] /\ split_slash (p +:+ String "/" w) = segs ++ [w].
Proof.
  intros Hw. induction p as [|c p (segs & Hne & IH)].
  - exists [EmptyString]. split; [done|]. simpl. by rewrite (split_slash_plain w Hw).
  - change (String c p +:+ String "/" w) with (String c (p +:+ String "/" w)).
    cbn [split_slash]. rewrite IH. destruct (bool_decide (c = "/"%char)).
    + exists (EmptyString :: segs). by split.
    + destruct segs as [|seg segs]; [done|]. exists (String c seg :: segs). by split.
Qed.

Lemma last_segment p w ids :
  no_slash w = true -> ids = w \/ ids = p +:+ String "/" w ->
  List.last (split_slash ids) EmptyString = w.
Proof.
  intros Hw [-> | ->].
  - by rewrite (split_slash_plain w Hw).
  - destruct (split_slash_segments p w Hw) as (segs & _ & ->). apply last_last.
Qed.

(** X14: the sheet observer takes as worksheet id what follows the last slash of
    the sheet's [id] (all of it when there is no slash) and requests that
    worksheet.  When the id ends in a slash the worksheet id is the empty
    string, and the observer throws the error of [_getWorksheet] without a
    request, the empty id left in place. *)
Theorem worksheet_id_of_sheet :
  (forall s l0 t u ps p w ids,
     sheet (this s) = VRef l0 -> tab_data (heap s) (VRef l0) t u ps ->
     wrapped_field (heap s) (VRef l0) "id" (VStr ids) ->
     no_slash w = true -> ids = w \/ ids = p +:+ String "/" w -> w <> EmptyString ->
     exists s', _sheetChanged s = Ok tt s' /\
       _worksheetId (this s') = Some w /\
       log s' = log s ++ [Requested (worksheet_request (Some w) (tabId (this s))
                                       (headers (worksheetajax_ (this s))))] /\
       req_url (worksheet_request (Some w) (tabId (this s)) []) =
         ("https://spreadsheets.google.com/feeds/worksheets/" +:+ w +:+ "/private/full/" +:+
          tab_string (tabId (this s)))%string) /\
  (forall s l0 t u ps p,
     sheet (this s) = VRef l0 -> tab_data (heap s) (VRef l0) t u ps ->
     wrapped_field (heap s) (VRef l0) "id" (VStr (p +:+ "/")) ->
     exists s', _sheetChanged s = Throw (Error "workesheetId was not given.") s' /\
       _worksheetId (this s') = Some EmptyString /\ log s' = log s).
Proof.
  split.
  - intros s l0 t u ps p w ids Hp Hdata Hid Hw Hids Hne.
    pose proof (last_segment p w ids Hw Hids) as Hlast.
    destruct (_sheetChanged_resolves s l0 t u ps ids Hp Hdata Hid) as (s' & Heq & Hlog & Hwid & _).
    { by rewrite Hlast. }
    rewrite Hlast in Hlog, Hwid. exists s'. by repeat split.
  - intros s l0 t u ps p Hp (Ht & Hu & av & Hav & Hps) Hid.
    pose proof (last_segment p EmptyString (p +:+ "/") eq_refl (or_intror eq_refl)) as Hlast.
    destruct (_sheetChanged_projects s l0 t u av ps Hp Ht Hu Hav Hps)
      as (h1 & d & va & Heq & _ & _ & _ & _ & _ & Hother).
    rewrite Heq. unfold resolve_worksheet. unfold bind at 1.
    rewrite (path2_wrapped sheet "id" (set_heap h1 s) l0 (VStr (p +:+ "/")) Hp);
      [|by apply Hother].
    unfold bind at 1, update_this, modify. rewrite _getWorksheet_eq. cbv zeta.
    cbn [this set_this set_heap with_worksheetId _worksheetId]. rewrite Hlast.
    cbn [wid_truthy]. rewrite bool_decide_eq_true_2 by done. cbn [negb].
    eexists. split; [reflexivity|]. by split.
Qed.

Lemma worksheet_id_of_sheet_witness :
  (exists s', _sheetChanged sample_sheet_state = Ok tt s' /\
     _worksheetId (this s') = Some "KEY1"%string) /\
  (exists s', _sheetChanged slash_sheet_state = Throw (Error "workesheetId was not given.") s' /\
     _worksheetId (this s') = Some EmptyString).
Proof.
  split.
  - destruct (proj1 worksheet_id_of_sheet sample_sheet_state 14%nat
                (VStr "Budget") (VStr "2015-03-01T10:00:00Z") sample_authors
                "https://spreadsheets.google.com/feeds/spreadsheets/private/full"%string
                "KEY1"%string
                "https://spreadsheets.google.com/feeds/spreadsheets/private/full/KEY1"%string)
      as (s' & H1 & H2 & _).
    + reflexivity.
    + concrete_data.
    + concrete_wrapped.
    + reflexivity.
    + by right.
    + discriminate.
    + exists s'. split; [exact H1 | exact H2].
  - destruct (proj2 worksheet_id_of_sheet slash_sheet_state 11%nat
                (VStr "Budget") (VStr "2015-03-01T10:00:00Z") sample_authors
                "https://example.org/feeds"%string)
      as (s' & H1 & H2 & _).
    + reflexivity.
    + concrete_data.
    + concrete_wrapped.
    + exists s'. split; [exact H1 | exact H2].
Defined.

(** *** The URL of the editor *)

(** X15: [_computeGoogleDocsUrl] gives every key a URL of its own, and the bare
    address of the editor to the empty key alone. *)
Theorem docs_url_injective (k1 k2 : string) :
  k1 <> k2 -> _computeGoogleDocsUrl k1 <> _computeGoogleDocsUrl k2.
Proof.
  intros Hne Heq. apply Hne. unfold _computeGoogleDocsUrl in Heq. cbv zeta in Heq.
  destruct (bool_decide_reflect (k1 = EmptyString)) as [-> | H1];
    destruct (bool_decide_reflect (k2 = EmptyString)) as [-> | H2].
  - done.
  - by pose proof (append_cancel_l "https://docs.google.com/spreadsheet/" EmptyString
                     ("ccc?key=" +:+ k2) Heq).
  - by pose proof (append_cancel_l "https://docs.google.com/spreadsheet/"
                     ("ccc?key=" +:+ k1) EmptyString Heq).
  - apply append_cancel_l in Heq. by apply (append_cancel_l "ccc?key=") in Heq.
Qed.

Lemma docs_url_injective_witness :
  _computeGoogleDocsUrl "" <> _computeGoogleDocsUrl "KEY1".
Proof. apply docs_url_injective. discriminate. Defined.

(** *** Changes of the configuration *)

(** X16: what a change of [tabId] or [published] fetches.  With a worksheet id
    known and the rows of the new tab not cached, a change of [tabId] to
    another tab requests the private row feed of that worksheet and the new
    tab, whether [published] is set or not, and the worksheet itself is not
    requested again.  Without a worksheet id, on a published element, the
    change requests the public row feed of the key and the new tab; and
    setting [published] on an element that was not published requests it
    for the current tab. *)
Theorem config_change_fetches :
  (forall s n,
     n <> tabId (this s) ->
     wid_truthy (_worksheetId (this s)) = true ->
     rowDataCache_ s !! cache_key (_worksheetId (this s)) n = None ->
     exists s', dispatch (TabIdChanged n) s = Ok tt s' /\
       log s' = log s ++ [Requested (rows_request (_worksheetId (this s)) n
                                       (headers (cellrowsajax_ (this s))))] /\
       tabId (this s') = n /\ tab (this s') = tab (this s) /\ heap s' = heap s) /\
  (forall s n,
     n <> tabId (this s) ->
     wid_truthy (_worksheetId (this s)) = false -> published (this s) = true ->
     exists s', dispatch (TabIdChanged n) s = Ok tt s' /\
       log s' = log s ++ [Requested (public_request (key (this s)) n
                                       (headers (publicajax_ (this s))))]) /\
  (forall s,
     published (this s) = false ->
     wid_truthy (_worksheetId (this s)) = false ->
     exists s', dispatch (PublishedChanged true) s = Ok tt s' /\
       log s' = log s ++ [Requested (public_request (key (this s)) (tabId (this s))
                                       (headers (publicajax_ (this s))))]).
Proof.
  split; [|split].
  - intros s n _ Hw Hmiss. cbn [dispatch]. unfold bind at 1, update_this, modify, _configUpdate.
    rewrite _tabIdChanged_eq. cbn [this set_this with_tabId _worksheetId]. rewrite Hw.
    rewrite _getCellRows_eq. cbv zeta.
    cbn [this set_this with_tabId _worksheetId tabId rowDataCache_]. rewrite Hmiss.
    eexists. split; [reflexivity|]. by repeat split.
  - intros s n _ Hw Hp. cbn [dispatch]. unfold bind at 1, update_this, modify, _configUpdate.
    rewrite _tabIdChanged_eq. cbn [this set_this with_tabId _worksheetId published].
    rewrite Hw, Hp. rewrite _keyChanged_eq. cbn [this set_this with_tabId published]. rewrite Hp.
    eexists. split; [reflexivity|]. reflexivity.
  - intros s _ Hw. cbn [dispatch]. unfold bind at 1, update_this, modify, _configUpdate.
    rewrite _tabIdChanged_eq. cbn [this set_this with_published _worksheetId published].
    rewrite Hw. rewrite _keyChanged_eq. cbn [this set_this with_published published].
    eexists. split; [reflexivity|]. reflexivity.
Qed.

Lemma config_change_fetches_witness :
  (exists s', dispatch (TabIdChanged 2) resolved_state = Ok tt s' /\
     log s' = log resolved_state ++
       [Requested (rows_request (Some "KEY1"%string) 2 [("Authorization", "Bearer tok")]%string)]) /\
  (exists s', dispatch (TabIdChanged 2)
                (set_this (with_published true (this fresh_state)) fresh_state) = Ok tt s' /\
     log s' = [Requested (public_request "" 2 [])]) /\
  (exists s', dispatch (PublishedChanged true) fresh_state = Ok tt s' /\
     log s' = [Requested (public_request "" 1 [])]).
Proof.
  split; [|split].
  - destruct (proj1 config_change_fetches resolved_state 2) as (s' & H1 & H2 & _);
      [discriminate | reflexivity | reflexivity |].
    exists s'. split; [exact H1 | exact H2].
  - destruct (proj1 (proj2 config_change_fetches)
                (set_this (with_published true (this fresh_state)) fresh_state) 2)
      as (s' & H1 & H2); [discriminate | reflexivity | reflexivity |].
    exists s'. split; [exact H1 | exact H2].
  - destruct (proj2 (proj2 config_change_fetches) fresh_state) as (s' & H1 & H2);
      [reflexivity | reflexivity |].
    exists s'. split; [exact H1 | exact H2].
Defined.


(** *** The headers of the requests *)

Section Bearer.
Variable pub : list (string * string).
Variable priv : list (string * string).
Variable l0 : list obs.

Let J (s : state) : Prop := headers_are pub priv s /\ emits l0 (carries pub priv) s.

Lemma carried_same s s' :
  log s' = log s -> (forall a, headers (get_ajax a (this s')) = headers (get_ajax a (this s))) ->
  J s -> J s'.
Proof.
  intros Hlog Hh [HK HE]. split.
  - intros a. rewrite Hh. apply HK.
  - by apply (emits_same _ _ s).
Qed.

Lemma carried_request s r :
  req_headers r = headers (get_ajax (req_ajax r) (this s)) -> J s -> J (add_log (Requested r) s).
Proof.
  intros Hr [HK HE]. split; [exact HK|]. apply emits_log; [|exact HE].
  simpl. rewrite Hr. apply HK.
Qed.

Lemma carried_other s o :
  match o with Requested _ => False | _ => True end -> J s -> J (add_log o s).
Proof.
  intros Ho [HK HE]. split; [exact HK|]. apply emits_log; [|exact HE]. by destruct o.
Qed.

Lemma carried_url s a u :
  J s -> J (set_this (with_ajax a {| url := u; headers := headers (get_ajax a (this s)) |}
                        (this s)) s).
Proof.
  apply carried_same; [done|]. intros b. by destruct a, b.
Qed.

Lemma carried_send a u : inv J (set_url a u ;; generateRequest a).
Proof.
  intros s HJ. unfold bind, set_url, update_this, modify, generateRequest, this_, gets.
  cbn [final]. apply carried_request; [|by apply carried_url].
  cbn [req_headers req_ajax]. reflexivity.
Qed.

Lemma carried__keyChanged : inv J _keyChanged.
Proof.
  unfold _keyChanged. apply inv_bind; [auto with inv|intros p]. destruct p; [|auto with inv].
  apply inv_bind; [auto with inv|intros k]. apply inv_bind; [auto with inv|intros t].
  apply carried_send.
Qed.

Lemma carried_rows_request :
  inv J (w <- this_ _worksheetId ;;
         t <- this_ tabId ;;
         set_url cellrowsajax
           (SCOPE_ +:+ "/list/" +:+ wid_string w +:+ "/" +:+ tab_string t +:+ "/private/full") ;;
         generateRequest cellrowsajax).
Proof.
  apply inv_bind; [auto with inv|intros w]. apply inv_bind; [auto with inv|intros t].
  apply carried_send.
Qed.

Lemma carried_resolve w : inv J (update_this (with_worksheetId w) ;; _getWorksheet).
Proof.
  apply inv_bind.
  - apply inv_modify. intros s. by apply carried_same.
  - intros _. unfold _getWorksheet. apply inv_bind; [auto with inv|intros w'].
    destruct (negb _); [auto with inv|]. apply inv_bind; [auto with inv|intros t].
    apply carried_send.
Qed.

Lemma carried_cache feed : inv J (cache_feed feed).
Proof.
  apply inv_cache_feed.
  - intros s h. by apply carried_same.
  - intros s e _. by apply carried_same.
Qed.

Lemma carried_step ev s : is_signin ev = false -> J s -> J (final (dispatch ev s)).
Proof.
  intros Hev. revert s. change (inv J (dispatch ev)).
  assert (Hconfig : inv J _configUpdate).
  { apply inv__tabIdChanged; [apply carried_rows_request|apply carried__keyChanged]. }
  assert (Hfired : forall s t d v, J s -> J (add_log (Fired t d v) s)).
  { intros s t d v. by apply carried_other. }
  destruct ev as [k|n|b|c|tok| |a body]; cbn [dispatch].
  - apply inv_bind; [|intros _; apply carried__keyChanged].
    apply inv_modify. intros s. by apply carried_same.
  - apply inv_bind; [|intros _; exact Hconfig].
    apply inv_modify. intros s. by apply carried_same.
  - apply inv_bind; [|intros _; exact Hconfig].
    apply inv_modify. intros s. by apply carried_same.
  - apply inv_bind; [|intros _; exact Hconfig].
    apply inv_modify. intros s. by apply carried_same.
  - discriminate Hev.
  - apply inv_ret.
  - intros s HJ. change (J (final (dispatch (Response a body) s))).
    rewrite dispatch_response.
    assert (HJ1 : J (set_heap (alloc_json body (heap s)).2 (add_log (Delivered a) s))).
    { apply (carried_same (add_log (Delivered a) s)); [done|done|]. by apply carried_other. }
    revert HJ1. generalize (set_heap (alloc_json body (heap s)).2 (add_log (Delivered a) s)).
    generalize (EvResponse (alloc_json body (heap s)).1). intros e.
    change (inv J (on_response a e)).
    assert (Hrows : inv J (_onCellRows e)).
    { apply inv__onCellRows; try exact Hfired; try exact carried_cache;
        intros s' v; by apply carried_same. }
    destruct a; cbn [on_response].
    + exact Hrows.
    + apply inv__onSpreadsheetList; try exact Hfired; try exact carried_resolve;
        intros s' v; by apply carried_same.
    + apply inv__onWorksheet; try exact Hfired; try exact carried_rows_request;
        intros s' v; by apply carried_same.
    + exact Hrows.
Qed.

Lemma carried_run evs : forall s s',
  Forall (fun ev => is_signin ev = false) evs -> J s -> run evs s = Some s' -> J s'.
Proof.
  induction evs as [|ev evs IH]; intros s s' Hevs HJ Hrun.
  - by injection Hrun as <-.
  - inversion Hevs as [|? ? Hev Hevs']; subst. cbn [run] in Hrun. unfold step in Hrun.
    destruct (enabled ev s); [|discriminate]. apply (IH _ _ Hevs' (carried_step ev s Hev HJ) Hrun).
Qed.

End Bearer.

(** X17: after a sign-in success, and until the next one, every request that the
    element sends on [listsheetsajax], [worksheetajax] or [cellrowsajax]
    carries the header [Authorization: Bearer <token>] of that sign-in, and
    every request on [publicajax] the headers that [publicajax] had before:
    the token is never sent with a public request. *)
Theorem bearer_on_private_requests (tok : string) (evs : list event) (s0 s : state) :
  Forall (fun ev => is_signin ev = false) evs ->
  run (SignInSuccess tok :: evs) s0 = Some s ->
  exists ext, log s = log s0 ++ SignedIn tok :: ext /\
    Forall (carries (headers (publicajax_ (this s0))) (bearer tok)) ext /\
    headers_are (headers (publicajax_ (this s0))) (bearer tok) s.
Proof.
  intros Hevs Hrun. cbn [run] in Hrun. unfold step in Hrun. cbn [enabled] in Hrun.
  set (s1 := final (dispatch (SignInSuccess tok) s0)) in Hrun.
  destruct (carried_run (headers (publicajax_ (this s0))) (bearer tok)
              (log s0 ++ [SignedIn tok]) evs s1 s Hevs) as [HK (ext & Hlog & Hext)].
  - split.
    + intros a. subst s1. destruct a; simpl; reflexivity.
    + exists [Requested (list_request tok)]. split.
      * subst s1. reflexivity.
      * by constructor.
  - exact Hrun.
  - exists ext. split; [|by split]. rewrite Hlog. by rewrite <- app_assoc.
Qed.

Lemma bearer_on_private_requests_witness :
  exists ext, log resolved_state = [SignedIn "tok"] ++ ext /\
    Forall (carries [] (bearer "tok")) ext.
Proof.
  destruct (bearer_on_private_requests "tok"
              [Response listsheetsajax sample_list; Response worksheetajax sample_worksheet;
               Response cellrowsajax sample_rows]
              (set_this (with_key "KEY1" (this fresh_state)) fresh_state) resolved_state)
    as (ext & H1 & H2 & _).
  - repeat constructor.
  - vm_compute. reflexivity.
  - exists ext. split; [exact H1 | exact H2].
Defined.


(** *** The order of requests in every run *)

Lemma ordered_nil : ordered [].
Proof. intros n o H. by rewrite lookup_nil in H. Qed.

Lemma ordered_snoc l o : ordered l -> private_order l o -> ordered (l ++ [o]).
Proof.
  intros Hl Ho n o' Hn. destruct (decide (n < length l)%nat) as [Hlt|Hge].
  - rewrite lookup_app_l in Hn by exact Hlt. rewrite take_app_le by lia. by apply Hl.
  - rewrite lookup_app_r in Hn by lia.
    destruct (n - length l)%nat as [|k] eqn:Hk; [|by destruct k].
    injection Hn as <-. assert (n = length l) as -> by lia.
    by rewrite take_app_length.
Qed.

Lemma private_order_mono l ext o :
  movable o -> private_order l o -> private_order (l ++ ext) o.
Proof.
  intros Hm Ho. destruct o as [tok|r|a|t d v]; try (by apply in_order_mono).
  destruct Ho as [Ho|Ho]; [by left|right]. by apply (in_order_mono l ext (Requested r)).
Qed.

Lemma ordered_app l ext :
  ordered l -> Forall (fun o => movable o /\ private_order l o) ext -> ordered (l ++ ext).
Proof.
  revert l. induction ext as [|o ext IH]; intros l Hl Hext.
  - by rewrite app_nil_r.
  - inversion Hext as [|? ? [Hm Ho] Hext']; subst.
    rewrite (cons_middle o l ext), app_assoc. apply IH; [by apply ordered_snoc|].
    eapply Forall_impl; [exact Hext'|]. intros o' [Hm' Ho']. split; [done|].
    by apply private_order_mono.
Qed.

Lemma ordered_emitted l ext (A : obs -> Prop) :
  ordered l -> Forall A ext -> (forall o, A o -> movable o /\ private_order l o) ->
  ordered (l ++ ext).
Proof.
  intros Hl Hext HA. apply ordered_app; [done|]. eapply Forall_impl; [exact Hext|]. done.
Qed.

Lemma ordered_step ev s s' :
  worksheet_requested s -> ordered (log s) -> step ev s = Some s' -> ordered (log s').
Proof.
  intros Hw Hord Hstep. unfold step in Hstep.
  destruct (enabled ev s) eqn:Hen; [|discriminate]. injection Hstep as <-.
  assert (Hkey : forall s1, ordered (log s1) -> ordered (log (final (_keyChanged s1)))).
  { intros s1 H1. rewrite _keyChanged_eq. destruct (published (this s1)); [|done].
    simpl. apply ordered_snoc; [done|]. simpl. by left. }
  assert (Hconfig : forall s1, worksheet_requested s1 -> ordered (log s1) ->
            ordered (log (final (_configUpdate s1)))).
  { intros s1 Hw1 H1. unfold _configUpdate. rewrite _tabIdChanged_eq.
    destruct (wid_truthy _) eqn:Ht.
    - rewrite _getCellRows_eq. cbv zeta. destruct (rowDataCache_ s1 !! _); [done|].
      simpl. apply ordered_snoc; [done|]. simpl. right. unfold request_in_order. simpl.
      by apply Hw1.
    - destruct (published (this s1)); [by apply Hkey|done]. }
  destruct ev as [k|n|b|c|tok| |a body]; cbn [dispatch].
  - unfold bind at 1, update_this, modify. by apply Hkey.
  - unfold bind at 1, update_this, modify. by apply Hconfig.
  - unfold bind at 1, update_this, modify. by apply Hconfig.
  - unfold bind at 1, update_this, modify. by apply Hconfig.
  - change (ordered ((log s ++ [SignedIn tok]) ++ [Requested (list_request tok)])).
    apply (ordered_snoc (log s ++ [SignedIn tok])).
    + by apply ordered_snoc.
    + simpl. right. unfold request_in_order. simpl. exists tok. by rewrite last_snoc.
  - done.
  - simpl in Hen. apply bool_decide_eq_true in Hen.
    destruct (requests_on_pos a (log s) ltac:(lia)) as (r0 & Hr0 & Ha0).
    assert (Hord1 : ordered (log s ++ [Delivered a])).
    { apply ordered_snoc; [done|]. simpl. eauto. }
    change (ordered (log (final (dispatch (Response a body) s)))).
    rewrite dispatch_response.
    set (s1 := set_heap _ (add_log (Delivered a) s)).
    set (e := EvResponse _).
    change (log s ++ [Delivered a]) with (log s1) in Hord1.
    assert (Hrows : ordered (log (final (_onCellRows e s1)))).
    { destruct (rows_response_emits e s1) as (ext & -> & Hext).
      eapply ordered_emitted; [done|exact Hext|]. by intros [| r | |] Ho. }
    destruct a; cbn [on_response].
    + exact Hrows.
    + destruct (list_response_emits e s1) as (ext & -> & Hext).
      eapply ordered_emitted; [done|exact Hext|].
      intros [| r | |] Ho; try done. simpl in Ho. split; simpl.
      * by rewrite Ho.
      * right. unfold request_in_order. rewrite Ho. subst s1. simpl.
        apply elem_of_app. right. left.
    + destruct (worksheet_response_emits e s1) as (ext & -> & Hext).
      eapply ordered_emitted; [done|exact Hext|].
      intros [| r | |] Ho; try done. simpl in Ho. split; simpl.
      * by rewrite Ho.
      * right. unfold request_in_order. rewrite Ho. subst s1. simpl.
        exists r0. split; [|done]. apply elem_of_app. by left.
    + exact Hrows.
Qed.

Lemma ordered_run evs : forall s s',
  worksheet_requested s -> ordered (log s) -> run evs s = Some s' -> ordered (log s').
Proof.
  induction evs as [|ev evs IH]; intros s s' Hw Hord Hrun.
  - by injection Hrun as <-.
  - cbn [run] in Hrun. destruct (step ev s) as [s1|] eqn:Hstep; [|discriminate].
    assert (s1 = final (dispatch ev s)) as Hs1.
    { unfold step in Hstep. destruct (enabled ev s); congruence. }
    apply (IH s1 s'); try done.
    + subst s1. by apply worksheet_requested_kept.
    + by apply (ordered_step ev s).
Qed.

(** X18: in every run of an element that starts without a worksheet id, whatever
    the events (changes of [published] among them), the private requests come
    in order: a list request right after a sign-in success and with its
    token, a worksheet request after a list response, a private row request
    after a worksheet request, and a response only after a request on the
    same [iron-ajax]. *)
Theorem private_requests_ordered (evs : list event) (s0 s : state) :
  _worksheetId (this s0) = None -> log s0 = [] ->
  run evs s0 = Some s -> ordered (log s).
Proof.
  intros Hw Hlog Hrun. apply (ordered_run evs s0 s); [| |done].
  - intros Ht. by rewrite Hw in Ht.
  - rewrite Hlog. apply ordered_nil.
Qed.

Lemma private_requests_ordered_witness : ordered (log published_run_state).
Proof.
  apply (private_requests_ordered published_run fresh_state published_run_state);
    [reflexivity | reflexivity | vm_compute; reflexivity].
Defined.


(** *** The sheet observer writes the entry of the list *)

Lemma resolve_worksheet_this s :
  sheet (this (final (resolve_worksheet s))) = sheet (this s) /\
  spreadsheets (this (final (resolve_worksheet s))) = spreadsheets (this s).
Proof.
  set (J := fun s' => sheet (this s') = sheet (this s) /\
                      spreadsheets (this s') = spreadsheets (this s)).
  change (J (final (resolve_worksheet s))).
  assert (HJ : inv J resolve_worksheet); [|by apply HJ].
  unfold resolve_worksheet. apply inv_bind; [auto with inv|intros id].
  assert (Hresolve : forall w, inv J (update_this (with_worksheetId w) ;; _getWorksheet)).
  { intros w. by apply (inv_resolve _ (fun _ => True)). }
  destruct id; try (by intros s' Hs'). apply Hresolve.
Qed.

Lemma _sheetChanged_inplace s l0 t u ps :
  sheet (this s) = VRef l0 -> tab_data (heap s) (VRef l0) t u ps ->
  has_field (heap (final (_sheetChanged s))) (VRef l0) "title" t /\
  frame l0 (heap s) (heap (final (_sheetChanged s))) /\
  sheet (this (final (_sheetChanged s))) = VRef l0 /\
  spreadsheets (this (final (_sheetChanged s))) = spreadsheets (this s).
Proof.
  intros Hp (Ht & Hu & av & Hav & Hps).
  destruct (authors_of_spec sheet s l0 av ps Hp Hav Hps) as (ext & va & Hauthors & Hva).
  destruct (normalize_spec sheet va resolve_worksheet (set_heap (heap s ++ ext) s) l0 t u Hp)
    as (h1 & d & Hnorm & H1 & H2 & H3 & H4 & Hframe & Hother).
  { by apply wrapped_field_app. } { by apply wrapped_field_app. }
  assert (Heq : _sheetChanged s = resolve_worksheet (set_heap h1 s)).
  { unfold _sheetChanged. rewrite bind_this, Hp.
    destruct Ht as (m & Hm & Hm'). rewrite (bind_get_prop _ _ _ _ _ Hm).
    destruct Hm' as (lm & om & -> & _). cbn [truthy negb].
    unfold bind at 1. rewrite Hauthors. exact Hnorm. }
  rewrite Heq, resolve_worksheet_heap.
  destruct (resolve_worksheet_this (set_heap h1 s)) as [-> ->].
  split; [exact H1|]. split; [|by split].
  eapply frame_trans; [apply frame_app|exact Hframe].
Qed.

(** X19: the entry that the list response adopts as the sheet is the object that
    the published list holds: the sheet observer rewrites it in place.  After
    the response the list is the array as it came, the entry at its place in
    it, and the entry's [title] is the plain value, no longer a wrapper: for a
    string, [title.$t] of that entry is now [undefined]. *)
Theorem list_entry_rewritten (s : state) (r feed : jsval) (le : loc) (o : jsobj)
    (elems : list jsval) (i : nat) (l0 : loc) (title : string) (u : jsval)
    (ps : list (jsval * jsval)) :
  has_field (heap s) r "feed" feed -> has_field (heap s) feed "entry" (VRef le) ->
  heap s !! le = Some o -> kind o = KArray elems ->
  key (this s) <> EmptyString ->
  (forall j e, (j < i)%nat -> elems !! j = Some e -> links_elsewhere s e (key (this s))) ->
  elems !! i = Some (VRef l0) -> links_to s (VRef l0) (key (this s)) ->
  sheet (this s) <> VRef l0 -> le <> l0 ->
  tab_data (heap s) (VRef l0) (VStr title) u ps ->
  let s' := final (_onSpreadsheetList (EvResponse r) s) in
  spreadsheets (this s') = VRef le /\ heap s' !! le = Some o /\
  sheet (this s') = VRef l0 /\
  has_field (heap s') (VRef l0) "title" (VStr title) /\
  (x <- get_prop (VRef l0) "title" ;; get_prop x "$t") s' = Ok VUndef s'.
Proof.
  intros Hfeed Hentries Hle Hk Hkey Hbefore Hi Hmatch Hne Hll Hdata s'.
  assert (Heq : _onSpreadsheetList (EvResponse r) s =
                _sheetChanged (set_this (with_sheet (VRef l0) (this (list_published (VRef le) s)))
                                 (list_published (VRef le) s))).
  { rewrite (_onSpreadsheetList_eq s r feed (VRef le)); [|by apply js_get_has_field..].
    rewrite bool_decide_eq_false_2 by exact Hkey.
    set (s1 := list_published (VRef le) s).
    simpl index_bound. rewrite Hle, Hk.
    rewrite (find_sheet_finds feed s1 le o elems (VRef l0) Hentries Hle Hk i 0%nat).
    - by rewrite (_setSheet_changed _ s1) by exact Hne.
    - apply lookup_lt_Some in Hi. lia.
    - intros j e Hj He. apply (links_elsewhere_same_heap s); [done|].
      apply (Hbefore j e); [lia|done].
    - exact Hi.
    - by apply (links_to_same_heap s). }
  subst s'. rewrite Heq.
  set (s2 := set_this _ _).
  destruct (_sheetChanged_inplace s2 l0 (VStr title) u ps eq_refl Hdata)
    as (Htitle & Hframe & Hsheet & Hlist).
  split; [by rewrite Hlist|]. split; [by apply Hframe|]. split; [exact Hsheet|].
  split; [exact Htitle|].
  by rewrite (bind_get_prop _ _ _ _ _ Htitle).
Qed.

Lemma list_entry_rewritten_witness :
  let s' := final (_onSpreadsheetList (EvResponse (VRef 17%nat)) list_state) in
  spreadsheets (this s') = VRef 15%nat /\ heap s' !! 15%nat = Some (array [VRef 14%nat]) /\
  sheet (this s') = VRef 14%nat /\
  has_field (heap s') (VRef 14%nat) "title" (VStr "Budget").
Proof.
  destruct (list_entry_rewritten list_state (VRef 17%nat) (VRef 16%nat) 15%nat
              (array [VRef 14%nat]) [VRef 14%nat] 0%nat 14%nat "Budget"
              (VStr "2015-03-01T10:00:00Z") sample_authors) as (H1 & H2 & H3 & H4 & _).
  - concrete_field.
  - concrete_field.
  - reflexivity.
  - reflexivity.
  - discriminate.
  - intros j e Hj. lia.
  - reflexivity.
  - eexists _, _, _. split; [concrete_field|]. split; [reflexivity|].
    split; [concrete_field|reflexivity].
  - discriminate.
  - lia.
  - concrete_data.
  - intros s'. split; [exact H1|]. split; [exact H2|]. split; [exact H3|exact H4].
Defined.

(** *** A sheet that lacks its timestamp *)

(** X20: the projection is not undone when it fails half way: for a sheet with a
    title and authors but no [updated], the observer throws when it reads
    [updated.$t]; by then [title] has been replaced by its plain value.  No
    worksheet id is derived and nothing is sent. *)
Theorem sheet_without_updated (s : state) (l0 : loc) (o : jsobj) (t av : jsval)
    (ps : list (jsval * jsval)) :
  sheet (this s) = VRef l0 -> heap s !! l0 = Some o -> props o !! "updated" = None ->
  wrapped_field (heap s) (VRef l0) "title" t ->
  has_field (heap s) (VRef l0) "author" av -> author_list (heap s) av ps ->
  exists s', _sheetChanged s = Throw TypeError s' /\
    has_field (heap s') (VRef l0) "title" t /\
    this s' = this s /\ log s' = log s /\ rowDataCache_ s' = rowDataCache_ s.
Proof.
  intros Hp Hl0 Hupd Ht Hav Hps.
  destruct (authors_of_spec sheet s l0 av ps Hp Hav Hps) as (ext & va & Hauthors & Hva).
  set (s1 := set_heap (heap s ++ ext) s).
  set (h1 := heap_put (heap s ++ ext) l0 "title" t).
  exists (set_heap h1 s). split; [|split; [|done]].
  - unfold _sheetChanged. rewrite bind_this, Hp.
    pose proof Ht as (m & Hm & Hm'). rewrite (bind_get_prop _ _ _ _ _ Hm).
    destruct Hm' as (lm & om & -> & _). cbn [truthy negb].
    unfold bind at 1. rewrite Hauthors. fold s1.
    unfold bind at 1. rewrite (path2_wrapped sheet "title" s1 l0 t Hp);
      [|by apply wrapped_field_app].
    unfold bind at 1. rewrite (polymer_set_ref sheet s1 l0 "title" t Hp).
    change (heap s1) with (heap s ++ ext). fold h1.
    change (set_heap h1 s1) with (set_heap h1 s).
    unfold bind at 1, path2. rewrite bind_this.
    change (sheet (this (set_heap h1 s))) with (sheet (this s)). rewrite Hp.
    assert (Hget : js_get (heap (set_heap h1 s)) (VRef l0) "updated" = Some VUndef).
    { cbn [heap set_heap js_get]. subst h1. unfold heap_put.
      rewrite (lookup_app_l_Some _ _ _ _ Hl0).
      rewrite list_lookup_insert_eq by (apply lookup_lt_Some in Hl0; rewrite length_app; lia).
      cbn [props]. by rewrite lookup_insert_ne, Hupd. }
    by rewrite (bind_js_get _ _ _ _ _ Hget).
  - apply has_field_put_same. exists o. by apply lookup_app_l_Some.
Qed.

Lemma sheet_without_updated_witness :
  exists s', _sheetChanged undated_sheet_state = Throw TypeError s' /\
    has_field (heap s') (VRef 9%nat) "title" (VStr "Budget").
Proof.
  destruct (sheet_without_updated undated_sheet_state 9%nat
              (plain (<["title"%string := VRef 4%nat]> {["author"%string := VRef 8%nat]}))
              (VStr "Budget") (VRef 8%nat) sample_authors) as (s' & H1 & H2 & _).
  - reflexivity.
  - reflexivity.
  - reflexivity.
  - concrete_wrapped.
  - concrete_field.
  - eexists _, _, _. split; [reflexivity|]. split; [reflexivity|]. split; [reflexivity|].
    constructor; [split; concrete_wrapped|constructor].
  - exists s'. split; [exact H1 | exact H2].
Defined.

(** *** A tab without authors *)

Lemma authors_of_absent prop s l0 o :
  prop (this s) = VRef l0 -> heap s !! l0 = Some o -> props o !! "author" = None ->
  authors_of prop s = Ok VUndef s.
Proof.
  intros Hp Hl0 Ha.
  assert (Hget : js_get (heap s) (VRef l0) "author" = Some VUndef) by (simpl; by rewrite Hl0, Ha).
  unfold authors_of. rewrite bind_this, Hp. by rewrite (bind_js_get _ _ _ _ _ Hget).
Qed.

(** X21: a tab whose feed has no [author] is projected all the same: [title] and
    [updated] as always, [authors] set to [undefined] (the guard
    [this.tab.author && ...] keeps [map] from being called), and the tab event
    is fired. *)
Theorem tab_without_authors (s : state) (l0 : loc) (o : jsobj) (t u : jsval) :
  tab (this s) = VRef l0 -> heap s !! l0 = Some o -> props o !! "author" = None ->
  wrapped_field (heap s) (VRef l0) "title" t ->
  wrapped_field (heap s) (VRef l0) "updated" u ->
  exists s' d, _tabChanged s = Ok tt s' /\
    has_field (heap s') (VRef l0) "title" t /\
    has_field (heap s') (VRef l0) "updated" d /\ date_of (heap s') d u /\
    has_field (heap s') (VRef l0) "authors" VUndef /\
    log s' = log s ++ [Fired "google-sheet-data" "tab" (VRef l0)].
Proof.
  intros Hp Hl0 Ha Ht Hu.
  set (h0 := heap_put (heap s) l0 "authors" VUndef).
  destruct (normalize_spec tab VUndef
              (data <- this_ tab ;; fire "google-sheet-data" "tab" data)
              (set_heap h0 s) l0 t u Hp)
    as (h1 & d & Hnorm & H1 & H2 & H3 & H4 & _).
  { by apply wrapped_field_put_other. }
  { by apply wrapped_field_put_other. }
  exists (add_log (Fired "google-sheet-data" "tab" (VRef l0)) (set_heap h1 s)), d.
  split; [|by repeat split].
  unfold _tabChanged. rewrite bind_this, Hp.
  pose proof Ht as (m & Hm & Hm'). rewrite (bind_get_prop _ _ _ _ _ Hm).
  destruct Hm' as (lm & om & -> & _). cbn [truthy negb].
  rewrite bind_this, Hp. unfold bind at 1. rewrite (authors_of_absent tab s l0 o Hp Hl0 Ha).
  unfold bind at 1. rewrite put_prop_ref. fold h0.
  rewrite Hnorm. rewrite set_heap_set_heap, bind_this. cbn [this set_heap].
  by rewrite Hp.
Qed.

Lemma tab_without_authors_witness :
  exists s' d, _tabChanged anonymous_tab_state = Ok tt s' /\
    has_field (heap s') (VRef 6%nat) "title" (VStr "Sheet1") /\
    has_field (heap s') (VRef 6%nat) "updated" d /\
    has_field (heap s') (VRef 6%nat) "authors" VUndef.
Proof.
  destruct (tab_without_authors anonymous_tab_state 6%nat
              (plain (<["title"%string := VRef 4%nat]> {["updated"%string := VRef 5%nat]}))
              (VStr "Sheet1") (VStr "2015-03-02T10:00:00Z"))
    as (s' & d & H1 & H2 & H3 & _ & H4 & _).
  - reflexivity.
  - reflexivity.
  - reflexivity.
  - concrete_wrapped.
  - concrete_wrapped.
  - exists s', d. split; [exact H1|]. split; [exact H2|]. split; [exact H3|exact H4].
Defined.


(** *** One request for an event *)

Lemma sent_snoc l o : sent (l ++ [o]) = (sent l + if is_request o then 1 else 0)%nat.
Proof.
  unfold sent. rewrite List.filter_app, length_app. simpl. by destruct (is_request o).
Qed.

Lemma sent_app l l' : sent (l ++ l') = (sent l + sent l')%nat.
Proof. unfold sent. by rewrite List.filter_app, length_app. Qed.

Section OneRequest.
Variable l0 : list obs.

Let K (c : nat) (s : state) : Prop := sent_since l0 c s.
Let K1 (s : state) : Prop := sent_current l0 s.

Lemma quiet_same c s s' : log s' = log s -> K c s -> K c s'.
Proof. intros Heq (ext & Hlog & Hc). exists ext. by rewrite Heq. Qed.

Lemma quiet_log c s o : is_request o = false -> K c s -> K c (add_log o s).
Proof.
  intros Ho (ext & Hlog & Hc). exists (ext ++ [o]). simpl. rewrite Hlog, app_assoc.
  split; [done|]. rewrite sent_snoc, Ho. lia.
Qed.

Lemma sent_none ext r : (sent ext <= 0)%nat -> Requested r ∈ ext -> False.
Proof.
  intros Hc Hr. apply list_elem_of_split in Hr as (l1 & l2 & ->).
  rewrite sent_app in Hc. unfold sent at 2 in Hc. simpl in Hc. lia.
Qed.

Lemma quiet_weaken s : K 0%nat s -> K1 s.
Proof.
  intros (ext & Hlog & Hc). exists ext. split; [done|]. split; [lia|].
  intros r Hr. by destruct (sent_none ext r).
Qed.

(** [this.$.<a>.url = <the url of a>; this.$.<a>.generateRequest()] *)
Lemma quiet_request s a :
  K 0%nat s ->
  K1 (add_log (Requested (request_of a (this s)))
        (set_this (with_ajax a {| url := url_of a (this s);
                                  headers := headers (get_ajax a (this s)) |} (this s)) s)).
Proof.
  intros (ext & Hlog & Hc). exists (ext ++ [Requested (request_of a (this s))]).
  cbn [log add_log set_this]. rewrite Hlog, app_assoc. split; [done|].
  split; [rewrite sent_snoc; simpl; lia|].
  intros r Hr. apply elem_of_app in Hr as [Hr|Hr]; [by destruct (sent_none ext r)|].
  apply list_elem_of_singleton in Hr. injection Hr as ->. cbn [this add_log set_this].
  by destruct a.
Qed.

Lemma hoare_bind {A B} (m : M A) (k : A -> M B) :
  inv (K 0%nat) m -> (forall a, hoare (K 0%nat) K1 (k a)) ->
  hoare (K 0%nat) K1 (bind m k).
Proof.
  intros Hm Hk s Hs. unfold bind. specialize (Hm s Hs).
  destruct (m s) as [a s'|e s']; simpl in Hm; [by apply Hk | by apply quiet_weaken].
Qed.

Lemma hoare_quiet {A} (m : M A) : inv (K 0%nat) m -> hoare (K 0%nat) K1 m.
Proof. intros Hm s Hs. by apply quiet_weaken, Hm. Qed.

Lemma quiet_update f :
  (forall s, log (set_this (f (this s)) s) = log s) -> inv (K 0%nat) (update_this f).
Proof. intros _. apply inv_modify. intros s. by apply quiet_same. Qed.

Lemma quiet_heap s h : K 0%nat s -> K 0%nat (set_heap h s).
Proof. by apply quiet_same. Qed.

Lemma quiet_fired s t d v : K 0%nat s -> K 0%nat (add_log (Fired t d v) s).
Proof. by apply quiet_log. Qed.

Lemma quiet__setTab v : inv (K 0%nat) (_setTab v).
Proof.
  apply inv__setTab; [exact quiet_heap| |exact quiet_fired].
  intros s x. by apply quiet_same.
Qed.

Lemma quiet__onCellRows e : inv (K 0%nat) (_onCellRows e).
Proof.
  apply inv__onCellRows; [exact quiet_heap| | |exact quiet_fired|].
  - intros s x. by apply quiet_same.
  - intros s x. by apply quiet_same.
  - intros feed. apply inv_cache_feed; [exact quiet_heap|]. intros s x _. by apply quiet_same.
Qed.

Lemma once__keyChanged : hoare (K 0%nat) K1 _keyChanged.
Proof.
  intros s Hs. rewrite _keyChanged_eq.
  destruct (published _); [|by apply quiet_weaken]. by apply (quiet_request s publicajax).
Qed.

Lemma once__getWorksheet : hoare (K 0%nat) K1 _getWorksheet.
Proof.
  intros s Hs. rewrite _getWorksheet_eq. cbv zeta.
  destruct (wid_truthy _); [|by apply quiet_weaken]. by apply (quiet_request s worksheetajax).
Qed.

Lemma once__getCellRows : hoare (K 0%nat) K1 _getCellRows.
Proof.
  intros s Hs. rewrite _getCellRows_eq. cbv zeta.
  destruct (rowDataCache_ s !! _); [by apply quiet_weaken|].
  by apply (quiet_request s cellrowsajax).
Qed.

Lemma once__configUpdate : hoare (K 0%nat) K1 _configUpdate.
Proof.
  unfold _configUpdate, _tabIdChanged. apply hoare_bind; [auto with inv|intros w].
  destruct (wid_truthy w); [apply once__getCellRows|].
  apply hoare_bind; [auto with inv|intros p].
  destruct p; [apply once__keyChanged|apply hoare_quiet; auto with inv].
Qed.

Lemma once__sheetChanged : hoare (K 0%nat) K1 _sheetChanged.
Proof.
  assert (Hset : forall prop name v, inv (K 0%nat) (polymer_set prop name v)).
  { intros prop name v. apply inv_polymer_set. exact quiet_heap. }
  unfold _sheetChanged. apply hoare_bind; [auto with inv|intros root].
  apply hoare_bind; [auto with inv|intros title].
  destruct (negb _); [apply hoare_quiet; auto with inv|].
  apply hoare_bind; [apply inv_authors_of; exact quiet_heap|intros authors].
  apply hoare_bind; [auto with inv|intros t]. apply hoare_bind; [apply Hset|intros _].
  apply hoare_bind; [auto with inv|intros u].
  apply hoare_bind; [apply inv_new; exact quiet_heap|intros d].
  apply hoare_bind; [apply Hset|intros _]. apply hoare_bind; [apply Hset|intros _].
  apply hoare_bind; [auto with inv|intros id].
  apply hoare_bind; [|intros _; apply once__getWorksheet].
  destruct id; auto with inv. by apply quiet_update.
Qed.

Lemma once__setSheet v : hoare (K 0%nat) K1 (_setSheet v).
Proof.
  unfold _setSheet. apply hoare_bind; [auto with inv|intros old].
  destruct (bool_decide _); [apply hoare_quiet; auto with inv|].
  apply hoare_bind; [by apply quiet_update|intros _]. apply once__sheetChanged.
Qed.

Lemma once_find_sheet fuel feed : forall i, hoare (K 0%nat) K1 (find_sheet fuel feed i).
Proof.
  induction fuel as [|fuel IH]; intros i; cbn [find_sheet]; [apply hoare_quiet; auto with inv|].
  apply hoare_bind; [auto with inv|intros entries].
  apply hoare_bind; [auto with inv|intros entry].
  destruct (truthy entry); [|apply hoare_quiet; auto with inv].
  apply hoare_bind; [auto with inv|intros links].
  apply hoare_bind; [apply inv_getLink_|intros alt].
  apply hoare_bind.
  - destruct (truthy alt); [|auto with inv].
    apply inv_bind; [auto with inv|intros href]. apply inv_bind; [auto with inv|intros k].
    apply inv_indexOf_found.
  - intros found. destruct found; [apply once__setSheet|apply IH].
Qed.

Lemma once__onSpreadsheetList e : hoare (K 0%nat) K1 (_onSpreadsheetList e).
Proof.
  unfold _onSpreadsheetList. apply hoare_bind; [auto with inv|intros _].
  apply hoare_bind; [auto with inv|intros response].
  apply hoare_bind; [auto with inv|intros feed].
  apply hoare_bind; [auto with inv|intros entries].
  apply hoare_bind; [by apply quiet_update|intros _].
  apply hoare_bind; [auto with inv|intros data].
  apply hoare_bind; [apply inv_modify; intros s; apply quiet_fired|intros _].
  apply hoare_bind; [auto with inv|intros k].
  destruct (bool_decide _); [apply hoare_quiet; auto with inv|].
  apply hoare_bind; [auto with inv|intros n]. apply once_find_sheet.
Qed.

Lemma once__onWorksheet e : hoare (K 0%nat) K1 (_onWorksheet e).
Proof.
  unfold _onWorksheet. apply hoare_bind; [auto with inv|intros _].
  apply hoare_bind; [auto with inv|intros response].
  apply hoare_bind; [auto with inv|intros entry].
  apply hoare_bind; [apply quiet__setTab|intros _]. apply once__getCellRows.
Qed.

Lemma once_dispatch ev : hoare (K 0%nat) K1 (dispatch ev).
Proof.
  destruct ev as [k|n|b|c|tok| |a body]; cbn [dispatch].
  - apply hoare_bind; [by apply quiet_update|intros _]. apply once__keyChanged.
  - apply hoare_bind; [by apply quiet_update|intros _]. apply once__configUpdate.
  - apply hoare_bind; [by apply quiet_update|intros _]. apply once__configUpdate.
  - apply hoare_bind; [by apply quiet_update|intros _]. apply once__configUpdate.
  - apply hoare_bind; [apply inv_modify; intros s; by apply quiet_log|intros _].
    unfold _onSignInSuccess. cbv zeta.
    do 3 (apply hoare_bind; [by apply quiet_update|intros _]).
    intros s Hs. by apply (quiet_request s listsheetsajax).
  - apply hoare_quiet, inv_ret.
  - apply hoare_bind; [apply inv_modify; intros s; by apply quiet_log|intros _].
    apply hoare_bind.
    + intros s Hs. destruct (alloc_json body (heap s)). by apply quiet_heap.
    + intros r. destruct a; cbn [on_response];
        [apply hoare_quiet, quiet__onCellRows | apply once__onSpreadsheetList
        | apply once__onWorksheet | apply hoare_quiet, quiet__onCellRows].
Qed.

End OneRequest.

Lemma once_event ev s : sent_current (log s) (final (dispatch ev s)).
Proof. apply (once_dispatch (log s) ev s). exists []. by rewrite app_nil_r. Qed.

(** X22: no event makes the element send more than one request: whatever the event
    and the state, the handler only appends to the trace, and what it appends
    holds at most one request.  So a run of n events sends at most n
    requests. *)
Theorem one_request_per_event :
  (forall ev s, exists ext,
     log (final (dispatch ev s)) = log s ++ ext /\ (sent ext <= 1)%nat) /\
  (forall evs s s', run evs s = Some s' ->
     (sent (log s') <= sent (log s) + length evs)%nat).
Proof.
  assert (Hone : forall ev s, exists ext,
            log (final (dispatch ev s)) = log s ++ ext /\ (sent ext <= 1)%nat).
  { intros ev s. destruct (once_event ev s) as (ext & Hlog & Hext & _). by exists ext. }
  split; [exact Hone|].
  induction evs as [|ev evs IH]; intros s s' Hrun.
  - injection Hrun as <-. simpl. lia.
  - cbn [run] in Hrun. unfold step in Hrun. destruct (enabled ev s); [|discriminate].
    specialize (IH _ _ Hrun). destruct (Hone ev s) as (ext & Hlog & Hext).
    rewrite Hlog, sent_app in IH. simpl. lia.
Qed.

Lemma one_request_per_event_witness :
  (sent (log resolved_state) <= sent (log fresh_state) + length private_scenario)%nat.
Proof.
  apply (proj2 one_request_per_event private_scenario fresh_state resolved_state).
  vm_compute. reflexivity.
Defined.

(** X23: a request is never stale: whatever an event makes the element send is
    the request of the element as the handler leaves it.  It is a GET with
    the parameter alt=json; its url is the address under
    https://spreadsheets.google.com/feeds that belongs to its [iron-ajax],
    built from the key, tab id and worksheet id that the element has when
    the handler ends; its headers are those of that [iron-ajax]. *)
Theorem requests_are_current (ev : event) (s : state) :
  let s' := final (dispatch ev s) in
  exists ext, log s' = log s ++ ext /\
    forall r, Requested r ∈ ext ->
      r = request_of (req_ajax r) (this s') /\ String.prefix SCOPE_ (req_url r) = true.
Proof.
  intros s'. destruct (once_event ev s) as (ext & Hlog & _ & Hext).
  exists ext. split; [exact Hlog|]. intros r Hr. specialize (Hext r Hr).
  split; [exact Hext|]. rewrite Hext. by destruct (req_ajax r).
Qed.


(** *** What the body of a response puts on the heap *)

Lemma alloc_json_arr items h :
  alloc_json (JArr items) h =
  let '(vs, h') := alloc_items items h in js_alloc h' (array vs).
Proof. reflexivity. Qed.

Lemma alloc_json_obj members h :
  alloc_json (JObj members) h =
  let '(ps, h') := alloc_members members ∅ h in js_alloc h' (plain ps).
Proof. reflexivity. Qed.

Lemma json_induction (P : json -> Prop) :
  P JNull -> (forall b, P (JBool b)) -> (forall n, P (JNum n)) -> (forall s, P (JStr s)) ->
  (forall items, Forall P items -> P (JArr items)) ->
  (forall members, Forall (fun m => P m.2) members -> P (JObj members)) ->
  forall j, P j.
Proof.
  intros HN HB HZ HS HA HO. fix IH 1. intros [| b | n | s | items | members].
  - exact HN.
  - apply HB.
  - apply HZ.
  - apply HS.
  - apply HA. revert items. fix IHl 1. intros [|j items]; constructor; [apply IH|apply IHl].
  - apply HO. revert members. fix IHl 1. intros [|[k j] members]; constructor;
      [apply IH|apply IHl].
Qed.

Lemma fresh_mono n m v : (n <= m)%nat -> fresh m v -> fresh n v.
Proof. destruct v; simpl; try done. lia. Qed.

(** Allocation appends closed objects and returns a fresh value. *)
Lemma alloc_json_closed (n : nat) (j : json) : forall h,
  (n <= length h)%nat ->
  exists ext, (alloc_json j h).2 = h ++ ext /\ Forall (closed_obj n) ext /\
    fresh n (alloc_json j h).1.
Proof.
  induction j as [| b | z | s | items IH | members IH] using json_induction; intros h Hn;
    try (exists []; rewrite app_nil_r; by repeat split).
  - assert (Hitems : forall h, (n <= length h)%nat ->
      exists ext, (alloc_items items h).2 = h ++ ext /\ Forall (closed_obj n) ext /\
        Forall (fresh n) (alloc_items items h).1).
    { clear h Hn. induction IH as [|j items Hj _ IHitems]; intros h Hn.
      - exists []. rewrite app_nil_r. by repeat split.
      - cbn [alloc_items]. destruct (Hj h Hn) as (ext1 & H1 & Hc1 & Hv).
        destruct (alloc_json j h) as [v h1]. cbn [fst snd] in *. subst h1.
        destruct (IHitems (h ++ ext1)) as (ext2 & H2 & Hc2 & Hvs).
        { rewrite length_app. lia. }
        destruct (alloc_items items (h ++ ext1)) as [vs h2]. cbn [fst snd] in *. subst h2.
        exists (ext1 ++ ext2). rewrite app_assoc. split; [done|].
        split; [by apply Forall_app|by constructor]. }
    destruct (Hitems h Hn) as (ext & H & Hc & Hvs). rewrite alloc_json_arr.
    destruct (alloc_items items h) as [vs h']. cbn [fst snd] in *. subst h'.
    exists (ext ++ [array vs]). unfold js_alloc. cbn [fst snd]. rewrite app_assoc.
    split; [done|]. split.
    + apply Forall_app. split; [done|]. constructor; [|done]. split; [|done].
      intros name v Hv. simpl in Hv. by rewrite lookup_empty in Hv.
    + simpl. rewrite length_app. lia.
  - assert (Hmembers : forall ps h, (n <= length h)%nat ->
      (forall name v, ps !! name = Some v -> fresh n v) ->
      exists ext, (alloc_members members ps h).2 = h ++ ext /\ Forall (closed_obj n) ext /\
        forall name v, (alloc_members members ps h).1 !! name = Some v -> fresh n v).
    { clear h Hn. induction IH as [|[k j] members Hj _ IHmembers]; intros ps h Hn Hps.
      - exists []. rewrite app_nil_r. by repeat split.
      - cbn [alloc_members]. cbn [snd] in Hj. destruct (Hj h Hn) as (ext1 & H1 & Hc1 & Hv).
        destruct (alloc_json j h) as [v h1]. cbn [fst snd] in *. subst h1.
        destruct (IHmembers (<[k := v]> ps) (h ++ ext1)) as (ext2 & H2 & Hc2 & Hps2).
        { rewrite length_app. lia. }
        { intros name x Hx. destruct (decide (name = k)) as [->|Hne].
          - rewrite lookup_insert_eq in Hx. by injection Hx as <-.
          - rewrite lookup_insert_ne in Hx by done. by apply (Hps name). }
        exists (ext1 ++ ext2). rewrite app_assoc. rewrite <- H2. split; [done|].
        split; [by apply Forall_app|done]. }
    destruct (Hmembers ∅ h Hn) as (ext & H & Hc & Hps).
    { intros name v Hv. by rewrite lookup_empty in Hv. }
    rewrite alloc_json_obj.
    destruct (alloc_members members ∅ h) as [ps h']. cbn [fst snd] in *. subst h'.
    exists (ext ++ [plain ps]). unfold js_alloc. cbn [fst snd]. rewrite app_assoc.
    split; [done|]. split.
    + apply Forall_app. split; [done|]. constructor; [|done]. by split.
    + simpl. rewrite length_app. lia.
Qed.

(** What is read from the objects of a response is fresh as well. *)
Lemma grown_get h ext v name x :
  Forall (closed_obj (length h)) ext -> fresh (length h) v ->
  js_get (h ++ ext) v name = Some x -> fresh (length h) x.
Proof.
  intros Hc Hv. destruct v as [| | | | |l]; simpl; try (by intros [= <-]); try done.
  simpl in Hv. destruct ((h ++ ext) !! l) as [o|] eqn:Hl; [|by intros [= <-]].
  intros [= <-]. rewrite lookup_app_r in Hl by done.
  destruct (proj1 (Forall_lookup _ _) Hc _ _ Hl) as [Hp _].
  destruct (props o !! name) as [y|] eqn:Hy; [|done]. by apply (Hp name).
Qed.

Lemma grown_index h ext v i x :
  Forall (closed_obj (length h)) ext -> fresh (length h) v ->
  js_index (h ++ ext) v i = Some x -> fresh (length h) x.
Proof.
  intros Hc Hv. destruct v as [| | | |t|l]; simpl; try (by intros [= <-]); try done.
  { intros [= <-]. by destruct (String.get i t). }
  simpl in Hv. destruct ((h ++ ext) !! l) as [o|] eqn:Hl; [|by intros [= <-]].
  rewrite lookup_app_r in Hl by done.
  destruct (proj1 (Forall_lookup _ _) Hc _ _ Hl) as [Hp Hk].
  destruct (kind o) as [|elems|arg].
  - intros [= <-]. destruct (props o !! _) as [y|] eqn:Hy; [|done]. by apply (Hp _ _ Hy).
  - intros [= <-]. destruct (elems !! i) as [y|] eqn:Hy; [|done].
    by apply (proj1 (Forall_lookup _ _) Hk _ _ Hy).
  - intros [= <-]. destruct (props o !! _) as [y|] eqn:Hy; [|done]. by apply (Hp _ _ Hy).
Qed.

(** *** Handlers write to the objects they were handed only *)

Lemma frame_on_refl W h : frame_on W h h.
Proof. by intros l o. Qed.

Lemma frame_on_trans W h1 h2 h3 : frame_on W h1 h2 -> frame_on W h2 h3 -> frame_on W h1 h3.
Proof. intros H1 H2 l o Hl Ho. by apply H2, H1. Qed.

Lemma frame_on_mono (W W' : loc -> Prop) h h' :
  (forall l, W l -> W' l) -> frame_on W h h' -> frame_on W' h h'.
Proof. intros HW H l o Hl Ho. apply H; [|done]. intros Hw. by apply Hl, HW. Qed.

Lemma frame_on_app W h ext : frame_on W h (h ++ ext).
Proof. intros l o _ Ho. by apply lookup_app_l_Some. Qed.

Lemma frame_on_put (W : loc -> Prop) h l name x : W l -> frame_on W h (heap_put h l name x).
Proof.
  intros Hl l' o Hn Ho. rewrite heap_put_lookup_ne; [done|]. intros ->. by apply Hn.
Qed.

Lemma frame_on_prefix (W : loc -> Prop) h ext h' :
  frame_on W (h ++ ext) h' -> (forall l, W l -> (length h <= l)%nat) -> h `prefix_of` h'.
Proof.
  intros Hf HW.
  assert (Hl : forall l o, h !! l = Some o -> h' !! l = Some o).
  { intros l o Ho. apply Hf; [|by apply lookup_app_l_Some].
    intros Hw. apply HW in Hw. apply lookup_lt_Some in Ho. lia. }
  clear Hf HW. revert h' Hl. induction h as [|x h IH]; intros h' Hl.
  - apply prefix_nil.
  - destruct h' as [|y h']; [by specialize (Hl 0%nat x eq_refl)|].
    specialize (Hl 0%nat x eq_refl) as H0. injection H0 as ->.
    apply prefix_cons, IH. intros l o Ho. by apply (Hl (S l)).
Qed.

(** While a handler leaves [this] alone and writes to [W] only. *)
Section Writes.
Variable e0 : element.
Variable h0 : JS.heap.
Variable W : loc -> Prop.

Let J (s : state) : Prop := this s = e0 /\ frame_on W h0 (heap s).
Let F (s : state) : Prop := frame_on W h0 (heap s).

Lemma writes_new o : inv J (new o).
Proof.
  intros s [He Hf]. rewrite new_eq. split; [done|]. cbn.
  eapply frame_on_trans; [exact Hf|apply frame_on_app].
Qed.

Lemma writes_put v name x : (forall l, v = VRef l -> W l) -> inv J (put_prop v name x).
Proof.
  intros Hv s [He Hf]. unfold put_prop, bind, lift_option, modify.
  destruct v; simpl; try done. split; [done|].
  eapply frame_on_trans; [exact Hf|]. apply frame_on_put. by apply Hv.
Qed.

Lemma writes_this {A B} (f : element -> A) (k : A -> M B) :
  inv J (k (f e0)) -> inv J (bind (this_ f) k).
Proof. intros Hk s Hs. rewrite bind_this. destruct (Hs) as [He Hf]. rewrite He. by apply Hk. Qed.

Lemma writes_polymer_set prop name v :
  (forall l, prop e0 = VRef l -> W l) -> inv J (polymer_set prop name v).
Proof.
  intros Hp. unfold polymer_set. apply writes_this.
  destruct (truthy _); [by apply writes_put|apply inv_ret].
Qed.

Lemma writes_fire t d v : inv J (fire t d v).
Proof. apply inv_modify. by intros s [? ?]. Qed.

Hint Resolve writes_new writes_fire : inv.

Lemma writes_author_pair a : inv J (author_pair a).
Proof. unfold author_pair, new_object. inv_auto. Qed.

Lemma writes_map_M f l : (forall a, inv J (f a)) -> inv J (map_M f l).
Proof. intros Hf. induction l as [|x l IH]; cbn [map_M]; inv_auto. Qed.

Lemma writes_js_map f v : (forall a, inv J (f a)) -> inv J (js_map f v).
Proof. intros Hf. unfold js_map. inv_auto. by apply writes_map_M. Qed.

Lemma writes_authors_of prop : inv J (authors_of prop).
Proof. unfold authors_of. inv_auto. apply writes_js_map, writes_author_pair. Qed.

Hint Resolve writes_authors_of writes_polymer_set : inv.

Lemma writes__tabChanged : (forall l, tab e0 = VRef l -> W l) -> inv J _tabChanged.
Proof.
  intros Ht. unfold _tabChanged.
  apply inv_bind; [auto with inv|intros root].
  apply inv_bind; [auto with inv|intros title].
  destruct (negb _); [apply inv_ret|].
  apply writes_this. apply inv_bind; [auto with inv|intros authors].
  apply inv_bind; [by apply writes_put|intros _].
  repeat (apply inv_bind; [solve [auto with inv]|intros]).
  auto with inv.
Qed.

(** A handler whose last part leaves the heap alone. *)
Lemma writes_then {A B} (m : M A) (k : A -> M B) :
  inv J m -> (forall a s, J s -> F (final (k a s))) ->
  forall s, J s -> F (final (bind m k s)).
Proof.
  intros Hm Hk s Hs. unfold bind. specialize (Hm s Hs).
  destruct (m s) as [a s'|e s']; simpl in Hm; [by apply Hk|by destruct Hm].
Qed.

Lemma writes__sheetChanged :
  (forall l, sheet e0 = VRef l -> W l) -> forall s, J s -> F (final (_sheetChanged s)).
Proof.
  intros Hsheet. unfold _sheetChanged.
  apply writes_then; [auto with inv|intros root; cbv beta].
  apply writes_then; [auto with inv|intros title; cbv beta].
  destruct (negb _); [by intros s [? ?]|].
  do 7 (apply writes_then; [solve [auto with inv]|intros ?; cbv beta]).
  intros s [He Hf]. change (F (final (resolve_worksheet s))).
  unfold F. by rewrite resolve_worksheet_heap.
Qed.

(** The rest of [publish_rows] once [this.rows] is set. *)
Lemma writes_authors feed (k : unit -> M unit) :
  (forall l, rows e0 = VRef l -> W l) -> inv F (k tt) ->
  forall s, J s ->
    F (final ((author <- get_prop feed "author" ;;
               authors <- (if truthy author then
                             author <- get_prop feed "author" ;;
                             js_map author_pair author
                           else ret author) ;;
               polymer_set rows "authors" authors ;;
               k tt) s)).
Proof.
  intros Hrows Hk.
  apply writes_then; [auto with inv|intros author; cbv beta].
  apply writes_then.
  { destruct (truthy author); [|apply inv_ret].
    apply inv_bind; [auto with inv|intros a]. apply writes_js_map, writes_author_pair. }
  intros authors; cbv beta.
  apply writes_then; [auto with inv|intros []; cbv beta].
  intros s [_ Hs]. by apply Hk.
Qed.

End Writes.

Lemma _tabChanged_writes s :
  frame_on (fun l => tab (this s) = VRef l) (heap s) (heap (final (_tabChanged s))).
Proof.
  apply (writes__tabChanged (this s) (heap s) _ (fun l H => H) s).
  split; [done|apply frame_on_refl].
Qed.

Lemma _setTab_writes v s :
  frame_on (fun l => v = VRef l) (heap s) (heap (final (_setTab v s))).
Proof.
  unfold _setTab. rewrite bind_this. destruct (bool_decide _); [apply frame_on_refl|].
  unfold bind, update_this, modify.
  apply (_tabChanged_writes (set_this (with_tab v (this s)) s)).
Qed.

Lemma _sheetChanged_writes s :
  frame_on (fun l => sheet (this s) = VRef l) (heap s) (heap (final (_sheetChanged s))).
Proof.
  apply (writes__sheetChanged (this s) (heap s) _ (fun l H => H) s).
  split; [done|apply frame_on_refl].
Qed.

Lemma _setSheet_writes v s :
  frame_on (fun l => v = VRef l) (heap s) (heap (final (_setSheet v s))).
Proof.
  unfold _setSheet. rewrite bind_this. destruct (bool_decide _); [apply frame_on_refl|].
  unfold bind, update_this, modify.
  apply (_sheetChanged_writes (set_this (with_sheet v (this s)) s)).
Qed.

Lemma publish_rows_writes feed s :
  frame_on (fun l => feed = VRef l \/ js_get (heap s) feed "entry" = Some (VRef l))
    (heap s) (heap (final (publish_rows feed s))).
Proof.
  unfold publish_rows. destruct (js_get (heap s) feed "entry") as [entries|] eqn:He.
  2: { unfold bind, get_prop, lift_option. rewrite He. apply frame_on_refl. }
  rewrite (bind_js_get _ _ _ _ _ He). unfold bind at 1, _setRows, update_this, modify.
  set (s1 := set_this (with_rows entries (this s)) s).
  set (W := fun l => feed = VRef l \/ Some entries = Some (VRef l)).
  apply (writes_authors (this s1) (heap s) W feed
           (fun _ => p <- this_ published ;;
                     (if p then _setTab feed else ret tt) ;;
                     data <- this_ rows ;;
                     fire "google-sheet-data" "rows" data)).
  - intros l Hl. right. by rewrite <- Hl.
  - apply inv_bind; [auto with inv|intros p]. apply inv_bind.
    + destruct p; [|apply inv_ret]. intros s' Hs'.
      eapply frame_on_trans; [exact Hs'|].
      eapply frame_on_mono; [|apply _setTab_writes]. intros l Hl. by left.
    + intros _. apply inv_bind; [auto with inv|intros data]. apply inv_modify. by intros s'.
  - split; [done|apply frame_on_refl].
Qed.

(** A computation that leaves the state as it is. *)
Lemma same_state {A} (m : M A) s : inv (eq s) m -> final (m s) = s.
Proof. intros H. symmetry. by apply H. Qed.

Lemma bind_js_index {B} v i x (k : jsval -> M B) s :
  js_index (heap s) v i = Some x -> bind (index v i) k s = k x s.
Proof. intros H. unfold bind, index, lift_option. by rewrite H. Qed.

Lemma find_sheet_writes fuel feed : forall i s,
  frame_on (fun l => exists entries j, js_get (heap s) feed "entry" = Some entries /\
                       js_index (heap s) entries j = Some (VRef l))
    (heap s) (heap (final (find_sheet fuel feed i s))).
Proof.
  induction fuel as [|fuel IH]; intros i s; cbn [find_sheet]; [apply frame_on_refl|].
  destruct (js_get (heap s) feed "entry") as [entries|] eqn:He.
  2: { unfold bind, get_prop, lift_option. rewrite He. apply frame_on_refl. }
  rewrite (bind_js_get _ _ _ _ _ He).
  destruct (js_index (heap s) entries i) as [entry|] eqn:Hi.
  2: { unfold bind at 1, index at 1, lift_option at 1. rewrite Hi. apply frame_on_refl. }
  rewrite (bind_js_index _ _ _ _ _ Hi).
  destruct (truthy entry); [|apply frame_on_refl].
  destruct (js_get (heap s) entry "link") as [links|] eqn:Hl.
  2: { unfold bind at 1, get_prop at 1, lift_option at 1. rewrite Hl. apply frame_on_refl. }
  rewrite (bind_js_get _ _ _ _ _ Hl).
  unfold bind at 1.
  pose proof (same_state (getLink_ "alternate" links) s (inv_getLink_ _ _ _)) as Halt.
  destruct (getLink_ "alternate" links s) as [alt s1|e s1]; simpl in Halt; subst s1;
    [|apply frame_on_refl].
  unfold bind at 1.
  match goal with |- context [match ?m s with _ => _ end] =>
    assert (Hfound : final (m s) = s); [|destruct (m s) as [found s1|e s1]]
  end.
  { apply same_state. destruct (truthy alt); [|apply inv_ret].
    apply inv_bind; [auto with inv|intros href]. apply inv_bind; [auto with inv|intros k].
    apply inv_indexOf_found. }
  2: { simpl in Hfound. subst s1. apply frame_on_refl. }
  simpl in Hfound. subst s1. destruct found.
  2: { eapply frame_on_mono; [|exact (IH (S i) s)].
       intros l (en & j & H1 & H2). exists en, j. by rewrite <- He. }
  eapply frame_on_mono; [|apply _setSheet_writes]. intros l ->. by exists entries, i.
Qed.

Lemma _onSpreadsheetList_writes r s :
  frame_on (fun l => exists feed entries j, js_get (heap s) r "feed" = Some feed /\
                       js_get (heap s) feed "entry" = Some entries /\
                       js_index (heap s) entries j = Some (VRef l))
    (heap s) (heap (final (_onSpreadsheetList (EvResponse r) s))).
Proof.
  destruct (js_get (heap s) r "feed") as [feed|] eqn:Hf.
  2: { unfold _onSpreadsheetList, stopPropagation, target_lastResponse, bind, ret,
         get_prop, lift_option. rewrite Hf. apply frame_on_refl. }
  destruct (js_get (heap s) feed "entry") as [entries|] eqn:He.
  2: { unfold _onSpreadsheetList, stopPropagation, target_lastResponse.
       unfold bind at 1. unfold ret at 1. unfold bind at 1. unfold ret at 1.
       rewrite (bind_js_get _ _ _ _ _ Hf). unfold bind, get_prop, lift_option.
       rewrite He. apply frame_on_refl. }
  rewrite (_onSpreadsheetList_eq _ _ _ _ Hf He).
  destruct (bool_decide _); [apply frame_on_refl|].
  eapply frame_on_mono; [|apply (find_sheet_writes _ feed 0 (list_published entries s))].
  intros l (entries' & j & H1 & H2). exists feed, entries', j.
  split; [done|]. by split.
Qed.

Lemma _getCellRows_heap s : heap (final (_getCellRows s)) = heap s.
Proof. rewrite _getCellRows_eq. cbv zeta. by destruct (rowDataCache_ s !! _). Qed.

Lemma _keyChanged_heap s : heap (final (_keyChanged s)) = heap s.
Proof. rewrite _keyChanged_eq. by destruct (published (this s)). Qed.

Lemma _onWorksheet_writes r s :
  frame_on (fun l => js_get (heap s) r "entry" = Some (VRef l))
    (heap s) (heap (final (_onWorksheet (EvResponse r) s))).
Proof.
  unfold _onWorksheet, stopPropagation, target_lastResponse.
  unfold bind at 1. unfold ret at 1. unfold bind at 1. unfold ret at 1.
  destruct (js_get (heap s) r "entry") as [entry|] eqn:He.
  2: { unfold bind, get_prop, lift_option. rewrite He. apply frame_on_refl. }
  rewrite (bind_js_get _ _ _ _ _ He). unfold bind.
  pose proof (_setTab_writes entry s) as Ht.
  destruct (_setTab entry s) as [[] s1|e s1]; simpl in Ht.
  - rewrite _getCellRows_heap. eapply frame_on_mono; [|exact Ht]. by intros l ->.
  - eapply frame_on_mono; [|exact Ht]. by intros l ->.
Qed.

Lemma js_get_cached h feed e n l :
  js_get (h ++ [plain {["feed"%string := e]}; plain {["response"%string := n]}]) feed "entry"
    = Some (VRef l) ->
  js_get h feed "entry" = Some (VRef l).
Proof.
  destruct feed as [| | | | |lf]; try done. simpl.
  destruct (h !! lf) as [o|] eqn:Ho; [by rewrite (lookup_app_l_Some _ _ _ _ Ho)|].
  apply lookup_ge_None in Ho. rewrite lookup_app_r by done.
  destruct (lf - length h)%nat as [|[|k]]; simpl; try done.
Qed.

Lemma _onCellRows_writes r s :
  frame_on (fun l => exists feed, js_get (heap s) r "feed" = Some feed /\
                       (feed = VRef l \/ js_get (heap s) feed "entry" = Some (VRef l)))
    (heap s) (heap (final (_onCellRows (EvResponse r) s))).
Proof.
  destruct (js_get (heap s) r "feed") as [feed|] eqn:Hf.
  2: { unfold _onCellRows, stopPropagation, target_lastResponse, bind, ret,
         get_prop, lift_option. rewrite Hf. apply frame_on_refl. }
  rewrite (_onCellRows_response _ _ _ Hf). unfold bind. rewrite cache_feed_eq. cbv zeta.
  destruct (rowDataCache_ s !! _).
  - eapply frame_on_mono; [|apply publish_rows_writes].
    intros l Hl. by exists feed.
  - set (s1 := set_cache _ _).
    eapply frame_on_trans; [apply (frame_on_app _ (heap s))|].
    eapply frame_on_mono; [|apply (publish_rows_writes feed s1)].
    intros l Hl. exists feed. split; [done|]. destruct Hl as [Hl|Hl]; [by left|right].
    by apply js_get_cached in Hl.
Qed.

Lemma on_response_writes a r s :
  frame_on (written a (heap s) r) (heap s) (heap (final (on_response a (EvResponse r) s))).
Proof.
  destruct a; cbn [on_response written].
  - apply _onCellRows_writes.
  - apply _onSpreadsheetList_writes.
  - apply _onWorksheet_writes.
  - apply _onCellRows_writes.
Qed.

Lemma written_fresh a h ext r l :
  Forall (closed_obj (length h)) ext -> fresh (length h) r ->
  written a (h ++ ext) r l -> (length h <= l)%nat.
Proof.
  intros Hc Hr.
  assert (Hrows : (exists feed, js_get (h ++ ext) r "feed" = Some feed /\
             (feed = VRef l \/ js_get (h ++ ext) feed "entry" = Some (VRef l))) ->
           (length h <= l)%nat).
  { intros (feed & Hf & Hl). pose proof (grown_get _ _ _ _ _ Hc Hr Hf) as Hfeed.
    destruct Hl as [->|He]; [exact Hfeed|]. exact (grown_get _ _ _ _ _ Hc Hfeed He). }
  destruct a; cbn [written]; try exact Hrows.
  - intros (feed & entries & j & Hf & He & Hj).
    pose proof (grown_get _ _ _ _ _ Hc Hr Hf) as Hfeed.
    pose proof (grown_get _ _ _ _ _ Hc Hfeed He) as Hentries.
    exact (grown_index _ _ _ _ _ Hc Hentries Hj).
  - intros He. exact (grown_get _ _ _ _ _ Hc Hr He).
Qed.

Lemma _tabIdChanged_heap s : heap (final (_tabIdChanged s)) = heap s.
Proof.
  rewrite _tabIdChanged_eq. destruct (wid_truthy _); [apply _getCellRows_heap|].
  destruct (published _); [apply _keyChanged_heap|done].
Qed.

Lemma no_response_heap ev s :
  is_response ev = false -> heap (final (dispatch ev s)) = heap s.
Proof.
  destruct ev; intros Hev; try discriminate; cbn [dispatch]; unfold bind, update_this, modify.
  - by rewrite _keyChanged_heap.
  - unfold _configUpdate. by rewrite _tabIdChanged_heap.
  - unfold _configUpdate. by rewrite _tabIdChanged_heap.
  - unfold _configUpdate. by rewrite _tabIdChanged_heap.
  - reflexivity.
  - reflexivity.
Qed.

#[global] Instance fresh_dec n v : Decision (fresh n v).
Proof. destruct v; simpl; apply _. Defined.

#[global] Instance closed_obj_dec n o : Decision (closed_obj n o).
Proof.
  unfold closed_obj. apply and_dec.
  - apply (map_Forall_dec (fun (_ : string) v => fresh n v)).
  - destruct (kind o); apply _.
Defined.

(** X24: what a handler writes on the heap.  An event of the page writes nothing.
    A response handler leaves every object that exists as it is, except
    objects of the response it is handed: the handler of a list response may
    write entries of [lastResponse.feed.entry], that of a worksheet response
    [lastResponse.entry], that of a rows response [lastResponse.feed] and
    the array [lastResponse.feed.entry].  So when no object of the response
    is among the objects of [h] (the response was parsed after they were
    built and refers to none of them), the handler leaves [h] as it is:
    what the element handed out before stays unchanged; the body of a
    response as it is parsed on arrival is such a response.  A handler that
    is handed an earlier response again writes to the objects of that
    one. *)
Theorem response_objects_only :
  (forall ev s, is_response ev = false -> heap (final (dispatch ev s)) = heap s) /\
  (forall a r s l o,
     heap s !! l = Some o -> ~ written a (heap s) r l ->
     heap (final (on_response a (EvResponse r) s)) !! l = Some o) /\
  (forall a r s h ext,
     heap s = h ++ ext -> Forall (closed_obj (length h)) ext -> fresh (length h) r ->
     h `prefix_of` heap (final (on_response a (EvResponse r) s))) /\
  (forall body h, exists ext,
     (alloc_json body h).2 = h ++ ext /\ Forall (closed_obj (length h)) ext /\
     fresh (length h) (alloc_json body h).1).
Proof.
  split; [exact no_response_heap|]. split; [|split].
  - intros a r s l o Hl Hw. by apply (on_response_writes a r s).
  - intros a r s h ext Hh Hc Hr. eapply (frame_on_prefix _ h ext).
    + rewrite <- Hh. apply on_response_writes.
    + intros l Hl. rewrite Hh in Hl. by apply (written_fresh a h ext r).
  - intros body h. by apply alloc_json_closed.
Qed.

Lemma response_objects_only_witness :
  take 32 (heap rows_state) `prefix_of`
    heap (final (on_response cellrowsajax (EvResponse (VRef 42%nat)) rows_state)).
Proof.
  apply (proj1 (proj2 (proj2 response_objects_only)) cellrowsajax (VRef 42%nat) rows_state
           (take 32 (heap rows_state)) (drop 32 (heap rows_state))).
  - reflexivity.
  - apply (bool_decide_unpack _). vm_compute. exact I.
  - simpl. lia.
Defined.


(** *** The row feed of the public flow *)

(** The two objects of the caching step stay as they are while the rows are
    published. *)
Lemma cache_entry_kept s lf le s' e :
  is_Some (heap s !! lf) -> is_Some (heap s !! le) ->
  js_get (heap s) (VRef lf) "entry" = Some (VRef le) ->
  let n := length (heap s) in
  let s1 := set_cache (<[cache_key (_worksheetId (this s)) (tabId (this s)) := VRef (S n)]>
                         (rowDataCache_ s))
              (set_heap (heap s ++ [plain {["feed"%string := e]};
                                    plain {["response"%string := VRef n]}]) s) in
  publish_rows (VRef lf) s1 = Ok tt s' ->
  cache_entry_at (heap s') (VRef (S n)) e.
Proof.
  intros Hlf Hle Hentry n s1 Heq.
  pose proof (publish_rows_writes (VRef lf) s1) as Hframe. rewrite Heq in Hframe.
  cbn [final] in Hframe.
  apply lookup_lt_is_Some in Hlf, Hle. fold n in Hlf, Hle.
  assert (Hentry1 : js_get (heap s1) (VRef lf) "entry" = Some (VRef le)).
  { subst s1. cbn [heap set_cache set_heap]. simpl in Hentry |- *.
    destruct (heap s !! lf) as [o|] eqn:Ho.
    - by rewrite (lookup_app_l_Some _ _ _ _ Ho).
    - apply lookup_ge_None in Ho. lia. }
  assert (Hnew : forall l, (n <= l)%nat ->
            ~ (VRef lf = VRef l \/ js_get (heap s1) (VRef lf) "entry" = Some (VRef l))).
  { intros l Hl [[= ->]|Hw]; [lia|]. rewrite Hentry1 in Hw. injection Hw as ->. lia. }
  exists (S n), n. split; [done|]. split.
  - apply Hframe; [apply Hnew; lia|]. subst s1 n. cbn [heap set_cache set_heap].
    rewrite lookup_app_r by lia. by replace (S (length (heap s)) - length (heap s))%nat with 1%nat by lia.
  - apply Hframe; [apply Hnew; lia|]. subst s1 n. cbn [heap set_cache set_heap].
    rewrite lookup_app_r by lia. by rewrite Nat.sub_diag.
Qed.

(** X12: the row feed of the public flow: the feed becomes the tab and its entries
    the rows; the tab event is fired before the rows event; nothing is sent.
    The feed is cached under the key of the current worksheet id and tab:
    when that key was free, the cache gains the entry
    [{response: {feed: feed}}] there and nothing else; an entry that was
    there is kept.  Without a worksheet id the key is "null_" and the tab,
    whatever the spreadsheet key. *)
Theorem rows_response_public (s : state) (r : jsval) (lf le : loc) (t u : jsval)
    (ps : list (jsval * jsval)) :
  published (this s) = true -> tab (this s) <> VRef lf ->
  has_field (heap s) r "feed" (VRef lf) ->
  has_field (heap s) (VRef lf) "entry" (VRef le) -> is_Some (heap s !! le) ->
  tab_data (heap s) (VRef lf) t u ps ->
  let k := cache_key (_worksheetId (this s)) (tabId (this s)) in
  exists s', _onCellRows (EvResponse r) s = Ok tt s' /\
    log s' = log s ++ [Fired "google-sheet-data" "tab" (VRef lf);
                       Fired "google-sheet-data" "rows" (VRef le)] /\
    tab (this s') = VRef lf /\ rows (this s') = VRef le /\
    _worksheetId (this s') = _worksheetId (this s) /\
    (rowDataCache_ s !! k = None ->
       exists e, rowDataCache_ s' = <[k := e]> (rowDataCache_ s) /\
         cache_entry_at (heap s') e (VRef lf)) /\
    (is_Some (rowDataCache_ s !! k) -> rowDataCache_ s' = rowDataCache_ s) /\
    (_worksheetId (this s) = None ->
       k = ("null_" +:+ tab_string (tabId (this s)))%string).
Proof.
  intros Hpub Hne Hfeed Hentry Hle Hdata k.
  assert (Hlf : is_Some (heap s !! lf)).
  { destruct Hentry as (l & o & [= <-] & Ho & _). eauto. }
  rewrite (_onCellRows_response _ _ _ (js_get_has_field _ _ _ _ Hfeed)).
  unfold bind. rewrite cache_feed_eq. cbv zeta. fold k.
  destruct (rowDataCache_ s !! k) eqn:Hk.
  - destruct (publish_rows_public s lf le t u ps Hpub Hne Hentry Hdata)
      as (s' & Heq & Hlog & Htab & Hrows & Hcache & Hwid).
    exists s'. split; [exact Heq|]. split; [exact Hlog|]. split; [exact Htab|].
    split; [exact Hrows|]. split; [exact Hwid|].
    split; [discriminate|]. split; [done|]. intros Hnone. subst k. by rewrite Hnone.
  - set (s1 := set_cache _ _).
    destruct (publish_rows_public s1 lf le t u ps Hpub Hne) as
      (s' & Heq & Hlog & Htab & Hrows & Hcache & Hwid).
    + subst s1. cbn [heap set_cache set_heap]. by apply has_field_app.
    + subst s1. cbn [heap set_cache set_heap]. by apply tab_data_app.
    + exists s'. split; [exact Heq|]. split; [exact Hlog|]. split; [exact Htab|].
      split; [exact Hrows|]. split; [exact Hwid|]. split; [|split].
      * intros _. exists (VRef (S (length (heap s)))). split; [by rewrite Hcache|].
        apply (cache_entry_kept s lf le s' (VRef lf) Hlf Hle); [|exact Heq].
        by apply js_get_has_field.
      * by intros [? ?].
      * intros Hnone. subst k. by rewrite Hnone.
Qed.

Lemma rows_response_public_witness :
  exists s', _onCellRows (EvResponse (VRef 14%nat)) public_state = Ok tt s' /\
    log s' = log public_state ++ [Fired "google-sheet-data" "tab" (VRef 13%nat);
                                  Fired "google-sheet-data" "rows" (VRef 8%nat)] /\
    exists e, rowDataCache_ s' = {["null_1"%string := e]} /\
      cache_entry_at (heap s') e (VRef 13%nat).
Proof.
  destruct (rows_response_public public_state (VRef 14%nat) 13%nat 8%nat
              (VStr "Sheet1") (VStr "2015-03-02T10:00:00Z") sample_authors)
    as (s' & H1 & H2 & _ & _ & _ & H3 & _).
  - reflexivity.
  - discriminate.
  - concrete_field.
  - concrete_field.
  - eexists. reflexivity.
  - concrete_data.
  - exists s'. split; [exact H1|]. split; [exact H2|]. apply H3. reflexivity.
Defined.


(** *** Which event throws, and which handler writes which property *)

Lemma config_event_eq ev s :
  is_config ev = true ->
  dispatch ev s = _tabIdChanged (set_this (assigned ev (this s)) s).
Proof. by destruct ev. Qed.

(** X25: an event of the page (key, tabId, published or clientId assigned a
    value other than the one it has, or the outcome of a sign-in) throws in
    one case only: a change of tabId, published or clientId while a
    worksheet id is set and the rows of that worksheet and the tab the
    element then has are cached; the TypeError then leaves the element with
    the property assigned and nothing else changed.  In every other case the
    event returns normally. *)
Theorem page_event_throws_on_hit (ev : event) (s : state) :
  is_response ev = false -> changes ev (this s) = true ->
  let e1 := assigned ev (this s) in
  if is_config ev && wid_truthy (_worksheetId e1) &&
     bool_decide (is_Some (rowDataCache_ s !! cache_key (_worksheetId e1) (tabId e1)))
  then dispatch ev s = Throw TypeError (set_this e1 s)
  else exists s', dispatch ev s = Ok tt s'.
Proof.
  intros Hev _ e1. destruct (is_config ev) eqn:Hc; cbn [andb].
  - rewrite (config_event_eq _ _ Hc), _tabIdChanged_eq. fold e1.
    change (_worksheetId (this (set_this e1 s))) with (_worksheetId e1).
    destruct (wid_truthy (_worksheetId e1)); cbn [andb].
    + rewrite _getCellRows_eq. cbv zeta.
      change (rowDataCache_ (set_this e1 s)) with (rowDataCache_ s).
      change (this (set_this e1 s)) with e1.
      destruct (rowDataCache_ s !! _) eqn:Hk.
      * rewrite bool_decide_eq_true_2 by eauto. reflexivity.
      * rewrite bool_decide_eq_false_2 by (by intros [? ?]). eauto.
    + rewrite _keyChanged_eq. destruct (published _); eauto.
  - destruct ev; try discriminate.
    + cbn [dispatch]. unfold bind, update_this, modify. rewrite _keyChanged_eq.
      destruct (published _); eauto.
    + destruct (_onSignInSuccess_eq access_token (add_log (SignedIn access_token) s))
        as (s' & Hs' & _).
      exists s'. cbn [dispatch]. unfold bind, modify. exact Hs'.
    + by exists s.
Qed.

Lemma page_event_throws_on_hit_witness :
  clientId (this resolved_state) = ""%string /\
  key (this resolved_state) = "KEY1"%string /\
  dispatch (ClientIdChanged "client") resolved_state =
    Throw TypeError (set_this (with_clientId "client" (this resolved_state)) resolved_state) /\
  exists s', dispatch (KeyChanged "KEY2") resolved_state = Ok tt s'.
Proof.
  split; [reflexivity|]. split; [reflexivity|]. split.
  - exact (page_event_throws_on_hit (ClientIdChanged "client") resolved_state eq_refl eq_refl).
  - exact (page_event_throws_on_hit (KeyChanged "KEY2") resolved_state eq_refl eq_refl).
Defined.

(** A property of the element that writing an [iron-ajax] does not change. *)
Section Writers.
Variable P : element -> Prop.

Let J (s : state) : Prop := P (this s).

Hypothesis P_url : forall e a u,
  P e -> P (with_ajax a {| url := u; headers := headers (get_ajax a e) |} e).
Hypothesis P_headers : forall e a h,
  P e -> P (with_ajax a {| url := url (get_ajax a e); headers := h |} e).

Lemma kept_url s a u :
  J s -> J (set_this (with_ajax a {| url := u; headers := headers (get_ajax a (this s)) |}
                        (this s)) s).
Proof. apply P_url. Qed.

Lemma kept_log s o : J s -> J (add_log o s).
Proof. done. Qed.

Lemma kept_heap s h : J s -> J (set_heap h s).
Proof. done. Qed.

Lemma kept_cache (s : state) (e : jsval) :
  true = true ->
  rowDataCache_ s !! cache_key (_worksheetId (this s)) (tabId (this s)) = None ->
  J s ->
  J (set_cache (<[cache_key (_worksheetId (this s)) (tabId (this s)) := e]> (rowDataCache_ s)) s).
Proof. done. Qed.

Lemma kept_page_event ev s :
  is_response ev = false -> P (assigned ev (this s)) -> J (final (dispatch ev s)).
Proof.
  intros Hev HP. destruct (is_config ev) eqn:Hc.
  - rewrite (config_event_eq _ _ Hc).
    by apply (inv__configUpdate J kept_url kept_log).
  - destruct ev; try discriminate.
    + cbn [dispatch]. unfold bind, update_this, modify.
      by apply (inv__keyChanged_any J kept_url kept_log).
    + apply (inv_signin_event J kept_url); [|exact kept_log|exact HP].
      intros s0 a h _. apply P_headers.
    + exact HP.
Qed.

Lemma kept_worksheet_response body :
  (forall e v, P e -> P (with_tab v e)) ->
  inv J (dispatch (Response worksheetajax body)).
Proof.
  intros P_tab. apply inv_worksheet_response;
    [exact kept_heap| |exact kept_url|exact kept_log].
  intros s v. apply P_tab.
Qed.

Lemma kept_rows_response a body :
  (forall e v, P e -> P (with_tab v e)) -> (forall e v, P e -> P (with_rows v e)) ->
  a = publicajax \/ a = cellrowsajax ->
  inv J (dispatch (Response a body)).
Proof.
  intros P_tab P_rows Ha. apply (inv_rows_response J true);
    [exact kept_heap| | |exact kept_cache|exact kept_log|done|exact Ha].
  - intros s v. apply P_tab.
  - intros s v. apply P_rows.
Qed.

Lemma kept_list_response body :
  (forall e v, P e -> P (with_sheet v e)) -> (forall e v, P e -> P (with_spreadsheets v e)) ->
  (forall e w, P e -> P (with_worksheetId w e)) ->
  inv J (dispatch (Response listsheetsajax body)).
Proof.
  intros P_sheet P_spreadsheets P_wid. apply inv_list_response;
    [exact kept_heap| | | |exact kept_log].
  - intros s v. apply P_sheet.
  - intros s v. apply P_spreadsheets.
  - intros w. apply (inv_resolve J (fun _ => True)); [exact kept_url| | |done].
    + intros s r _. apply kept_log.
    + intros s w'. apply P_wid.
Qed.

End Writers.

(** X26: which handler writes which property.  No handler writes key,
    tabId, published or clientId: after any event they are what the page
    assigned.  An event of the page changes none of sheet, tab, rows,
    spreadsheets and the worksheet id.  A list response leaves tab and rows
    alone, a worksheet response changes at most tab, and a rows response at
    most tab and rows. *)
Theorem properties_written_by :
  (forall ev s, settings (this (final (dispatch ev s))) = settings (assigned ev (this s))) /\
  (forall ev s, is_response ev = false ->
     let e' := this (final (dispatch ev s)) in
     resolved e' = resolved (this s) /\ tab e' = tab (this s) /\ rows e' = rows (this s)) /\
  (forall body s,
     let e' := this (final (dispatch (Response listsheetsajax body) s)) in
     tab e' = tab (this s) /\ rows e' = rows (this s)) /\
  (forall body s,
     let e' := this (final (dispatch (Response worksheetajax body) s)) in
     resolved e' = resolved (this s) /\ rows e' = rows (this s)) /\
  (forall a body s, a = publicajax \/ a = cellrowsajax ->
     resolved (this (final (dispatch (Response a body) s))) = resolved (this s)).
Proof.
  split; [|split; [|split; [|split]]].
  - intros ev s. destruct (is_response ev) eqn:Hev.
    + destruct ev as [| | | | | |a body]; try discriminate. cbn [assigned].
      set (P := fun e => settings e = settings (this s)).
      assert (HJ : inv (fun s' => P (this s')) (dispatch (Response a body))); [|by apply HJ].
      destruct a.
      * by apply kept_rows_response; [..|left].
      * by apply kept_list_response.
      * by apply kept_worksheet_response.
      * by apply kept_rows_response; [..|right].
    + by apply (kept_page_event (fun e => settings e = settings (assigned ev (this s)))).
  - intros ev s Hev e'.
    apply (kept_page_event
             (fun e => resolved e = resolved (this s) /\ tab e = tab (this s) /\
                       rows e = rows (this s))); try done.
    by destruct ev.
  - intros body s e'.
    by apply (kept_list_response (fun e => tab e = tab (this s) /\ rows e = rows (this s))).
  - intros body s e'.
    by apply (kept_worksheet_response
                (fun e => resolved e = resolved (this s) /\ rows e = rows (this s))).
  - intros a body s Ha.
    by apply (kept_rows_response (fun e => resolved e = resolved (this s))).
Qed.

Lemma properties_written_by_witness :
  resolved (this (final (dispatch (Response cellrowsajax sample_rows) fresh_state))) =
  resolved (this fresh_state).
Proof.
  apply (proj2 (proj2 (proj2 (proj2 properties_written_by)))). right. reflexivity.
Defined.


(** *** The events that a handler fires *)

Lemma fired_app l l' : fired (l ++ l') = fired l ++ fired l'.
Proof. apply flat_map_app. Qed.

Section Fires.
Variable l0 : list obs.

Let K (A : element -> list (string * string * jsval)) (s : state) : Prop :=
  fired_since l0 A s.
Let none : element -> list (string * string * jsval) := fun _ => [].
Let tab_only : element -> list (string * string * jsval) :=
  fun e => [data_event "tab" (tab e)].
Let tab_rows : element -> list (string * string * jsval) :=
  fun e => [data_event "tab" (tab e); data_event "rows" (rows e)].
Let list_only : element -> list (string * string * jsval) :=
  fun e => [data_event "spreadsheets" (spreadsheets e)].

Lemma fired_same A s s' :
  log s' = log s -> A (this s') = A (this s) -> K A s -> K A s'.
Proof. intros Hl HA (ext & Hlog & Hf). exists ext. by rewrite Hl, HA. Qed.

Lemma fired_quiet A s o : fired_of o = [] -> K A s -> K A (add_log o s).
Proof.
  intros Ho (ext & Hlog & Hf). exists (ext ++ [o]). simpl. rewrite Hlog, app_assoc.
  split; [done|]. rewrite fired_app. simpl. by rewrite Ho, !app_nil_r.
Qed.

Lemma fired_weaken A B s : (forall e, A e `sublist_of` B e) -> K A s -> K B s.
Proof. intros HAB (ext & Hlog & Hf). exists ext. split; [done|]. by etrans. Qed.

Lemma fired_heap A s h : K A s -> K A (set_heap h s).
Proof. by apply fired_same. Qed.

Lemma fired_first d (prop : element -> jsval) s :
  K none s ->
  K (fun e => [data_event d (prop e)]) (add_log (Fired "google-sheet-data" d (prop (this s))) s).
Proof.
  intros (ext & Hlog & Hf). exists (ext ++ [Fired "google-sheet-data" d (prop (this s))]).
  simpl. rewrite Hlog, app_assoc. split; [done|]. rewrite fired_app.
  apply sublist_nil_r in Hf. by rewrite Hf.
Qed.

Lemma fired_second s :
  K tab_only s -> K tab_rows (add_log (Fired "google-sheet-data" "rows" (rows (this s))) s).
Proof.
  intros (ext & Hlog & Hf). exists (ext ++ [Fired "google-sheet-data" "rows" (rows (this s))]).
  simpl. rewrite Hlog, app_assoc. split; [done|]. rewrite fired_app.
  by apply (sublist_app _ [_] _ [_]).
Qed.

Lemma fires_seq {X Y} A B C (m : M X) (k : X -> M Y) :
  (forall e, B e `sublist_of` C e) ->
  hoare (K A) (K B) m -> (forall a, hoare (K B) (K C) (k a)) ->
  hoare (K A) (K C) (bind m k).
Proof.
  intros HBC Hm Hk s Hs. unfold bind. specialize (Hm s Hs).
  destruct (m s) as [a s'|e s']; simpl in Hm; [by apply Hk|by apply (fired_weaken B)].
Qed.

Lemma fires_bind {X Y} A B (m : M X) (k : X -> M Y) :
  (forall e, A e `sublist_of` B e) ->
  inv (K A) m -> (forall a, hoare (K A) (K B) (k a)) -> hoare (K A) (K B) (bind m k).
Proof. intros HAB Hm Hk. by apply (fires_seq A A B). Qed.

Lemma fires_none {X} A B (m : M X) :
  (forall e, A e `sublist_of` B e) -> inv (K A) m -> hoare (K A) (K B) m.
Proof. intros HAB Hm s Hs. by apply (fired_weaken A), Hm. Qed.

Lemma none_below A e : none e `sublist_of` A e.
Proof. apply sublist_nil_l. Qed.

Lemma quiet_this f : inv (K none) (update_this f).
Proof. apply inv_modify. intros s. by apply fired_same. Qed.

Lemma fires__tabChanged : hoare (K none) (K tab_only) _tabChanged.
Proof.
  assert (Hheap : forall s h, K none s -> K none (set_heap h s)) by (intros; by apply fired_heap).
  assert (Hset : forall prop name v, inv (K none) (polymer_set prop name v)).
  { intros prop name v. by apply inv_polymer_set. }
  unfold _tabChanged.
  apply fires_bind; [apply none_below|auto with inv|intros root].
  apply fires_bind; [apply none_below|auto with inv|intros title].
  destruct (negb _); [apply fires_none; [apply none_below|auto with inv]|].
  apply fires_bind; [apply none_below|auto with inv|intros target].
  apply fires_bind; [apply none_below|by apply inv_authors_of|intros authors].
  apply fires_bind; [apply none_below|by apply inv_put_prop|intros _].
  apply fires_bind; [apply none_below|auto with inv|intros t].
  apply fires_bind; [apply none_below|apply Hset|intros _].
  apply fires_bind; [apply none_below|auto with inv|intros u].
  apply fires_bind; [apply none_below|by apply inv_new|intros d].
  apply fires_bind; [apply none_below|apply Hset|intros _].
  apply fires_bind; [apply none_below|apply Hset|intros _].
  intros s Hs. rewrite bind_this. by apply (fired_first "tab" tab).
Qed.

Lemma fires__setTab v : hoare (K none) (K tab_only) (_setTab v).
Proof.
  unfold _setTab. apply fires_bind; [apply none_below|auto with inv|intros old].
  destruct (bool_decide _); [apply fires_none; [apply none_below|auto with inv]|].
  apply fires_bind; [apply none_below|apply quiet_this|intros _]. apply fires__tabChanged.
Qed.

Lemma fires_publish_rows feed : hoare (K none) (K tab_rows) (publish_rows feed).
Proof.
  assert (Hheap : forall s h, K none s -> K none (set_heap h s)) by (intros; by apply fired_heap).
  unfold publish_rows.
  apply fires_bind; [apply none_below|auto with inv|intros entries].
  apply fires_bind; [apply none_below|apply quiet_this|intros _].
  apply fires_bind; [apply none_below|auto with inv|intros author].
  apply fires_bind; [apply none_below| |intros authors].
  { destruct (truthy author); [|auto with inv].
    apply inv_bind; [auto with inv|intros a]. apply inv_js_map; [done|].
    intros x. by apply inv_author_pair. }
  apply fires_bind; [apply none_below|by apply inv_polymer_set|intros _].
  apply fires_bind; [apply none_below|auto with inv|intros p].
  apply (fires_seq none tab_only tab_rows).
  - intros e. by apply (sublist_inserts_r [_] [_] [_]).
  - destruct p; [apply fires__setTab|apply fires_none; [apply none_below|auto with inv]].
  - intros _ s Hs. rewrite bind_this. by apply fired_second.
Qed.

Lemma fires__onCellRows e : hoare (K none) (K tab_rows) (_onCellRows e).
Proof.
  unfold _onCellRows.
  apply fires_bind; [apply none_below|auto with inv|intros _].
  apply fires_bind; [apply none_below|auto with inv|intros response].
  apply fires_bind; [apply none_below|auto with inv|intros feed].
  apply fires_bind; [apply none_below| |intros _; apply fires_publish_rows].
  apply inv_cache_feed; [intros; by apply fired_heap|]. intros s x _. by apply fired_same.
Qed.

Lemma kept__getCellRows A :
  (forall e a x, A (with_ajax a x e) = A e) -> inv (K A) _getCellRows.
Proof.
  intros HA s Hs. rewrite _getCellRows_eq. cbv zeta.
  destruct (rowDataCache_ s !! _); [exact Hs|]. cbn [final].
  apply fired_quiet; [done|]. apply (fired_same _ s); [done|apply HA|exact Hs].
Qed.

Lemma kept__keyChanged A :
  (forall e a x, A (with_ajax a x e) = A e) -> inv (K A) _keyChanged.
Proof.
  intros HA s Hs. rewrite _keyChanged_eq. destruct (published _); [|exact Hs]. cbn [final].
  apply fired_quiet; [done|]. apply (fired_same _ s); [done|apply HA|exact Hs].
Qed.

Lemma fires__onWorksheet e : hoare (K none) (K tab_only) (_onWorksheet e).
Proof.
  unfold _onWorksheet.
  apply fires_bind; [apply none_below|auto with inv|intros _].
  apply fires_bind; [apply none_below|auto with inv|intros response].
  apply fires_bind; [apply none_below|auto with inv|intros entry].
  apply (fires_seq none tab_only tab_only); [done|apply fires__setTab|intros _].
  by apply kept__getCellRows.
Qed.

Lemma kept_resolve w : inv (K list_only) (update_this (with_worksheetId w) ;; _getWorksheet).
Proof.
  apply (inv_resolve _ (fun _ => True)); [| | |done].
  - intros s a u. by apply fired_same.
  - intros s r _. by apply fired_quiet.
  - intros s w'. by apply fired_same.
Qed.

Lemma fires__onSpreadsheetList e : hoare (K none) (K list_only) (_onSpreadsheetList e).
Proof.
  unfold _onSpreadsheetList.
  apply fires_bind; [apply none_below|auto with inv|intros _].
  apply fires_bind; [apply none_below|auto with inv|intros response].
  apply fires_bind; [apply none_below|auto with inv|intros feed].
  apply fires_bind; [apply none_below|auto with inv|intros entries].
  apply fires_bind; [apply none_below|apply quiet_this|intros _].
  intros s Hs. rewrite bind_this. unfold bind at 1, fire, modify.
  apply (fired_first "spreadsheets" spreadsheets) in Hs. revert Hs.
  generalize (add_log (Fired "google-sheet-data" "spreadsheets" (spreadsheets (this s))) s).
  change (inv (K list_only)
            (k <- this_ key ;;
             if bool_decide (k = ""%string) then ret tt
             else n <- gets (fun s => index_bound (heap s) entries) ;;
                  find_sheet (S n) feed 0)).
  apply inv_bind; [auto with inv|intros k]. destruct (bool_decide _); [auto with inv|].
  apply inv_bind; [auto with inv|intros n]. apply inv_find_sheet.
  - intros; by apply fired_heap.
  - intros s' v. by apply fired_same.
  - exact kept_resolve.
Qed.

Lemma fires_response a body : hoare (K none) (K (may_fire (Response a body)))
                                (dispatch (Response a body)).
Proof.
  cbn [dispatch].
  apply fires_bind; [apply none_below| |intros _].
  { apply inv_modify. intros s. by apply fired_quiet. }
  apply fires_bind; [apply none_below| |intros r].
  { intros s Hs. destruct (alloc_json body (heap s)). by apply fired_heap. }
  destruct a; cbn [on_response may_fire].
  - apply fires__onCellRows.
  - apply fires__onSpreadsheetList.
  - apply fires__onWorksheet.
  - apply fires__onCellRows.
Qed.

Lemma quiet_page_event ev : is_response ev = false -> inv (K none) (dispatch ev).
Proof.
  assert (Hajax : forall (e : element) (a : ajax_id) (x : ajax), none (with_ajax a x e) = none e)
    by done.
  intros Hev. destruct (is_config ev) eqn:Hc.
  - intros s Hs. rewrite (config_event_eq _ _ Hc), _tabIdChanged_eq.
    assert (Hs1 : K none (set_this (assigned ev (this s)) s)) by (by apply (fired_same _ s)).
    destruct (wid_truthy _); [by apply kept__getCellRows|].
    destruct (published _); [by apply kept__keyChanged|exact Hs1].
  - destruct ev; try discriminate; cbn [dispatch].
    + apply inv_bind; [apply quiet_this|intros _]. by apply kept__keyChanged.
    + apply inv_bind; [apply inv_modify; intros s; by apply fired_quiet|intros _].
      unfold _onSignInSuccess, _listSpreadsheets, set_headers, set_url. cbv zeta.
      do 4 (apply inv_bind; [apply quiet_this|intros _]).
      unfold generateRequest. apply inv_bind; [auto with inv|intros x].
      apply inv_modify. intros s. by apply fired_quiet.
    + apply inv_ret.
Qed.

End Fires.

(** X27: what the handlers fire themselves, with [this.fire] (the property-change
    events that Polymer fires for a [notify] property are no part of this).
    Every such event is a [google-sheet-data] event, and its data is the
    value that the property named by its type has when the handler ends.
    The handler of a list response calls [this.fire] at most once, with type
    'spreadsheets'; that of a worksheet response at most once, with type
    'tab'; that of a rows response at most for a 'tab' event followed by a
    'rows' event; the handler of an event of the page never calls it. *)
Theorem fired_events (ev : event) (s : state) :
  let s' := final (dispatch ev s) in
  exists ext, log s' = log s ++ ext /\ fired ext `sublist_of` may_fire ev (this s').
Proof.
  assert (H0 : fired_since (log s) (fun _ => []) s).
  { exists []. by rewrite app_nil_r. }
  destruct (is_response ev) eqn:Hev.
  - destruct ev; try discriminate. by apply (fires_response (log s)).
  - destruct (quiet_page_event (log s) ev Hev s H0) as (ext & Hlog & Hf).
    exists ext. split; [done|]. apply sublist_nil_r in Hf. rewrite Hf. apply sublist_nil_l.
Qed.

